(** * A connection broker over web sockets: model and verification

    The source file [audio-video.ts] holds two brokers, one after the other:

    - the call-signalling broker (its first [setupWebSocket], with
      [handleParcelChatMessage]): authentication, a registry of the live
      connection of every identity, a role index, a liveness monitor and
      the relay of call-signalling envelopes;
    - the chat and location broker (its second [setupWebSocket], with
      [broadcastToAll]): authentication, presence broadcast, live location
      fan-out and chat persistence through a store.

    Both are embedded below as functions on an explicit broker state.  A
    connection object of the source is a handle ([conn]) into a table of
    socket records, so that the registries hold references to sockets and
    not copies of them.  Every listener of the source ([connection],
    [message], [pong], [close], the interval callback) is one function on the
    state; listeners run one at a time, the interleaving of [await] points is
    not modelled. *)

From Stdlib Require Import ZArith List String Bool Lia.
From stdpp Require Import base option list strings gmap.

Set Warnings "-register-all".
Local Open Scope string_scope.
Local Open Scope list_scope.

(** ** Values of the host language *)

(** A parsed JSON value, with [JUndefined] for a property that is absent.
    Numbers are carried as integers: the brokers only pass them on. *)
Inductive json : Type :=
| JUndefined
| JNull
| JBool (b : bool)
| JNum (n : Z)
| JStr (s : string)
| JArr (items : list json)
| JObj (fields : list (string * json)).

(** Truthiness, as [!x] and [if (x)] see it. *)
Definition truthy (v : json) : bool :=
  match v with
  | JUndefined | JNull => false
  | JBool b => b
  | JNum n => negb (n =? 0)%Z
  | JStr s => negb (String.eqb s "")
  | JArr _ | JObj _ => true
  end.

(** [x == null]: true of [null] and [undefined] only. *)
Definition nullish (v : json) : bool :=
  match v with
  | JUndefined | JNull => true
  | _ => false
  end.

(** [x === "lit"] for a string literal. *)
Definition str_is (v : json) (lit : string) : bool :=
  match v with
  | JStr s => String.eqb s lit
  | _ => false
  end.

Fixpoint assoc (k : string) (fields : list (string * json)) : json :=
  match fields with
  | [] => JUndefined
  | (k', v) :: rest => if String.eqb k k' then v else assoc k rest
  end.

(** Property access [v.k].  Reading a property of [null] raises a
    [TypeError] ([None]); a primitive or an array has none of the properties
    the brokers read. *)
Definition get_prop (v : json) (k : string) : option json :=
  match v with
  | JUndefined | JNull => None
  | JObj fields => Some (assoc k fields)
  | _ => Some JUndefined
  end.

(** Property access on a value already known not to be [null]. *)
Definition prop (v : json) (k : string) : json :=
  default JUndefined (get_prop v k).

(** An optional string field of a socket, as a value. *)
Definition of_field (o : option string) : json :=
  match o with
  | Some s => JStr s
  | None => JUndefined
  end.

(** [!ws.userId] is false exactly when the field holds a non-empty string. *)
Definition has_identity (o : option string) : bool := truthy (of_field o).

(** ** The transport *)

(** A connection handle: the identity of a socket object. *)
Definition conn := nat.

(** The states of a server-side socket.  A socket handed to a listener is
    past its opening handshake, so [CONNECTING] does not occur. *)
Inductive ReadyState := OPEN | CLOSING | CLOSED.

Definition is_OPEN (r : ReadyState) : bool :=
  match r with OPEN => true | _ => false end.

(** Calls made on the transport, in the order they are made.  The trace
    records the call; what the transport does with a frame for a socket that
    is no longer open is below this model. *)
Inductive Effect :=
| Send (c : conn) (payload : json)
| Ping (c : conn)
| Close (c : conn)
| Terminate (c : conn).

(** What an event delivers to the handlers: the text of a message parses to
    a value, or [JSON.parse] raises ([None]). *)
Definition Parsed := option json.

(** The outcome of [jwtHelpers.verifyToken], which is not part of the
    sources: it yields the identity the credential carries, returns nothing,
    or raises. *)
Inductive VerifyResult :=
| Verified (id role email : string)
| VerifyNull
| VerifyThrows.

(** The members of [UserRole] the brokers name.  The generated client
    renders an enumeration member as the string of its name. *)
Definition UserRole_Client : string := "Client".
Definition UserRole_Host : string := "Host".

(** A line on the console: the leading text and the values printed after
    it (the text of a template literal without its pictographs, and the
    values interpolated in it). *)
Definition LogLine := (string * list json)%type.

Definition error_envelope (message : string) : json :=
  JObj [("event", JStr "error"); ("message", JStr message)].

(** The envelopes among the effects that were sent to connection [c]. *)
Definition sent_to (c : conn) (es : list Effect) : list json :=
  omap (fun e => match e with
                 | Send c' v => if Nat.eqb c' c then Some v else None
                 | _ => None
                 end) es.

(** Every envelope among the effects, whoever it went to. *)
Definition sends (es : list Effect) : list (conn * json) :=
  omap (fun e => match e with
                 | Send c v => Some (c, v)
                 | _ => None
                 end) es.

(** ** The call-signalling broker *)

Module CallBroker.

(** The fields the broker keeps on a socket.  [isAlive] and [path] are set
    by the [connection] listener before any other listener can read them;
    the identity fields stay unset until an [authenticate] succeeds. *)
Record ExtendedWebSocket := {
  userId : option string;
  userRole : option string;
  userName : option string;
  isAlive : bool;
  path : string;
  readyState : ReadyState
}.

(** The two registries of the module, [onlineUsers] and [onlineCouriers],
    with the sockets they refer to, the clients of the server, and what the
    broker has done so far on the transport and on the console. *)

Record Broker := {
  sockets : gmap conn ExtendedWebSocket;
  clients : list conn;                      (* wss.clients, in insertion order *)
  onlineUsers : gmap string (conn * string);
  onlineCouriers : gmap string conn;
  effects : list Effect;
  console : list LogLine;
  nextConn : conn
}.

Definition init : Broker := {|
  sockets := ∅; clients := []; onlineUsers := ∅; onlineCouriers := ∅;
  effects := []; console := []; nextConn := 0
|}.

Definition set_sockets (v : gmap conn ExtendedWebSocket) (b : Broker) : Broker :=
  {| sockets := v; clients := clients b; onlineUsers := onlineUsers b;
     onlineCouriers := onlineCouriers b; effects := effects b;
     console := console b; nextConn := nextConn b |}.

Definition set_clients (v : list conn) (b : Broker) : Broker :=
  {| sockets := sockets b; clients := v; onlineUsers := onlineUsers b;
     onlineCouriers := onlineCouriers b; effects := effects b;
     console := console b; nextConn := nextConn b |}.

Definition set_onlineUsers (v : gmap string (conn * string)) (b : Broker) : Broker :=
  {| sockets := sockets b; clients := clients b; onlineUsers := v;
     onlineCouriers := onlineCouriers b; effects := effects b;
     console := console b; nextConn := nextConn b |}.

Definition set_onlineCouriers (v : gmap string conn) (b : Broker) : Broker :=
  {| sockets := sockets b; clients := clients b; onlineUsers := onlineUsers b;
     onlineCouriers := v; effects := effects b;
     console := console b; nextConn := nextConn b |}.

Definition set_effects (v : list Effect) (b : Broker) : Broker :=
  {| sockets := sockets b; clients := clients b; onlineUsers := onlineUsers b;
     onlineCouriers := onlineCouriers b; effects := v;
     console := console b; nextConn := nextConn b |}.

Definition set_console (v : list LogLine) (b : Broker) : Broker :=
  {| sockets := sockets b; clients := clients b; onlineUsers := onlineUsers b;
     onlineCouriers := onlineCouriers b; effects := effects b;
     console := v; nextConn := nextConn b |}.

Definition set_nextConn (v : conn) (b : Broker) : Broker :=
  {| sockets := sockets b; clients := clients b; onlineUsers := onlineUsers b;
     onlineCouriers := onlineCouriers b; effects := effects b;
     console := console b; nextConn := v |}.

(** *** Socket fields *)

Definition bind_identity (id role email : string) (ws : ExtendedWebSocket)
  : ExtendedWebSocket :=
  {| userId := Some id; userRole := Some role; userName := Some email;
     isAlive := isAlive ws; path := path ws; readyState := readyState ws |}.

Definition with_isAlive (v : bool) (ws : ExtendedWebSocket) : ExtendedWebSocket :=
  {| userId := userId ws; userRole := userRole ws; userName := userName ws;
     isAlive := v; path := path ws; readyState := readyState ws |}.

Definition with_readyState (v : ReadyState) (ws : ExtendedWebSocket)
  : ExtendedWebSocket :=
  {| userId := userId ws; userRole := userRole ws; userName := userName ws;
     isAlive := isAlive ws; path := path ws; readyState := v |}.

(** [close()] and [terminate()] leave a closed socket alone and put any
    other one in [CLOSING]; the [close] event completes the closure. *)
Definition start_closing (ws : ExtendedWebSocket) : ExtendedWebSocket :=
  match readyState ws with
  | CLOSED => ws
  | _ => with_readyState CLOSING ws
  end.

(** *** Calls on the transport and the console *)

Definition update_socket (c : conn) (f : ExtendedWebSocket -> ExtendedWebSocket)
    (b : Broker) : Broker :=
  set_sockets (alter f c (sockets b)) b.

Definition emit (e : Effect) (b : Broker) : Broker :=
  set_effects (effects b ++ [e]) b.

Definition ws_send (c : conn) (payload : json) : Broker -> Broker :=
  emit (Send c payload).

Definition ws_ping (c : conn) : Broker -> Broker := emit (Ping c).

Definition ws_close (c : conn) (b : Broker) : Broker :=
  emit (Close c) (update_socket c start_closing b).

Definition ws_terminate (c : conn) (b : Broker) : Broker :=
  emit (Terminate c) (update_socket c start_closing b).

Definition console_log (text : string) (args : list json) (b : Broker) : Broker :=
  set_console (console b ++ [(text, args)]) b.

Definition is_open (b : Broker) (c : conn) : bool :=
  match sockets b !! c with
  | Some ws => is_OPEN (readyState ws)
  | None => false
  end.

(** [ws.userRole === UserRole.X] *)
Definition role_is (o : option string) (role : string) : bool :=
  match o with
  | Some r => String.eqb r role
  | None => false
  end.

(** [onlineUsers.get(k)] for a key taken from a payload: the keys of the
    registry are strings, and no other value is equal to one. *)
Definition registry_get (b : Broker) (k : json) : option (conn * string) :=
  match k with
  | JStr s => onlineUsers b !! s
  | _ => None
  end.

(** *** The liveness monitor *)

(** [heartbeat(ws)], the [pong] listener. *)
Definition heartbeat (c : conn) : Broker -> Broker :=
  update_socket c (with_isAlive true).

(** The registry cleanup of the [close] listener. *)
Definition on_close (c : conn) (b : Broker) : Broker :=
  match sockets b !! c with
  | None => b
  | Some ws =>
      match userId ws with
      | Some uid =>
          if has_identity (Some uid) then
            let b1 := set_onlineUsers (delete uid (onlineUsers b)) b in
            if role_is (userRole ws) UserRole_Client
            then set_onlineCouriers (delete uid (onlineCouriers b1)) b1
            else b1
          else b
      | None => b
      end
  end.

(** The body of the interval callback for one client. *)
Definition check_alive (b : Broker) (c : conn) : Broker :=
  match sockets b !! c with
  | None => b
  | Some ws =>
      if negb (isAlive ws) then
        let b1 :=
          match userId ws with
          | Some uid =>
              if has_identity (Some uid) then
                let b1 := set_onlineUsers (delete uid (onlineUsers b)) b in
                if role_is (userRole ws) UserRole_Client
                then set_onlineCouriers (delete uid (onlineCouriers b1)) b1
                else b1
              else b
          | None => b
          end in
        ws_terminate c b1
      else
        ws_ping c (update_socket c (with_isAlive false) b)
  end.

(** The period of the monitor, in milliseconds. *)
Definition interval_period : Z := 30000.

(** One run of the interval callback: [wss.clients.forEach]. *)
Definition interval (b : Broker) : Broker :=
  foldl check_alive b (clients b).

(** *** The [connection] listener *)

Definition fresh_socket (url : string) : ExtendedWebSocket :=
  {| userId := None; userRole := None; userName := None;
     isAlive := true; path := url; readyState := OPEN |}.

(** The transport creates the socket, files it under [wss.clients] and
    raises [connection]; the listener sets [isAlive] and [path] and greets. *)
Definition on_connection (url : string) (b : Broker) : Broker :=
  let c := nextConn b in
  let b1 := set_nextConn (S c)
              (set_clients (clients b ++ [c])
                 (set_sockets (<[c := fresh_socket url]> (sockets b)) b)) in
  let b2 := console_log "New WebSocket connection established on path:"
              [JStr url] b1 in
  ws_send c (JObj [("event", JStr "info");
                   ("message", JStr "Connected to server. Please authenticate.")])
    b2.

(** *** The call-signalling events: [handleParcelChatMessage] *)

Definition relay_to_open_peer (toUserId : json) (payload : json)
    (ok failed : LogLine) (b : Broker) : Broker :=
  match registry_get b toUserId with
  | Some (peer, _) =>
      if is_open b peer
      then console_log (fst ok) (snd ok) (ws_send peer payload b)
      else console_log (fst failed) (snd failed) b
  | None => console_log (fst failed) (snd failed) b
  end.

Definition callType_valid (callType : json) : bool :=
  truthy callType && (str_is callType "audio" || str_is callType "video").

Definition role_of_conn (b : Broker) (c : conn) : option string :=
  match sockets b !! c with
  | Some ws => userRole ws
  | None => None
  end.

Definition id_of_conn (b : Broker) (c : conn) : option string :=
  match sockets b !! c with
  | Some ws => userId ws
  | None => None
  end.

Definition incomingCall (from : option string) (offer callType : json) : json :=
  JObj [("event", JStr "incomingCall");
        ("data", JObj [("fromUserId", of_field from);
                       ("offer", offer);
                       ("callType", callType)])].

Definition callUser (c : conn) (parsedData : json) (b : Broker) : Broker :=
  let toUserId := prop parsedData "toUserId" in
  let offer := prop parsedData "offer" in
  let callType := prop parsedData "callType" in
  let b := console_log "[callUser]"
             [JStr "From:"; of_field (id_of_conn b c); JStr "To:"; toUserId;
              JStr "Type:"; callType] b in
  if negb (role_is (role_of_conn b c) UserRole_Client) then
    ws_send c (error_envelope "Only Client can initiate a call.") b
  else if negb (callType_valid callType) then
    ws_send c (error_envelope
                 "Invalid or missing callType. Must be 'audio' or 'video'.") b
  else
    match registry_get b toUserId with
    | Some (receiver, _) =>
        if is_open b receiver
           && role_is (role_of_conn b receiver) UserRole_Host
        then
          console_log "event Success: Call delivered to" [toUserId]
            (ws_send receiver
               (incomingCall (id_of_conn b c) offer callType) b)
        else
          ws_send c (error_envelope "Host not available or invalid recipient.")
            (console_log "event Failed: Host not available" [] b)
    | None =>
        ws_send c (error_envelope "Host not available or invalid recipient.")
          (console_log "event Failed: Host not available" [] b)
    end.

Definition answerCall (c : conn) (parsedData : json) (b : Broker) : Broker :=
  let toUserId := prop parsedData "toUserId" in
  let answer := prop parsedData "answer" in
  let b := console_log "[answerCall]"
             [JStr "From:"; of_field (id_of_conn b c); JStr "To:"; toUserId] b in
  relay_to_open_peer toUserId
    (JObj [("event", JStr "callAnswered");
           ("data", JObj [("fromUserId", of_field (id_of_conn b c));
                          ("answer", answer)])])
    ("event Success: Answer sent to", [toUserId])
    ("event Failed: Caller not available", []) b.

Definition iceCandidate (c : conn) (parsedData : json) (b : Broker) : Broker :=
  let toUserId := prop parsedData "toUserId" in
  let candidate := prop parsedData "candidate" in
  let b := console_log "[iceCandidate]"
             [JStr "From:"; of_field (id_of_conn b c); JStr "To:"; toUserId] b in
  relay_to_open_peer toUserId
    (JObj [("event", JStr "iceCandidate");
           ("data", JObj [("fromUserId", of_field (id_of_conn b c));
                          ("candidate", candidate)])])
    ("event Success: ICE candidate sent to", [toUserId])
    ("event Failed: Peer not available", []) b.

Definition disconnectCall (c : conn) (parsedData : json) (b : Broker) : Broker :=
  let toUserId := prop parsedData "toUserId" in
  let b := console_log "[disconnectCall]"
             [JStr "From:"; of_field (id_of_conn b c); JStr "To:"; toUserId] b in
  relay_to_open_peer toUserId
    (JObj [("event", JStr "callDisconnected");
           ("data", JObj [("fromUserId", of_field (id_of_conn b c));
                          ("message", JStr "Call has been disconnected.")])])
    ("event Success: Call disconnect sent to", [toUserId])
    ("event Failed: Peer not available", []) b.

Definition handleParcelChatMessage (c : conn) (parsedData : json) (b : Broker)
  : Broker :=
  let event := prop parsedData "event" in
  if str_is event "callUser" then callUser c parsedData b
  else if str_is event "answerCall" then answerCall c parsedData b
  else if str_is event "iceCandidate" then iceCandidate c parsedData b
  else if str_is event "disconnectCall" then disconnectCall c parsedData b
  else ws_send c (error_envelope "Unknown event type") b.

(** *** The [message] listener *)

Section Router.

Variable verifyToken : json -> VerifyResult.

(** Lines 110 to 118: an entry of the same identity on the same path is
    closed and removed. *)
Definition evict_existing (c : conn) (id role : string) (b : Broker) : Broker :=
  match onlineUsers b !! id, sockets b !! c with
  | Some (old, p), Some ws =>
      if String.eqb p (path ws) then
        let b1 := ws_close old b in
        let b2 := set_onlineUsers (delete id (onlineUsers b1)) b1 in
        if String.eqb role UserRole_Client
        then set_onlineCouriers (delete id (onlineCouriers b2)) b2
        else b2
      else b
  | _, _ => b
  end.

(** Lines 120 to 127: the identity is bound to the socket and the socket is
    entered in the registry and, for a client, in the role index. *)
Definition register (c : conn) (id role email : string) (b : Broker) : Broker :=
  let b1 := update_socket c (bind_identity id role email) b in
  let p := match sockets b1 !! c with Some ws => path ws | None => "" end in
  let b2 := set_onlineUsers (<[id := (c, p)]> (onlineUsers b1)) b1 in
  if String.eqb role UserRole_Client
  then set_onlineCouriers (<[id := c]> (onlineCouriers b2)) b2
  else b2.

Definition authenticated (id role : string) : json :=
  JObj [("event", JStr "authenticated");
        ("data", JObj [("userId", JStr id); ("role", JStr role);
                       ("success", JBool true)])].

Definition authenticate (c : conn) (parsedData : json) (b : Broker) : Broker :=
  let token := prop parsedData "token" in
  if negb (truthy token) then
    ws_send c (error_envelope "Token is required for authentication") b
  else
    match verifyToken token with
    | Verified id role email =>
        ws_send c (authenticated id role)
          (register c id role email (evict_existing c id role b))
    | VerifyNull | VerifyThrows =>
        ws_send c (error_envelope "Invalid token") b
    end.

Definition on_message (c : conn) (data : Parsed) (b : Broker) : Broker :=
  match sockets b !! c with
  | None => b
  | Some ws =>
      match data ≫= (fun parsedData =>
              (fun event => (parsedData, event)) <$> get_prop parsedData "event") with
      | None => ws_send c (error_envelope "Invalid message format") b
      | Some (parsedData, event) =>
          let b := console_log "Received event:"
                     [event; JStr "on path:"; JStr (path ws)] b in
          if negb (has_identity (userId ws)) && negb (str_is event "authenticate")
          then ws_send c (error_envelope "Please authenticate first") b
          else if str_is event "authenticate" then authenticate c parsedData b
          else if String.eqb (path ws) "/driver-location"
          then console_log "Handling driver location update" [] b
          else handleParcelChatMessage c parsedData b
      end
  end.

(** *** The broker as a transition system *)

Inductive Event :=
| Connection (url : string)
| Message (c : conn) (data : Parsed)
| Pong (c : conn)
| Interval
| Closed (c : conn).

(** Listeners of a socket fire until its [close] event has fired. *)
Definition listening (b : Broker) (c : conn) : bool :=
  match sockets b !! c with
  | Some ws => match readyState ws with CLOSED => false | _ => true end
  | None => false
  end.

(** The transport closes the socket and takes it out of [wss.clients]
    before it raises [close]. *)
Definition transport_closed (c : conn) (b : Broker) : Broker :=
  set_clients (List.filter (fun c' => negb (Nat.eqb c' c)) (clients b))
    (update_socket c (with_readyState CLOSED) b).

Definition step (b : Broker) (ev : Event) : Broker :=
  match ev with
  | Connection url => on_connection url b
  | Message c data => if listening b c then on_message c data b else b
  | Pong c => if listening b c then heartbeat c b else b
  | Interval => interval b
  | Closed c => if listening b c then on_close c (transport_closed c b) else b
  end.

Definition run (b : Broker) (evs : list Event) : Broker := foldl step b evs.

(** The states the broker can be in. *)
Definition reachable (b : Broker) : Prop := exists evs, b = run init evs.

End Router.

End CallBroker.

(** ** The chat and location broker *)

Module ChatBroker.

Record ExtendedWebSocket := {
  userId : option string;
  readyState : ReadyState
}.

(** *** The store *)

(** Modelled from the spec: the rows of the store, with the fields the
    broker reads and writes; the schema is not part of the sources.  A
    [Room] is the "durable pairing record between two identities used to
    group chat messages". *)
Record Room := {
  room_id : nat;
  room_senderId : string;
  room_receiverId : string
}.

Record Chat := {
  chat_id : nat;
  chat_senderId : string;
  chat_receiverId : string;
  chat_roomId : nat;
  chat_message : string;
  chat_images : list string;
  chat_isRead : bool;
  chat_createdAt : nat
}.

Record User := {
  user_id : string;
  user_profileImage : json;
  user_firstName : json;
  user_lastName : json;
  user_lat : json;
  user_lng : json
}.

(** Modelled from the spec: the durable store behind [prisma], which is not
    part of the sources ("an opaque durable store with create/find/update
    operations").  Rows are kept in the order of their creation, which is
    the ascending order of [createdAt]. *)
Record Store := {
  rooms : list Room;
  chats : list Chat;
  users : list User
}.

(** The calls the broker makes on the store. *)
Inductive StoreCall :=
| RoomFindFirst | RoomCreate | RoomFindMany
| ChatCreate | ChatFindMany | ChatUpdateMany
| UserUpdate | UserFindMany.

(** Which calls of the current event the store fails ("fails
    (StoreUnavailable)"): a failed call raises in the broker. *)
Definition Faults := StoreCall -> bool.

Definition healthy : Faults := fun _ => false.

Definition as_string (v : json) : option string :=
  match v with
  | JStr s => Some s
  | _ => None
  end.

Fixpoint as_strings (vs : list json) : option (list string) :=
  match vs with
  | [] => Some []
  | v :: rest =>
      match as_string v, as_strings rest with
      | Some s, Some ss => Some (s :: ss)
      | _, _ => None
      end
  end.

Definition room_joins (a r : string) (room : Room) : bool :=
  (String.eqb (room_senderId room) a && String.eqb (room_receiverId room) r)
  || (String.eqb (room_senderId room) r && String.eqb (room_receiverId room) a).

(** Modelled from the spec: [store.findRoom(userA, userB) → Room | absent],
    for the pair in either order.  [None] is a failed call, as is a
    receiver that is not a string. *)
Definition room_findFirst (f : Faults) (s : Store) (a : string) (receiverId : json)
  : option (option Room) :=
  if f RoomFindFirst then None
  else r ← as_string receiverId; Some (List.find (room_joins a r) (rooms s)).

(** Modelled from the spec: [store.createRoom(userA, userB) → Room]. *)
Definition room_create (f : Faults) (s : Store) (a : string) (receiverId : json)
  : option (Store * Room) :=
  if f RoomCreate then None
  else
    r ← as_string receiverId;
    let room := {| room_id := length (rooms s);
                   room_senderId := a; room_receiverId := r |} in
    Some ({| rooms := rooms s ++ [room]; chats := chats s; users := users s |},
          room).

(** [images || []], which the store takes when it is a list of strings. *)
Definition images_of (images : json) : option (list string) :=
  if truthy images
  then match images with JArr vs => as_strings vs | _ => None end
  else Some [].

(** Modelled from the spec: [store.createChat(room, sender, receiver,
    message, images) → Chat]. *)
Definition chat_create (f : Faults) (s : Store) (a : string)
    (receiverId : json) (roomId : nat) (message images : json)
  : option (Store * Chat) :=
  if f ChatCreate then None
  else
    r ← as_string receiverId;
    m ← as_string message;
    imgs ← images_of images;
    let chat := {| chat_id := length (chats s);
                   chat_senderId := a; chat_receiverId := r;
                   chat_roomId := roomId; chat_message := m;
                   chat_images := imgs; chat_isRead := false;
                   chat_createdAt := length (chats s) |} in
    Some ({| rooms := rooms s; chats := chats s ++ [chat]; users := users s |},
          chat).

(** Modelled from the spec: [store.listChats(room, orderByCreatedAscending)]. *)
Definition chat_findMany_room (f : Faults) (s : Store) (roomId : nat)
  : option (list Chat) :=
  if f ChatFindMany then None
  else Some (List.filter (fun ch => Nat.eqb (chat_roomId ch) roomId) (chats s)).

Definition mark_read (ch : Chat) : Chat :=
  {| chat_id := chat_id ch; chat_senderId := chat_senderId ch;
     chat_receiverId := chat_receiverId ch; chat_roomId := chat_roomId ch;
     chat_message := chat_message ch; chat_images := chat_images ch;
     chat_isRead := true; chat_createdAt := chat_createdAt ch |}.

(** Modelled from the spec: [store.markRead(room, receiver)]. *)
Definition chat_updateMany_read (f : Faults) (s : Store) (roomId : nat)
    (receiver : string) : option Store :=
  if f ChatUpdateMany then None
  else Some {| rooms := rooms s;
               chats := List.map (fun ch =>
                          if Nat.eqb (chat_roomId ch) roomId
                             && String.eqb (chat_receiverId ch) receiver
                          then mark_read ch else ch) (chats s);
               users := users s |}.

(** Modelled from the spec: the unread chats of a room that are addressed
    to [receiver] ("return unread count + messages addressed to caller"). *)
Definition chat_findMany_unread (f : Faults) (s : Store) (roomId : nat)
    (receiver : string) : option (list Chat) :=
  if f ChatFindMany then None
  else Some (List.filter (fun ch =>
               Nat.eqb (chat_roomId ch) roomId
               && negb (chat_isRead ch)
               && String.eqb (chat_receiverId ch) receiver) (chats s)).

(** Modelled from the spec: [store.listRoomsFor(identityId) → list with
    last chat]. *)
Definition room_findMany_of (f : Faults) (s : Store) (uid : string)
  : option (list (Room * option Chat)) :=
  if f RoomFindMany then None
  else Some (List.map (fun room =>
               (room,
                last (List.filter
                        (fun ch => Nat.eqb (chat_roomId ch) (room_id room))
                        (chats s))))
             (List.filter (fun room =>
                String.eqb (room_senderId room) uid
                || String.eqb (room_receiverId room) uid) (rooms s))).

(** Modelled from the spec: [store.userSummaries(ids) → list]. *)
Definition user_findMany_in (f : Faults) (s : Store) (ids : list string)
  : option (list User) :=
  if f UserFindMany then None
  else Some (List.filter (fun u =>
               existsb (String.eqb (user_id u)) ids) (users s)).

Definition relocate (lat lng : json) (u : User) : User :=
  {| user_id := user_id u; user_profileImage := user_profileImage u;
     user_firstName := user_firstName u; user_lastName := user_lastName u;
     user_lat := lat; user_lng := lng |}.

(** Modelled from the spec: [store.updateUserLocation(identityId, lat, lng)
    → fails(StoreUnavailable)]; updating a row that does not exist fails. *)
Definition user_update_location (f : Faults) (s : Store) (uid : string)
    (lat lng : json) : option Store :=
  if f UserUpdate then None
  else if existsb (fun u => String.eqb (user_id u) uid) (users s)
  then Some {| rooms := rooms s; chats := chats s;
               users := List.map (fun u =>
                          if String.eqb (user_id u) uid
                          then relocate lat lng u else u) (users s) |}
  else None.

Definition chat_json (ch : Chat) : json :=
  JObj [("id", JNum (Z.of_nat (chat_id ch)));
        ("senderId", JStr (chat_senderId ch));
        ("receiverId", JStr (chat_receiverId ch));
        ("roomId", JNum (Z.of_nat (chat_roomId ch)));
        ("message", JStr (chat_message ch));
        ("images", JArr (List.map JStr (chat_images ch)));
        ("isRead", JBool (chat_isRead ch));
        ("createdAt", JNum (Z.of_nat (chat_createdAt ch)))].

Definition user_summary (u : User) : json :=
  JObj [("profileImage", user_profileImage u);
        ("firstName", user_firstName u);
        ("lastName", user_lastName u);
        ("id", JStr (user_id u))].

(** *** The state of the broker *)

(** [SameValueZero], the equality of [Map] keys, on parsed values: two
    strings, numbers or booleans are the same key when they are equal; an
    array or an object parsed from one message is never the object parsed
    from another. *)
Definition same_key (k1 k2 : json) : bool :=
  match k1, k2 with
  | JStr a, JStr b => String.eqb a b
  | JNum a, JNum b => (a =? b)%Z
  | JBool a, JBool b => Bool.eqb a b
  | JNull, JNull => true
  | JUndefined, JUndefined => true
  | _, _ => false
  end.

Record Broker := {
  sockets : gmap conn ExtendedWebSocket;
  clients : list conn;                      (* wss.clients, in insertion order *)
  onlineUsers : gset string;
  userSockets : gmap string conn;
  userLocations : gmap string (json * json);
  locationSubscribers : list (json * list conn);   (* Map<key, Set<socket>> *)
  store : Store;
  effects : list Effect;
  console : list LogLine;
  nextConn : conn
}.

Definition init : Broker := {|
  sockets := ∅; clients := []; onlineUsers := ∅; userSockets := ∅;
  userLocations := ∅; locationSubscribers := [];
  store := {| rooms := []; chats := []; users := [] |};
  effects := []; console := []; nextConn := 0
|}.

Definition set_sockets (v : gmap conn ExtendedWebSocket) (b : Broker) : Broker :=
  {| sockets := v; clients := clients b; onlineUsers := onlineUsers b;
     userSockets := userSockets b; userLocations := userLocations b;
     locationSubscribers := locationSubscribers b; store := store b;
     effects := effects b; console := console b; nextConn := nextConn b |}.

Definition set_clients (v : list conn) (b : Broker) : Broker :=
  {| sockets := sockets b; clients := v; onlineUsers := onlineUsers b;
     userSockets := userSockets b; userLocations := userLocations b;
     locationSubscribers := locationSubscribers b; store := store b;
     effects := effects b; console := console b; nextConn := nextConn b |}.

Definition set_onlineUsers (v : gset string) (b : Broker) : Broker :=
  {| sockets := sockets b; clients := clients b; onlineUsers := v;
     userSockets := userSockets b; userLocations := userLocations b;
     locationSubscribers := locationSubscribers b; store := store b;
     effects := effects b; console := console b; nextConn := nextConn b |}.

Definition set_userSockets (v : gmap string conn) (b : Broker) : Broker :=
  {| sockets := sockets b; clients := clients b; onlineUsers := onlineUsers b;
     userSockets := v; userLocations := userLocations b;
     locationSubscribers := locationSubscribers b; store := store b;
     effects := effects b; console := console b; nextConn := nextConn b |}.

Definition set_userLocations (v : gmap string (json * json)) (b : Broker) : Broker :=
  {| sockets := sockets b; clients := clients b; onlineUsers := onlineUsers b;
     userSockets := userSockets b; userLocations := v;
     locationSubscribers := locationSubscribers b; store := store b;
     effects := effects b; console := console b; nextConn := nextConn b |}.

Definition set_locationSubscribers (v : list (json * list conn)) (b : Broker)
  : Broker :=
  {| sockets := sockets b; clients := clients b; onlineUsers := onlineUsers b;
     userSockets := userSockets b; userLocations := userLocations b;
     locationSubscribers := v; store := store b;
     effects := effects b; console := console b; nextConn := nextConn b |}.

Definition set_store (v : Store) (b : Broker) : Broker :=
  {| sockets := sockets b; clients := clients b; onlineUsers := onlineUsers b;
     userSockets := userSockets b; userLocations := userLocations b;
     locationSubscribers := locationSubscribers b; store := v;
     effects := effects b; console := console b; nextConn := nextConn b |}.

Definition set_effects (v : list Effect) (b : Broker) : Broker :=
  {| sockets := sockets b; clients := clients b; onlineUsers := onlineUsers b;
     userSockets := userSockets b; userLocations := userLocations b;
     locationSubscribers := locationSubscribers b; store := store b;
     effects := v; console := console b; nextConn := nextConn b |}.

Definition set_console (v : list LogLine) (b : Broker) : Broker :=
  {| sockets := sockets b; clients := clients b; onlineUsers := onlineUsers b;
     userSockets := userSockets b; userLocations := userLocations b;
     locationSubscribers := locationSubscribers b; store := store b;
     effects := effects b; console := v; nextConn := nextConn b |}.

Definition set_nextConn (v : conn) (b : Broker) : Broker :=
  {| sockets := sockets b; clients := clients b; onlineUsers := onlineUsers b;
     userSockets := userSockets b; userLocations := userLocations b;
     locationSubscribers := locationSubscribers b; store := store b;
     effects := effects b; console := console b; nextConn := v |}.

(** *** Calls on the transport and the console *)

Definition with_userId (id : string) (ws : ExtendedWebSocket) : ExtendedWebSocket :=
  {| userId := Some id; readyState := readyState ws |}.

Definition with_readyState (v : ReadyState) (ws : ExtendedWebSocket)
  : ExtendedWebSocket :=
  {| userId := userId ws; readyState := v |}.

Definition start_closing (ws : ExtendedWebSocket) : ExtendedWebSocket :=
  match readyState ws with
  | CLOSED => ws
  | _ => with_readyState CLOSING ws
  end.

Definition update_socket (c : conn) (f : ExtendedWebSocket -> ExtendedWebSocket)
    (b : Broker) : Broker :=
  set_sockets (alter f c (sockets b)) b.

Definition emit (e : Effect) (b : Broker) : Broker :=
  set_effects (effects b ++ [e]) b.

Definition ws_send (c : conn) (payload : json) : Broker -> Broker :=
  emit (Send c payload).

Definition ws_close (c : conn) (b : Broker) : Broker :=
  emit (Close c) (update_socket c start_closing b).

Definition console_log (text : string) (args : list json) (b : Broker) : Broker :=
  set_console (console b ++ [(text, args)]) b.

Definition is_open (b : Broker) (c : conn) : bool :=
  match sockets b !! c with
  | Some ws => is_OPEN (readyState ws)
  | None => false
  end.

Definition id_of_conn (b : Broker) (c : conn) : option string :=
  match sockets b !! c with
  | Some ws => userId ws
  | None => None
  end.

(** [broadcastToAll(wss, message)] *)
Definition broadcastToAll (message : json) (b : Broker) : Broker :=
  foldl (fun b client => if is_open b client then ws_send client message b else b)
    b (clients b).

Definition userStatus (id : json) (isOnline : bool) : json :=
  JObj [("event", JStr "userStatus");
        ("data", JObj [("userId", id); ("isOnline", JBool isOnline)])].

(** *** The subscription index *)

(** [set.add(ws)] on a set kept in insertion order. *)
Definition set_add (c : conn) (subscribers : list conn) : list conn :=
  if existsb (Nat.eqb c) subscribers then subscribers else subscribers ++ [c].

(** [set.delete(ws)] *)
Definition set_delete (c : conn) (subscribers : list conn) : list conn :=
  List.filter (fun c' => negb (Nat.eqb c' c)) subscribers.

(** [locationSubscribers.get(key)] *)
Fixpoint subscribers_of (key : json) (index : list (json * list conn))
  : option (list conn) :=
  match index with
  | [] => None
  | (k, subscribers) :: rest =>
      if same_key k key then Some subscribers else subscribers_of key rest
  end.

(** Lines 416 to 419: the set of the target is created when the index has
    none, and the socket is added to it. *)
Fixpoint subscribe (key : json) (c : conn) (index : list (json * list conn))
  : list (json * list conn) :=
  match index with
  | [] => [(key, [c])]
  | (k, subscribers) :: rest =>
      if same_key k key then (k, set_add c subscribers) :: rest
      else (k, subscribers) :: subscribe key c rest
  end.

(** Lines 611 to 613: the socket leaves the set of every target. *)
Definition unsubscribe_all (c : conn) (index : list (json * list conn))
  : list (json * list conn) :=
  List.map (fun entry => (fst entry, set_delete c (snd entry))) index.

(** *** The events of the [message] listener *)

(** How a case of the listener ends: it completes, or it raises and the
    [catch] of the listener takes over. *)
Inductive Outcome :=
| Done (b : Broker)
| Raised (b : Broker).

Definition message_envelope (event : string) (data : json) : json :=
  JObj [("event", JStr event); ("data", data)].

Definition locationUpdate_envelope (uid : string) (lat lng : json) : json :=
  JObj [("event", JStr "locationUpdate");
        ("data", JObj [("userId", JStr uid); ("lat", lat); ("lng", lng)])].

(** [userSockets.get(k)] for a key taken from a payload. *)
Definition userSockets_get (b : Broker) (k : json) : option conn :=
  match k with
  | JStr s => userSockets b !! s
  | _ => None
  end.

Section Router.

Variable verifyToken : json -> VerifyResult.

Definition authenticate (c : conn) (parsedData : json) (b : Broker) : Outcome :=
  let token := prop parsedData "token" in
  if negb (truthy token) then Done (ws_close c b)
  else
    match verifyToken token with
    | VerifyThrows => Raised b
    | VerifyNull => Done (ws_close c b)
    | Verified id _ _ =>
        let b1 := update_socket c (with_userId id) b in
        let b2 := set_onlineUsers ({[ id ]} ∪ onlineUsers b1) b1 in
        let b3 := set_userSockets (<[id := c]> (userSockets b2)) b2 in
        Done (broadcastToAll (userStatus (JStr id) true) b3)
    end.

Definition locationUpdate (f : Faults) (c : conn) (parsedData : json) (b : Broker)
  : Outcome :=
  let lat := prop parsedData "lat" in
  let lng := prop parsedData "lng" in
  match id_of_conn b c with
  | Some uid =>
      if negb (has_identity (Some uid)) || nullish lat || nullish lng then Done b
      else
        let b1 := set_userLocations (<[uid := (lat, lng)]> (userLocations b)) b in
        let b2 := match user_update_location f (store b1) uid lat lng with
                  | Some s => set_store s b1
                  | None => console_log "DB update error:" [] b1
                  end in
        match subscribers_of (JStr uid) (locationSubscribers b2) with
        | Some subscribers =>
            Done (foldl (fun b subscriberWs =>
                           if is_open b subscriberWs
                           then ws_send subscriberWs
                                  (locationUpdate_envelope uid lat lng) b
                           else b) b2 subscribers)
        | None => Done b2
        end
  | None => Done b
  end.

Definition subscribeToLocation (c : conn) (parsedData : json) (b : Broker)
  : Outcome :=
  let targetUserId := prop parsedData "targetUserId" in
  if negb (has_identity (id_of_conn b c)) || negb (truthy targetUserId) then Done b
  else
    Done (console_log "subscribed to location of"
            [of_field (id_of_conn b c); targetUserId]
            (set_locationSubscribers
               (subscribe targetUserId c (locationSubscribers b)) b)).

Definition message (f : Faults) (c : conn) (parsedData : json) (b : Broker)
  : Outcome :=
  let receiverId := prop parsedData "receiverId" in
  let message := prop parsedData "message" in
  let images := prop parsedData "images" in
  match id_of_conn b c with
  | Some uid =>
      if negb (has_identity (Some uid)) || negb (truthy receiverId)
         || negb (truthy message)
      then Done (console_log "Invalid message payload" [] b)
      else
        match room_findFirst f (store b) uid receiverId with
        | None => Raised b
        | Some found =>
            match (match found with
                   | Some room => Some (store b, room)
                   | None => room_create f (store b) uid receiverId
                   end) with
            | None => Raised b
            | Some (s1, room) =>
                match chat_create f s1 uid receiverId (room_id room)
                        message images with
                | None => Raised (set_store s1 b)
                | Some (s2, chat) =>
                    let b1 := set_store s2 b in
                    let envelope := message_envelope "message" (chat_json chat) in
                    let b2 := match userSockets_get b1 receiverId with
                              | Some receiverSocket =>
                                  if is_open b1 receiverSocket
                                  then ws_send receiverSocket envelope b1
                                  else b1
                              | None => b1
                              end in
                    Done (ws_send c envelope b2)
                end
            end
        end
  | None => Done (console_log "Invalid message payload" [] b)
  end.

Definition fetchChats (f : Faults) (c : conn) (parsedData : json) (b : Broker)
  : Outcome :=
  let receiverId := prop parsedData "receiverId" in
  match id_of_conn b c with
  | Some uid =>
      if negb (has_identity (Some uid)) || negb (truthy receiverId) then Done b
      else
        match room_findFirst f (store b) uid receiverId with
        | None => Raised b
        | Some None => Done (ws_send c (JObj [("event", JStr "noRoomFound")]) b)
        | Some (Some room) =>
            match chat_findMany_room f (store b) (room_id room) with
            | None => Raised b
            | Some found =>
                match chat_updateMany_read f (store b) (room_id room) uid with
                | None => Raised b
                | Some s1 =>
                    Done (ws_send c
                            (message_envelope "fetchChats"
                               (JArr (List.map chat_json found)))
                            (set_store s1 b))
                end
            end
        end
  | None => Done b
  end.

Definition unReadMessages (f : Faults) (c : conn) (parsedData : json) (b : Broker)
  : Outcome :=
  let receiverId := prop parsedData "receiverId" in
  match id_of_conn b c with
  | Some uid =>
      if negb (has_identity (Some uid)) || negb (truthy receiverId) then Done b
      else
        match room_findFirst f (store b) uid receiverId with
        | None => Raised b
        | Some None =>
            Done (ws_send c (message_envelope "noUnreadMessages" (JArr [])) b)
        | Some (Some room) =>
            match chat_findMany_unread f (store b) (room_id room) uid with
            | None => Raised b
            | Some unread =>
                Done (ws_send c
                        (message_envelope "unReadMessages"
                           (JObj [("messages", JArr (List.map chat_json unread));
                                  ("count", JNum (Z.of_nat (length unread)))]))
                        b)
            end
        end
  | None => Done b
  end.

Definition other_user (uid : string) (room : Room) : string :=
  if String.eqb (room_senderId room) uid
  then room_receiverId room else room_senderId room.

Definition messageList (f : Faults) (c : conn) (b : Broker) : Outcome :=
  match id_of_conn b c with
  | Some uid =>
      if negb (has_identity (Some uid)) then Done b
      else
        let failed :=
          ws_send c (error_envelope "Failed to fetch message list")
            (console_log "Error fetching message list:" [] b) in
        match room_findMany_of f (store b) uid with
        | None => Done failed
        | Some found =>
            let userIds := List.map (fun r => other_user uid (fst r)) found in
            match user_findMany_in f (store b) userIds with
            | None => Done failed
            | Some userInfos =>
                let userWithLastMessages :=
                  List.map (fun r =>
                    let otherUserId := other_user uid (fst r) in
                    let userInfo :=
                      List.find (fun u => String.eqb (user_id u) otherUserId)
                        userInfos in
                    JObj [("user", match userInfo with
                                   | Some u => user_summary u
                                   | None => JNull
                                   end);
                          ("lastMessage", match snd r with
                                          | Some ch => chat_json ch
                                          | None => JNull
                                          end)]) found in
                Done (ws_send c
                        (message_envelope "messageList"
                           (JArr userWithLastMessages)) b)
            end
        end
  | None => Done b
  end.

(** The [switch] of the listener. *)
Definition dispatch (f : Faults) (c : conn) (parsedData event : json) (b : Broker)
  : Outcome :=
  if str_is event "authenticate" then authenticate c parsedData b
  else if str_is event "locationUpdate" then locationUpdate f c parsedData b
  else if str_is event "subscribeToLocation" then subscribeToLocation c parsedData b
  else if str_is event "message" then message f c parsedData b
  else if str_is event "fetchChats" then fetchChats f c parsedData b
  else if str_is event "unReadMessages" then unReadMessages f c parsedData b
  else if str_is event "messageList" then messageList f c b
  else Done (console_log "Unknown event:" [event] b).

Definition on_message (f : Faults) (c : conn) (data : Parsed) (b : Broker)
  : Broker :=
  let outcome :=
    match data ≫= (fun parsedData =>
            (fun event => (parsedData, event)) <$> get_prop parsedData "event") with
    | None => Raised b
    | Some (parsedData, event) => dispatch f c parsedData event b
    end in
  match outcome with
  | Done b' => b'
  | Raised b' => console_log "WebSocket message handling error:" [] b'
  end.

(** The [close] listener. *)
Definition on_close (c : conn) (b : Broker) : Broker :=
  let b' :=
    match id_of_conn b c with
    | Some uid =>
        if has_identity (Some uid) then
          let b1 := set_onlineUsers (onlineUsers b ∖ {[ uid ]}) b in
          let b2 := set_userSockets (delete uid (userSockets b1)) b1 in
          let b3 := broadcastToAll (userStatus (JStr uid) false) b2 in
          set_locationSubscribers
            (unsubscribe_all c (locationSubscribers b3)) b3
        else b
    | None => b
    end in
  console_log "User disconnected" [] b'.

(** The [connection] listener. *)
Definition on_connection (b : Broker) : Broker :=
  let c := nextConn b in
  console_log "A user connected" []
    (set_nextConn (S c)
       (set_clients (clients b ++ [c])
          (set_sockets (<[c := {| userId := None; readyState := OPEN |}]>
                          (sockets b)) b))).

(** *** The broker as a transition system *)

Inductive Event :=
| Connection
| Message (c : conn) (data : Parsed) (f : Faults)
| Closed (c : conn).

Definition listening (b : Broker) (c : conn) : bool :=
  match sockets b !! c with
  | Some ws => match readyState ws with CLOSED => false | _ => true end
  | None => false
  end.

Definition transport_closed (c : conn) (b : Broker) : Broker :=
  set_clients (List.filter (fun c' => negb (Nat.eqb c' c)) (clients b))
    (update_socket c (with_readyState CLOSED) b).

Definition step (b : Broker) (ev : Event) : Broker :=
  match ev with
  | Connection => on_connection b
  | Message c data f => if listening b c then on_message f c data b else b
  | Closed c => if listening b c then on_close c (transport_closed c b) else b
  end.

Definition run (b : Broker) (evs : list Event) : Broker := foldl step b evs.

(** The broker starts with no connection, over a store of any content. *)
Definition boot (s : Store) : Broker := set_store s init.

(** The states the broker can be in. *)
Definition reachable (b : Broker) : Prop :=
  exists s evs, b = run (boot s) evs.

End Router.

End ChatBroker.

(** ** Sample credentials, requests and runs *)

Module Samples.

(** A verifier for the examples: a credential is the identity it stands
    for, ["expired"] fails verification, and ["host-1"] is the one host. *)
Definition sample_role (id : string) : string :=
  if String.eqb id "host-1" then UserRole_Host else UserRole_Client.

Definition sample_verify (token : json) : VerifyResult :=
  match token with
  | JStr s =>
      if String.eqb s "expired" then VerifyThrows
      else Verified s (sample_role s) s
  | _ => VerifyThrows
  end.

Definition authenticate_request (token : string) : json :=
  JObj [("event", JStr "authenticate"); ("token", JStr token)].

Definition callUser_request (toUserId callType : string) : json :=
  JObj [("event", JStr "callUser"); ("toUserId", JStr toUserId);
        ("offer", JObj [("sdp", JStr "v=0")]); ("callType", JStr callType)].

Definition subscribe_request (targetUserId : string) : json :=
  JObj [("event", JStr "subscribeToLocation");
        ("targetUserId", JStr targetUserId)].

Definition location_report (lat lng : Z) : json :=
  JObj [("event", JStr "locationUpdate"); ("lat", JNum lat); ("lng", JNum lng)].

Definition message_request (receiverId text : string) : json :=
  JObj [("event", JStr "message"); ("receiverId", JStr receiverId);
        ("message", JStr text)].

(** A host on [/chat] and a client on [/driver-location], both
    authenticated. *)
Definition host_and_driver : CallBroker.Broker :=
  CallBroker.run sample_verify CallBroker.init
    [CallBroker.Connection "/chat";
     CallBroker.Message 0 (Some (authenticate_request "host-1"));
     CallBroker.Connection "/driver-location";
     CallBroker.Message 1 (Some (authenticate_request "client-1"))].

(** A host and a client, both on [/chat] and authenticated. *)
Definition host_and_client : CallBroker.Broker :=
  CallBroker.run sample_verify CallBroker.init
    [CallBroker.Connection "/chat";
     CallBroker.Message 0 (Some (authenticate_request "host-1"));
     CallBroker.Connection "/chat";
     CallBroker.Message 1 (Some (authenticate_request "client-1"))].

(** A client that was probed and did not answer, and a connection that
    opened after the probe. *)
Definition silent_and_fresh : CallBroker.Broker :=
  CallBroker.run sample_verify CallBroker.init
    [CallBroker.Connection "/chat";
     CallBroker.Message 0 (Some (authenticate_request "client-1"));
     CallBroker.Interval;
     CallBroker.Connection "/chat"].

(** A client on [/chat], and a second connection on the same path that has
    not authenticated yet. *)
Definition client_and_newcomer : CallBroker.Broker :=
  CallBroker.run sample_verify CallBroker.init
    [CallBroker.Connection "/chat";
     CallBroker.Message 0 (Some (authenticate_request "client-1"));
     CallBroker.Connection "/chat"].

(** A verifier for an identity whose role changed between two
    credentials: ["u1-host"] stands for the identity ["u1"] as a host, any
    other credential for the identity of its name as a client. *)
Definition promoting_verify (token : json) : VerifyResult :=
  match token with
  | JStr s =>
      if String.eqb s "u1-host" then Verified "u1" UserRole_Host "u1"
      else Verified s UserRole_Client s
  | _ => VerifyThrows
  end.

(** The identity ["u1"] registered as a client on [/chat], and a second
    connection on the same path that has not authenticated yet. *)
Definition client_before_promotion : CallBroker.Broker :=
  CallBroker.run promoting_verify CallBroker.init
    [CallBroker.Connection "/chat";
     CallBroker.Message 0 (Some (authenticate_request "u1"));
     CallBroker.Connection "/chat"].

(** Alice and Bob on the chat broker, after a first message of Alice to
    Bob. *)
Definition alice_wrote_bob : ChatBroker.Broker :=
  ChatBroker.run sample_verify ChatBroker.init
    [ChatBroker.Connection;
     ChatBroker.Message 0 (Some (authenticate_request "alice")) ChatBroker.healthy;
     ChatBroker.Connection;
     ChatBroker.Message 1 (Some (authenticate_request "bob")) ChatBroker.healthy;
     ChatBroker.Message 0 (Some (message_request "bob" "hi")) ChatBroker.healthy].

End Samples.

(** ** Predicates of the statements *)

Module CallInvariants.
Import CallBroker.


(** [frame b b']: the set of clients, the allocation of handles and the
    sockets whose listeners still fire are the same in [b'] as in [b]. *)
Definition frame (b b' : Broker) : Prop :=
  clients b' = clients b
  /\ nextConn b' = nextConn b
  /\ (forall c, is_Some (sockets b' !! c) <-> is_Some (sockets b !! c))
  /\ (forall c, listening b' c = listening b c).

Definition keeps_closed (f : ExtendedWebSocket -> ExtendedWebSocket) : Prop :=
  forall ws, readyState (f ws) = CLOSED <-> readyState ws = CLOSED.

(** [wss.clients] is a set, it holds every socket whose listeners still
    fire, and handles are allocated in increasing order. *)
Record wf (b : Broker) : Prop := {
  wf_nodup : List.NoDup (clients b);
  wf_listening : forall c, listening b c = true -> In c (clients b);
  wf_clients : forall c, In c (clients b) -> c < nextConn b;
  wf_sockets : forall c, is_Some (sockets b !! c) -> c < nextConn b
}.

(** The role index only holds identities whose role is [Client]. *)
Definition roles_sound (role_of : string -> string) (b : Broker) : Prop :=
  forall u c, onlineCouriers b !! u = Some c -> role_of u = UserRole_Client.

End CallInvariants.

Module ChatInvariants.
Import ChatBroker.

(** One turn of the loops of [broadcastToAll] and of the location fan-out. *)
Definition send_if_open (message : json) (b : Broker) (c : conn) : Broker :=
  if is_open b c then ws_send c message b else b.

(** The receiver is online with an open socket. *)
Definition receiver_open (b : Broker) (receiver : string) (socket : conn) : Prop :=
  userSockets b !! receiver = Some socket
  /\ exists ws, sockets b !! socket = Some ws /\ readyState ws = OPEN.

(** The state a case of the listener ends in. *)
Definition state_of (o : Outcome) : Broker :=
  match o with
  | Done b => b
  | Raised b => b
  end.

(** [frame b b']: from [b] to [b'] the set of clients and the sockets whose
    listeners fire are the same, and the subscription index is the same or
    has one more subscription. *)
Record frame (b b' : Broker) : Prop := {
  frame_clients : clients b' = clients b;
  frame_listening : forall c, listening b' c = listening b c;
  frame_index :
    locationSubscribers b' = locationSubscribers b
    \/ exists k c,
         locationSubscribers b' = subscribe k c (locationSubscribers b)
}.

(** [wss.clients] holds every socket whose listeners still fire, and the
    subscribers of a target are a set. *)
Record wf (b : Broker) : Prop := {
  wf_listening : forall c, listening b c = true -> In c (clients b);
  wf_index : forall k l, In (k, l) (locationSubscribers b) -> List.NoDup l
}.

End ChatInvariants.

(** ** What the events of the call-signalling broker keep *)

Module CallShapes.
Import CallBroker.


(** Every entry of the registry names a socket of the server and records
    the path of that socket, and every entry of the role index names a
    socket of the server. *)
Definition registry_sound (b : Broker) : Prop :=
  (forall id c p, onlineUsers b !! id = Some (c, p) ->
     exists ws, sockets b !! c = Some ws /\ path ws = p)
  /\ (forall id c, onlineCouriers b !! id = Some c -> is_Some (sockets b !! c)).

Definition keeps_path (f : ExtendedWebSocket -> ExtendedWebSocket) : Prop :=
  forall ws, path (f ws) = path ws.

(** An event that binds no identity to the connection [c] and binds the
    identity [owner] to no connection: it is not a successful
    [authenticate] on [c], nor one as [owner]. *)
Definition binds_elsewhere (verifyToken : json -> VerifyResult) (c : conn)
    (owner : option string) (ev : Event) : Prop :=
  forall c' parsedData id role email,
    ev = Message c' (Some parsedData) ->
    get_prop parsedData "event" = Some (JStr "authenticate") ->
    truthy (prop parsedData "token") = true ->
    verifyToken (prop parsedData "token") = Verified id role email ->
    c' <> c /\ owner <> Some id.

(** The socket [c] carries the identity and the role of [ws], and the
    registries hold nothing that the cleanup of [c] would remove. *)
Definition cleaned_up (c : conn) (ws : ExtendedWebSocket) (b : Broker) : Prop :=
  (exists ws', sockets b !! c = Some ws'
               /\ userId ws' = userId ws /\ userRole ws' = userRole ws)
  /\ (forall uid, userId ws = Some uid -> uid <> "" ->
        onlineUsers b !! uid = None
        /\ (role_is (userRole ws) UserRole_Client = true ->
            onlineCouriers b !! uid = None)).

Definition keeps_owner (f : ExtendedWebSocket -> ExtendedWebSocket) : Prop :=
  forall ws, userId (f ws) = userId ws /\ userRole (f ws) = userRole ws.

End CallShapes.

(** ** What the events of the chat and location broker keep *)

Module ChatShapes.
Import ChatBroker.

(** The chats that [fetchChats] marks as read. *)
Definition read_by (roomId : nat) (reader : string) (ch : Chat) : Chat :=
  if Nat.eqb (chat_roomId ch) roomId && String.eqb (chat_receiverId ch) reader
  then mark_read ch else ch.

(** The state is as before but for at most one envelope to [c]. *)
Definition only_answers (c : conn) (b b' : Broker) : Prop :=
  store b' = store b
  /\ sockets b' = sockets b /\ clients b' = clients b
  /\ onlineUsers b' = onlineUsers b /\ userSockets b' = userSockets b
  /\ userLocations b' = userLocations b
  /\ locationSubscribers b' = locationSubscribers b
  /\ exists es,
       effects b' = effects b ++ es
       /\ length es <= 1
       /\ forall e, In e es -> exists payload, e = Send c payload.

(** Handles are allocated in increasing order, and the subscription index
    holds only connections whose listeners still fire and that carry an
    identity. *)
Record index_sound (b : Broker) : Prop := {
  sockets_bounded : forall c, is_Some (sockets b !! c) -> c < nextConn b;
  subscribers_live :
    forall k l c, In (k, l) (locationSubscribers b) -> In c l ->
      listening b c = true /\ has_identity (id_of_conn b c) = true
}.

(** An update of a socket that neither closes nor reopens it and does not
    take its identity away. *)
Definition keeps_identity (g : ExtendedWebSocket -> ExtendedWebSocket) : Prop :=
  forall ws,
    (readyState (g ws) = CLOSED <-> readyState ws = CLOSED)
    /\ (has_identity (userId ws) = true -> has_identity (userId (g ws)) = true).

(** [shape c b b']: what an event of connection [c] changes from [b] to
    [b'] in the socket table and in the subscription index. *)
Record shape (c : conn) (b b' : Broker) : Prop := {
  shape_next : nextConn b' = nextConn b;
  shape_sockets :
    sockets b' = sockets b
    \/ exists g, keeps_identity g /\ sockets b' = alter g c (sockets b);
  shape_index :
    locationSubscribers b' = locationSubscribers b
    \/ exists k, has_identity (id_of_conn b c) = true
                 /\ locationSubscribers b'
                    = subscribe k c (locationSubscribers b)
}.

End ChatShapes.

(** * Properties of the call-signalling broker *)

Module CallFacts.
Import CallBroker CallInvariants.

Lemma str_is_true v lit : str_is v lit = true <-> v = JStr lit.
Proof.
  destruct v; simpl; try (split; [discriminate | intros [=]]).
  rewrite String.eqb_eq. split; [congruence | intros [=]; done].
Qed.

Lemma role_is_true o role : role_is o role = true <-> o = Some role.
Proof.
  destruct o as [r|]; simpl; [| split; discriminate].
  rewrite String.eqb_eq. split; [congruence | intros [=]; done].
Qed.

Lemma has_identity_true o :
  has_identity o = true <-> exists uid, o = Some uid /\ uid <> "".
Proof.
  destruct o as [s|]; simpl.
  - unfold has_identity; simpl. rewrite negb_true_iff, String.eqb_neq.
    split; [eauto | intros (? & [= <-] & ?); done].
  - split; [discriminate | intros (? & [=] & _)].
Qed.





(** The listener, once the message has parsed and its tag has been read. *)
Lemma on_message_parsed verifyToken b c ws parsedData event :
  sockets b !! c = Some ws ->
  get_prop parsedData "event" = Some event ->
  on_message verifyToken c (Some parsedData) b =
  let b0 := console_log "Received event:"
              [event; JStr "on path:"; JStr (path ws)] b in
  if negb (has_identity (userId ws)) && negb (str_is event "authenticate")
  then ws_send c (error_envelope "Please authenticate first") b0
  else if str_is event "authenticate" then authenticate verifyToken c parsedData b0
  else if String.eqb (path ws) "/driver-location"
  then console_log "Handling driver location update" [] b0
  else handleParcelChatMessage c parsedData b0.
Proof.
  intros Hws Hev. unfold on_message. rewrite Hws. simpl. rewrite Hev. reflexivity.
Qed.

Lemma prop_of_get v k x : get_prop v k = Some x -> prop v k = x.
Proof. unfold prop. by intros ->. Qed.

(** The gate of the listener: without an identity, an envelope other than
    [authenticate] is answered with the error and changes nothing else. *)
Lemma gate_rejects verifyToken b c ws parsedData event :
  sockets b !! c = Some ws ->
  has_identity (userId ws) = false ->
  get_prop parsedData "event" = Some event ->
  event <> JStr "authenticate" ->
  let b' := on_message verifyToken c (Some parsedData) b in
  effects b' = effects b ++ [Send c (error_envelope "Please authenticate first")]
  /\ sockets b' = sockets b /\ clients b' = clients b
  /\ onlineUsers b' = onlineUsers b /\ onlineCouriers b' = onlineCouriers b.
Proof.
  intros Hws Hid Hev Hne b'. subst b'.
  rewrite (on_message_parsed _ _ _ _ _ _ Hws Hev). simpl. rewrite Hid.
  destruct (str_is event "authenticate") eqn:E.
  - apply str_is_true in E. contradiction.
  - simpl. done.
Qed.

(** On the path [/driver-location] an authenticated connection gets no
    call signalling: the event is logged and nothing is sent. *)
Lemma driver_location_is_silent verifyToken b c ws parsedData event :
  sockets b !! c = Some ws ->
  has_identity (userId ws) = true ->
  path ws = "/driver-location" ->
  get_prop parsedData "event" = Some event ->
  event <> JStr "authenticate" ->
  effects (on_message verifyToken c (Some parsedData) b) = effects b.
Proof.
  intros Hws Hid Hpath Hev Hne.
  rewrite (on_message_parsed _ _ _ _ _ _ Hws Hev). simpl. rewrite Hid, Hpath.
  destruct (str_is event "authenticate") eqn:E.
  - apply str_is_true in E. contradiction.
  - reflexivity.
Qed.




(** ** What the handlers leave alone *)

Lemma frame_refl b : frame b b.
Proof. by repeat split. Qed.

Lemma frame_trans b1 b2 b3 : frame b1 b2 -> frame b2 b3 -> frame b1 b3.
Proof.
  intros (Hc & Hn & Hd & Hl) (Hc' & Hn' & Hd' & Hl').
  split; [congruence |]. split; [congruence |]. split.
  - intros c. by rewrite Hd', Hd.
  - intros c. by rewrite Hl', Hl.
Qed.

Lemma keeps_closed_isAlive v : keeps_closed (with_isAlive v).
Proof. by intros ws. Qed.

Lemma keeps_closed_bind id role email : keeps_closed (bind_identity id role email).
Proof. intros ws. unfold bind_identity. simpl. reflexivity. Qed.

Lemma keeps_closed_start_closing : keeps_closed start_closing.
Proof.
  intros ws. unfold start_closing.
  destruct (readyState ws) eqn:E; simpl; rewrite ?E; split; congruence.
Qed.

Lemma frame_update_socket b b1 c f :
  keeps_closed f -> frame b b1 -> frame b (update_socket c f b1).
Proof.
  intros Hf Hb. eapply frame_trans; [exact Hb |].
  repeat split; simpl; try apply lookup_alter_is_Some.
  intros c'. unfold listening. simpl.
  rewrite lookup_alter. case_decide as Hc; [subst c' | done].
  destruct (sockets b1 !! c) as [ws|]; simpl; [| done].
  specialize (Hf ws).
  destruct (readyState (f ws)) eqn:E1, (readyState ws) eqn:E2; try done;
    try (by destruct Hf as [Hf _]; specialize (Hf eq_refl));
    try (by destruct Hf as [_ Hf]; specialize (Hf eq_refl)).
Qed.

Lemma frame_emit b b1 e : frame b b1 -> frame b (emit e b1).
Proof. intros Hb. eapply frame_trans; [exact Hb | by repeat split]. Qed.

Lemma frame_ws_send b b1 c v : frame b b1 -> frame b (ws_send c v b1).
Proof. apply frame_emit. Qed.

Lemma frame_ws_ping b b1 c : frame b b1 -> frame b (ws_ping c b1).
Proof. apply frame_emit. Qed.

Lemma frame_console_log b b1 text args :
  frame b b1 -> frame b (console_log text args b1).
Proof. intros Hb. eapply frame_trans; [exact Hb | by repeat split]. Qed.

Lemma frame_set_onlineUsers b b1 v : frame b b1 -> frame b (set_onlineUsers v b1).
Proof. intros Hb. eapply frame_trans; [exact Hb | by repeat split]. Qed.

Lemma frame_set_onlineCouriers b b1 v :
  frame b b1 -> frame b (set_onlineCouriers v b1).
Proof. intros Hb. eapply frame_trans; [exact Hb | by repeat split]. Qed.

Lemma frame_ws_close b b1 c : frame b b1 -> frame b (ws_close c b1).
Proof.
  intros Hb. apply frame_emit, frame_update_socket;
    [apply keeps_closed_start_closing | done].
Qed.

Lemma frame_ws_terminate b b1 c : frame b b1 -> frame b (ws_terminate c b1).
Proof.
  intros Hb. apply frame_emit, frame_update_socket;
    [apply keeps_closed_start_closing | done].
Qed.

Lemma frame_heartbeat b b1 c : frame b b1 -> frame b (heartbeat c b1).
Proof. apply frame_update_socket, keeps_closed_isAlive. Qed.

Create HintDb frame.
#[local] Hint Resolve frame_refl frame_ws_send frame_ws_ping frame_console_log
  frame_set_onlineUsers frame_set_onlineCouriers frame_ws_close
  frame_ws_terminate frame_heartbeat frame_emit : frame.
#[local] Hint Resolve keeps_closed_isAlive keeps_closed_bind
  keeps_closed_start_closing : frame.
#[local] Hint Extern 2 (frame _ (update_socket _ _ _)) =>
  apply frame_update_socket : frame.

(** Case analysis on the tests of a handler, then the frame lemmas. *)
Ltac frame_cases :=
  cbv zeta;
  repeat match goal with
    | |- context [if ?x then _ else _] => destruct x
    | |- context [match ?x with _ => _ end] => destruct x
    end;
  eauto 10 with frame.

Lemma frame_on_close b b1 c : frame b b1 -> frame b (on_close c b1).
Proof. intros Hb. unfold on_close. frame_cases. Qed.
#[local] Hint Resolve frame_on_close : frame.

Lemma frame_check_alive b b1 c : frame b b1 -> frame b (check_alive b1 c).
Proof. intros Hb. unfold check_alive. frame_cases. Qed.
#[local] Hint Resolve frame_check_alive : frame.

Lemma frame_foldl_check_alive l b b1 :
  frame b b1 -> frame b (foldl check_alive b1 l).
Proof.
  revert b1. induction l as [|c l IH]; intros b1 Hb; simpl; [done |].
  apply IH. by apply frame_check_alive.
Qed.

Lemma frame_interval b : frame b (interval b).
Proof. apply frame_foldl_check_alive, frame_refl. Qed.

Lemma frame_relay b b1 toUserId payload ok failed :
  frame b b1 -> frame b (relay_to_open_peer toUserId payload ok failed b1).
Proof. intros Hb. unfold relay_to_open_peer. frame_cases. Qed.
#[local] Hint Resolve frame_relay : frame.

Lemma frame_handleParcelChatMessage b b1 c parsedData :
  frame b b1 -> frame b (handleParcelChatMessage c parsedData b1).
Proof.
  intros Hb.
  unfold handleParcelChatMessage, callUser, answerCall, iceCandidate,
    disconnectCall.
  frame_cases.
Qed.
#[local] Hint Resolve frame_handleParcelChatMessage : frame.

Lemma frame_evict_existing b b1 c id role :
  frame b b1 -> frame b (evict_existing c id role b1).
Proof. intros Hb. unfold evict_existing. frame_cases. Qed.
#[local] Hint Resolve frame_evict_existing : frame.

Lemma frame_register b b1 c id role email :
  frame b b1 -> frame b (register c id role email b1).
Proof. intros Hb. unfold register. frame_cases. Qed.
#[local] Hint Resolve frame_register : frame.

Lemma frame_authenticate verifyToken b b1 c parsedData :
  frame b b1 -> frame b (authenticate verifyToken c parsedData b1).
Proof.
  intros Hb. unfold authenticate.
  frame_cases.
Qed.
#[local] Hint Resolve frame_authenticate : frame.

Lemma frame_on_message verifyToken b c data :
  frame b (on_message verifyToken c data b).
Proof.
  unfold on_message.
  frame_cases.
Qed.

(** ** The representation invariant *)

Lemma wf_init : wf init.
Proof.
  split; simpl.
  - constructor.
  - intros c. unfold listening. simpl. by rewrite lookup_empty.
  - intros c [].
  - intros c [? H]. by rewrite lookup_empty in H.
Qed.

Lemma wf_frame b b' : wf b -> frame b b' -> wf b'.
Proof.
  intros [H1 H2 H3 H4] (Hc & Hn & Hd & Hl). split.
  - by rewrite Hc.
  - intros c. rewrite Hl, Hc. apply H2.
  - intros c. rewrite Hc, Hn. apply H3.
  - intros c. rewrite Hd, Hn. apply H4.
Qed.

Lemma wf_on_connection url b : wf b -> wf (on_connection url b).
Proof.
  intros [H1 H2 H3 H4]. unfold on_connection.
  eapply wf_frame; [| apply frame_ws_send, frame_console_log, frame_refl].
  split; simpl.
  - apply List.NoDup_app; [done | repeat constructor; by intros [] |].
    intros c Hc [<- | []]. apply H3 in Hc. lia.
  - intros c. unfold listening. simpl. rewrite in_app_iff.
    rewrite lookup_insert. case_decide as Hc.
    + intros _. right. by left.
    + intros H. left. by apply H2.
  - intros c [Hc | [<- | []]]%in_app_iff; [apply H3 in Hc |]; lia.
  - intros c. rewrite lookup_insert.
    case_decide as Hc; [lia |].
    intros Hs%H4. lia.
Qed.

Lemma wf_transport_closed c b : wf b -> wf (transport_closed c b).
Proof.
  intros [H1 H2 H3 H4]. unfold transport_closed. split; simpl.
  - by apply List.NoDup_filter.
  - intros c'. unfold listening. simpl. rewrite lookup_alter.
    rewrite filter_In. case_decide as Hc.
    + subst c'. by destruct (sockets b !! c).
    + intros H. split; [by apply H2 |].
      apply negb_true_iff, Nat.eqb_neq. congruence.
  - intros c' [Hc _]%filter_In. by apply H3.
  - intros c'. rewrite lookup_alter_is_Some. apply H4.
Qed.

Lemma wf_step verifyToken b ev : wf b -> wf (step verifyToken b ev).
Proof.
  intros Hwf. destruct ev as [url | c data | c | | c]; simpl.
  - by apply wf_on_connection.
  - destruct (listening b c); [| done].
    eapply wf_frame; [exact Hwf | apply frame_on_message].
  - destruct (listening b c); [| done].
    eapply wf_frame; [exact Hwf | apply frame_heartbeat, frame_refl].
  - eapply wf_frame; [exact Hwf | apply frame_interval].
  - destruct (listening b c); [| done].
    eapply wf_frame; [apply wf_transport_closed, Hwf |].
    apply frame_on_close, frame_refl.
Qed.

Lemma wf_run verifyToken evs b : wf b -> wf (run verifyToken b evs).
Proof.
  revert b. induction evs as [|ev evs IH]; intros b Hwf; simpl; [done |].
  apply IH. by apply wf_step.
Qed.

Lemma reachable_wf verifyToken b : reachable verifyToken b -> wf b.
Proof. intros [evs ->]. apply wf_run, wf_init. Qed.

(** ** The liveness monitor *)

(** For a client that missed the last probe, the interval callback does the
    cleanup of the [close] listener and terminates the socket. *)
Lemma check_alive_dead b c ws :
  sockets b !! c = Some ws -> isAlive ws = false ->
  check_alive b c = ws_terminate c (on_close c b).
Proof.
  intros Hws Hdead. unfold check_alive, on_close. rewrite Hws, Hdead. simpl.
  reflexivity.
Qed.

Lemma check_alive_live b c ws :
  sockets b !! c = Some ws -> isAlive ws = true ->
  check_alive b c = ws_ping c (update_socket c (with_isAlive false) b).
Proof.
  intros Hws Hlive. unfold check_alive. rewrite Hws, Hlive. reflexivity.
Qed.

(** The cleanup of the [close] listener only removes entries, and removes
    those of the identity the socket carries. *)
Lemma on_close_registries b c :
  sockets (on_close c b) = sockets b
  /\ effects (on_close c b) = effects b
  /\ (forall u, onlineUsers b !! u = None -> onlineUsers (on_close c b) !! u = None)
  /\ (forall u, onlineCouriers b !! u = None ->
                onlineCouriers (on_close c b) !! u = None).
Proof.
  unfold on_close. destruct (sockets b !! c) as [ws|]; [| done].
  destruct (userId ws) as [uid|]; [| done].
  destruct (has_identity (Some uid)); [| done].
  destruct (role_is (userRole ws) UserRole_Client); simpl;
    repeat split; try done; intros u Hu; rewrite lookup_delete;
    by case_decide.
Qed.

Lemma on_close_removes b c ws uid :
  sockets b !! c = Some ws -> userId ws = Some uid -> uid <> "" ->
  onlineUsers (on_close c b) !! uid = None
  /\ (userRole ws = Some UserRole_Client ->
      onlineCouriers (on_close c b) !! uid = None).
Proof.
  intros Hws Hid Hne. unfold on_close. rewrite Hws, Hid.
  assert (has_identity (Some uid) = true) as ->
    by (apply has_identity_true; eauto).
  destruct (role_is (userRole ws) UserRole_Client) eqn:E; simpl.
  - split; [| intros _]; apply lookup_delete_eq.
  - split; [apply lookup_delete_eq |].
    intros H%role_is_true. congruence.
Qed.

(** One run of the callback over a duplicate-free list of clients. *)
Lemma interval_fold l : forall b,
  List.NoDup l ->
  exists es,
    effects (foldl check_alive b l) = effects b ++ es
    /\ (forall e, In e es -> exists c, In c l /\ (e = Ping c \/ e = Terminate c))
    /\ (forall c, ~ In c l -> sockets (foldl check_alive b l) !! c = sockets b !! c)
    /\ (forall u, onlineUsers b !! u = None ->
                  onlineUsers (foldl check_alive b l) !! u = None)
    /\ (forall u, onlineCouriers b !! u = None ->
                  onlineCouriers (foldl check_alive b l) !! u = None)
    /\ (forall c ws, In c l -> sockets b !! c = Some ws ->
          if isAlive ws
          then sockets (foldl check_alive b l) !! c = Some (with_isAlive false ws)
               /\ In (Ping c) es /\ ~ In (Terminate c) es
          else sockets (foldl check_alive b l) !! c = Some (start_closing ws)
               /\ In (Terminate c) es /\ ~ In (Ping c) es
               /\ (forall u, onlineUsers (on_close c b) !! u = None ->
                     onlineUsers (foldl check_alive b l) !! u = None)
               /\ (forall u, onlineCouriers (on_close c b) !! u = None ->
                     onlineCouriers (foldl check_alive b l) !! u = None)).
Proof.
  induction l as [|c0 l IH]; intros b Hnd.
  - exists []. simpl. rewrite app_nil_r. repeat split; try done; intros e [].
  - apply List.NoDup_cons_iff in Hnd as [Hc0 Hnd]. simpl.
    destruct (IH (check_alive b c0) Hnd)
      as (es & Hes & Hev & Hsock & Hus & Hco & Hall).
    set (b1 := check_alive b c0) in *.
    set (b' := foldl check_alive b1 l) in *.
    (* what the callback does for [c0] *)
    assert (exists e0,
      effects b1 = effects b ++ e0
      /\ (forall e, In e e0 -> e = Ping c0 \/ e = Terminate c0)
      /\ (forall c, c <> c0 -> sockets b1 !! c = sockets b !! c)
      /\ (forall u, onlineUsers b !! u = None -> onlineUsers b1 !! u = None)
      /\ (forall u, onlineCouriers b !! u = None -> onlineCouriers b1 !! u = None)
      /\ (forall ws, sockets b !! c0 = Some ws ->
            if isAlive ws
            then sockets b1 !! c0 = Some (with_isAlive false ws)
                 /\ e0 = [Ping c0]
            else sockets b1 !! c0 = Some (start_closing ws)
                 /\ e0 = [Terminate c0]
                 /\ (forall u, onlineUsers (on_close c0 b) !! u = None ->
                               onlineUsers b1 !! u = None)
                 /\ (forall u, onlineCouriers (on_close c0 b) !! u = None ->
                               onlineCouriers b1 !! u = None)))
      as (e0 & He0 & Hev0 & Hsock0 & Hus0 & Hco0 & Hc0spec).
    { subst b1. destruct (sockets b !! c0) as [ws0|] eqn:Hws0.
      - destruct (isAlive ws0) eqn:Halive.
        + rewrite (check_alive_live _ _ _ Hws0 Halive).
          exists [Ping c0]. simpl. repeat split; try done.
          * intros e [<- | []]. by left.
          * intros c Hne. by rewrite lookup_alter_ne.
          * intros ws [= <-]. rewrite Halive.
            by rewrite lookup_alter_eq, Hws0.
        + rewrite (check_alive_dead _ _ _ Hws0 Halive).
          destruct (on_close_registries b c0) as (Hs & He & Hu & Hc).
          exists [Terminate c0]. simpl. rewrite Hs, He.
          repeat split; try done.
          * intros e [<- | []]. by right.
          * intros c Hne. by rewrite lookup_alter_ne.
          * intros ws [= <-]. rewrite Halive.
            by rewrite lookup_alter_eq, Hws0.
      - unfold check_alive. rewrite Hws0. exists [].
        rewrite app_nil_r. repeat split; try done; intros e []. }
    exists (e0 ++ es). rewrite Hes, He0, <- app_assoc.
    split; [done |]. split; [| split; [| split; [| split]]].
    + intros e [He | He]%in_app_iff.
      * exists c0. split; [by left | by apply Hev0].
      * destruct (Hev e He) as (c & Hc & Hec). exists c. split; [by right | done].
    + intros c Hc. rewrite Hsock; [apply Hsock0 |]; intros ?; apply Hc;
        [by left | by right].
    + intros u Hu. by apply Hus, Hus0.
    + intros u Hu. by apply Hco, Hco0.
    + intros c ws [<- | Hc] Hws.
      * specialize (Hc0spec ws Hws). rewrite (Hsock c0 Hc0).
        assert (forall e, In e es -> e <> Ping c0 /\ e <> Terminate c0) as Hfresh.
        { intros e He. destruct (Hev e He) as (c & Hc & [-> | ->]);
            split; intros [=]; congruence. }
        destruct (isAlive ws).
        -- destruct Hc0spec as (Hs1 & ->). split; [done |].
           split; [by left |].
           intros [[[=] | []] | H]%in_app_iff. by apply Hfresh in H as [_ ?].
        -- destruct Hc0spec as (Hs1 & -> & Hu1 & Hc1). split; [done |].
           split; [by left |]. split.
           { intros [[[=] | []] | H]%in_app_iff. by apply Hfresh in H as [? _]. }
           split; intros u Hu; [by apply Hus, Hu1 | by apply Hco, Hc1].
      * assert (c <> c0) as Hne by (intros ->; contradiction).
        specialize (Hall c ws Hc). rewrite (Hsock0 c Hne) in Hall.
        specialize (Hall Hws).
        assert (forall e, In e e0 -> e <> Ping c /\ e <> Terminate c) as Hfresh.
        { intros e He. destruct (Hev0 e He) as [-> | ->];
            split; intros [=]; congruence. }
        destruct (isAlive ws).
        -- destruct Hall as (Hs1 & Hin & Hnot). split; [done |].
           split; [apply in_app_iff; by right |].
           intros [H | H]%in_app_iff; [by apply Hfresh in H as [_ ?] | done].
        -- destruct Hall as (Hs1 & Hin & Hnot & Hu1 & Hc1). split; [done |].
           split; [apply in_app_iff; by right |]. split.
           { intros [H | H]%in_app_iff; [by apply Hfresh in H as [? _] | done]. }
           (* the cleanup for [c] only reads the socket of [c] *)
           assert (on_close_same : forall u,
             (onlineUsers (on_close c b) !! u = None ->
              onlineUsers (on_close c b1) !! u = None)
             /\ (onlineCouriers (on_close c b) !! u = None ->
                 onlineCouriers (on_close c b1) !! u = None)).
           { intros u. unfold on_close. rewrite (Hsock0 c Hne), Hws.
             destruct (userId ws) as [uid|]; [| split; [apply Hus0 | apply Hco0]].
             destruct (has_identity (Some uid));
               [| split; [apply Hus0 | apply Hco0]].
             destruct (role_is (userRole ws) UserRole_Client); simpl;
               rewrite ?lookup_delete; case_decide; try done; split;
               try done; try apply Hus0; try apply Hco0. }
           split; intros u Hu; [apply Hu1 | apply Hc1]; by apply on_close_same.
Qed.

Lemma start_closing_not_open ws : is_OPEN (readyState (start_closing ws)) = false.
Proof. unfold start_closing. by destruct (readyState ws) eqn:E; simpl; rewrite ?E. Qed.

(** C7: on a run of the interval callback (every 30 seconds), every open
    connection that has not answered the previous probe is terminated and
    loses its registry and role-index entries, by the very cleanup of the
    [close] listener; every other open connection has [isAlive] set to
    false and is sent a probe; a probe response sets [isAlive] to true. *)
Theorem interval_evicts_silent_and_probes_rest verifyToken b :
  reachable verifyToken b ->
  interval_period = 30000%Z
  /\ (exists probes,
        effects (interval b) = effects b ++ probes
        /\ forall c ws,
             sockets b !! c = Some ws -> readyState ws = OPEN ->
             if isAlive ws
             then sockets (interval b) !! c = Some (with_isAlive false ws)
                  /\ In (Ping c) probes /\ ~ In (Terminate c) probes
             else check_alive b c = ws_terminate c (on_close c b)
                  /\ In (Terminate c) probes /\ ~ In (Ping c) probes
                  /\ is_open (interval b) c = false
                  /\ (forall u, onlineUsers (on_close c b) !! u = None ->
                                onlineUsers (interval b) !! u = None)
                  /\ (forall u, onlineCouriers (on_close c b) !! u = None ->
                                onlineCouriers (interval b) !! u = None)
                  /\ (forall uid, userId ws = Some uid -> uid <> "" ->
                        onlineUsers (interval b) !! uid = None
                        /\ (userRole ws = Some UserRole_Client ->
                            onlineCouriers (interval b) !! uid = None)))
  /\ (forall c ws,
        sockets b !! c = Some ws -> readyState ws <> CLOSED ->
        sockets (step verifyToken b (Pong c)) !! c = Some (with_isAlive true ws)).
Proof.
  intros Hreach. apply reachable_wf in Hreach as [Hnd Hlisten _ _].
  split; [reflexivity |]. split.
  - unfold interval.
    destruct (interval_fold (clients b) b Hnd)
      as (es & Hes & _ & _ & _ & _ & Hall).
    exists es. split; [done |]. intros c ws Hws Hopen.
    assert (In c (clients b)) as Hc.
    { apply Hlisten. unfold listening. by rewrite Hws, Hopen. }
    specialize (Hall c ws Hc Hws). destruct (isAlive ws) eqn:Halive; [done |].
    destruct Hall as (Hs & Hin & Hnot & Hu & Hco).
    split; [by apply check_alive_dead with ws |].
    split; [done |]. split; [done |]. split.
    { unfold is_open. rewrite Hs. apply start_closing_not_open. }
    split; [done |]. split; [done |].
    intros uid Hid Hne.
    destruct (on_close_removes b c ws uid Hws Hid Hne) as [H1 H2].
    split; [by apply Hu | intros Hrole; by apply Hco, H2].
  - intros c ws Hws Hopen. simpl. unfold listening. rewrite Hws.
    destruct (readyState ws) eqn:E; try done;
      unfold heartbeat; simpl; by rewrite lookup_alter_eq, Hws.
Qed.

Lemma interval_evicts_silent_and_probes_rest_witness :
  exists probes,
    effects (interval Samples.silent_and_fresh)
    = effects Samples.silent_and_fresh ++ probes
    /\ In (Terminate 0) probes /\ In (Ping 1) probes
    /\ onlineUsers (interval Samples.silent_and_fresh) !! "client-1" = None.
Proof.
  destruct (interval_evicts_silent_and_probes_rest Samples.sample_verify
              Samples.silent_and_fresh)
    as (_ & (probes & Heq & Hall) & _).
  - eexists. reflexivity.
  - exists probes. split; [exact Heq |].
    pose proof (Hall 0
      {| userId := Some "client-1"; userRole := Some UserRole_Client;
         userName := Some "client-1"; isAlive := false;
         path := "/chat"; readyState := OPEN |}) as H0.
    pose proof (Hall 1 (fresh_socket "/chat")) as H1.
    simpl in H0, H1.
    destruct H0 as (_ & Hterm & _ & _ & _ & _ & Hid);
      [vm_compute; reflexivity | reflexivity |].
    destruct H1 as (_ & Hping & _);
      [vm_compute; reflexivity | reflexivity |].
    split; [exact Hterm |]. split; [exact Hping |].
    apply (Hid "client-1"); [reflexivity | discriminate].
Defined.

(** ** The registry and the role index *)

Section Roles.

Variable verifyToken : json -> VerifyResult.

(** The role is an attribute of the identity: every credential of one
    identity carries the same role. *)
Variable role_of : string -> string.
Hypothesis verifyToken_role :
  forall token id role email,
    verifyToken token = Verified id role email -> role = role_of id.

Local Abbreviation roles_sound := (CallInvariants.roles_sound role_of).

Lemma roles_same b b' :
  onlineCouriers b' = onlineCouriers b -> roles_sound b -> roles_sound b'.
Proof. intros H Hb u c. rewrite H. apply Hb. Qed.

Lemma roles_emit b e : roles_sound b -> roles_sound (emit e b).
Proof. by apply roles_same. Qed.

Lemma roles_ws_send b c v : roles_sound b -> roles_sound (ws_send c v b).
Proof. by apply roles_same. Qed.

Lemma roles_ws_ping b c : roles_sound b -> roles_sound (ws_ping c b).
Proof. by apply roles_same. Qed.

Lemma roles_console_log b text args :
  roles_sound b -> roles_sound (console_log text args b).
Proof. by apply roles_same. Qed.

Lemma roles_update_socket b c f : roles_sound b -> roles_sound (update_socket c f b).
Proof. by apply roles_same. Qed.

Lemma roles_ws_close b c : roles_sound b -> roles_sound (ws_close c b).
Proof. by apply roles_same. Qed.

Lemma roles_ws_terminate b c : roles_sound b -> roles_sound (ws_terminate c b).
Proof. by apply roles_same. Qed.

Lemma roles_set_onlineUsers b v : roles_sound b -> roles_sound (set_onlineUsers v b).
Proof. by apply roles_same. Qed.

Lemma roles_set_clients b v : roles_sound b -> roles_sound (set_clients v b).
Proof. by apply roles_same. Qed.

Lemma roles_set_sockets b v : roles_sound b -> roles_sound (set_sockets v b).
Proof. by apply roles_same. Qed.

Lemma roles_set_nextConn b v : roles_sound b -> roles_sound (set_nextConn v b).
Proof. by apply roles_same. Qed.

Lemma roles_delete u b :
  roles_sound b -> roles_sound (set_onlineCouriers (delete u (onlineCouriers b)) b).
Proof.
  intros Hb u' c. simpl. rewrite lookup_delete.
  case_decide; [done | apply Hb].
Qed.

Create HintDb roles.
#[local] Hint Resolve roles_emit roles_ws_send roles_ws_ping roles_console_log
  roles_update_socket roles_ws_close roles_ws_terminate roles_set_onlineUsers
  roles_set_clients roles_set_sockets roles_set_nextConn roles_delete : roles.

Ltac roles_cases :=
  cbv zeta;
  repeat match goal with
    | |- context [if ?x then _ else _] => destruct x
    | |- context [match ?x with _ => _ end] => destruct x
    end;
  eauto 10 with roles.

Lemma roles_on_close b c : roles_sound b -> roles_sound (on_close c b).
Proof. intros Hb. unfold on_close. roles_cases. Qed.

Lemma roles_check_alive b c : roles_sound b -> roles_sound (check_alive b c).
Proof. intros Hb. unfold check_alive. roles_cases. Qed.

Lemma roles_interval b : roles_sound b -> roles_sound (interval b).
Proof.
  unfold interval. generalize (clients b). intros l. revert b.
  induction l as [|c l IH]; intros b Hb; simpl; [done |].
  by apply IH, roles_check_alive.
Qed.

Lemma roles_handleParcelChatMessage b c parsedData :
  roles_sound b -> roles_sound (handleParcelChatMessage c parsedData b).
Proof.
  intros Hb.
  unfold handleParcelChatMessage, callUser, answerCall, iceCandidate,
    disconnectCall, relay_to_open_peer.
  roles_cases.
Qed.

Lemma roles_evict_existing b c id role :
  roles_sound b -> roles_sound (evict_existing c id role b).
Proof. intros Hb. unfold evict_existing. roles_cases. Qed.

Lemma roles_register b c id role email :
  role = role_of id -> roles_sound b -> roles_sound (register c id role email b).
Proof.
  intros Hrole Hb. unfold register. cbv zeta.
  destruct (String.eqb role UserRole_Client) eqn:E; [| roles_cases].
  apply String.eqb_eq in E. intros u c'. simpl. rewrite lookup_insert.
  case_decide; [intros _; congruence | apply Hb].
Qed.

Lemma roles_authenticate b c parsedData :
  roles_sound b -> roles_sound (authenticate verifyToken c parsedData b).
Proof.
  intros Hb. unfold authenticate.
  destruct (negb (truthy (prop parsedData "token"))); [eauto with roles |].
  destruct (verifyToken (prop parsedData "token")) as [id role email| |] eqn:E;
    eauto with roles.
  apply roles_ws_send, roles_register; [by eapply verifyToken_role |].
  by apply roles_evict_existing.
Qed.

Lemma roles_on_message b c data :
  roles_sound b -> roles_sound (on_message verifyToken c data b).
Proof.
  intros Hb. unfold on_message.
  repeat match goal with
    | |- context [if ?x then _ else _] => destruct x
    | |- roles_sound (match ?x with _ => _ end) => destruct x
    end;
  eauto 10 using roles_authenticate, roles_handleParcelChatMessage with roles.
Qed.

Lemma roles_step b ev : roles_sound b -> roles_sound (step verifyToken b ev).
Proof.
  intros Hb. destruct ev as [url | c data | c | | c]; simpl.
  - unfold on_connection. eauto 10 with roles.
  - destruct (listening b c); [by apply roles_on_message | done].
  - destruct (listening b c); [unfold heartbeat; eauto with roles | done].
  - by apply roles_interval.
  - destruct (listening b c); [| done].
    apply roles_on_close. unfold transport_closed. eauto with roles.
Qed.

Lemma reachable_roles_sound b : reachable verifyToken b -> roles_sound b.
Proof.
  intros [evs ->]. unfold run.
  assert (roles_sound init) as Hinit by (intros u c; simpl; by rewrite lookup_empty).
  revert Hinit. generalize init. induction evs as [|ev evs IH]; intros b Hb; simpl.
  - done.
  - by apply IH, roles_step.
Qed.

(** The registry is a map keyed by the identity: it holds at most one entry
    for an identity, whatever the path. *)
Lemma registry_one_entry b id c1 p1 c2 p2 :
  (id, (c1, p1)) ∈ map_to_list (onlineUsers b) ->
  (id, (c2, p2)) ∈ map_to_list (onlineUsers b) ->
  c1 = c2 /\ p1 = p2.
Proof.
  intros H1%elem_of_map_to_list H2%elem_of_map_to_list.
  rewrite H1 in H2. by injection H2.
Qed.

(** When every credential of an identity carries the same role, the
    eviction is complete: the registry holds at most one entry per identity
    and path; and when a connection authenticates as an identity whose
    entry has the path of the connection, the connection of that entry is
    closed and the registry and role-index entries of the identity are
    removed before the new entry is inserted. *)
Theorem authenticate_evicts_entry_on_same_path b c ws parsedData id role email old :
  reachable verifyToken b ->
  sockets b !! c = Some ws ->
  get_prop parsedData "event" = Some (JStr "authenticate") ->
  truthy (prop parsedData "token") = true ->
  verifyToken (prop parsedData "token") = Verified id role email ->
  onlineUsers b !! id = Some (old, path ws) ->
  let b0 := console_log "Received event:"
              [JStr "authenticate"; JStr "on path:"; JStr (path ws)] b in
  let evicted := evict_existing c id role b0 in
  let registered := register c id role email evicted in
  let b' := on_message verifyToken c (Some parsedData) b in
  (forall u c1 c2 p,
      (u, (c1, p)) ∈ map_to_list (onlineUsers b) ->
      (u, (c2, p)) ∈ map_to_list (onlineUsers b) -> c1 = c2)
  /\ (forall u c1 c2 p,
      (u, (c1, p)) ∈ map_to_list (onlineUsers b') ->
      (u, (c2, p)) ∈ map_to_list (onlineUsers b') -> c1 = c2)
  /\ b' = ws_send c (authenticated id role) registered
  /\ effects evicted = effects b ++ [Close old]
  /\ is_open evicted old = false
  /\ onlineUsers evicted !! id = None
  /\ onlineCouriers evicted !! id = None
  /\ onlineUsers b' !! id = Some (c, path ws)
  /\ (role = UserRole_Client -> onlineCouriers b' !! id = Some c).
Proof.
  intros Hreach Hws Hev Htok Hver Hold b0 evicted registered b'.
  assert (Hrole : role = role_of id) by (by eapply verifyToken_role).
  pose proof (reachable_roles_sound b Hreach) as Hsound.
  split; [intros u c1 c2 p H1 H2; by eapply registry_one_entry |].
  split; [intros u c1 c2 p H1 H2; by eapply registry_one_entry |].
  assert (Hb' : b' = ws_send c (authenticated id role) registered).
  { subst b'. rewrite (on_message_parsed _ _ _ _ _ _ Hws Hev). simpl.
    rewrite andb_false_r. unfold authenticate. rewrite Htok, Hver. reflexivity. }
  split; [exact Hb' |].
  assert (Hevicted : evicted =
    let b1 := ws_close old b0 in
    let b2 := set_onlineUsers (delete id (onlineUsers b1)) b1 in
    if String.eqb role UserRole_Client
    then set_onlineCouriers (delete id (onlineCouriers b2)) b2 else b2).
  { subst evicted b0. unfold evict_existing.
    cbn [onlineUsers sockets console_log set_console]. rewrite Hold, Hws.
    by rewrite String.eqb_refl. }
  assert (Hpath : forall b1, sockets b1 !! c = start_closing <$> Some ws
                             \/ sockets b1 !! c = Some ws ->
            match sockets (update_socket c (bind_identity id role email) b1) !! c
            with Some ws' => path ws' | None => "" end = path ws).
  { intros b1 H. simpl. rewrite lookup_alter_eq.
    destruct H as [-> | ->]; simpl; [| done].
    unfold start_closing. by destruct (readyState ws). }
  assert (Hsock : sockets evicted !! c = start_closing <$> Some ws
                  \/ sockets evicted !! c = Some ws).
  { rewrite Hevicted. cbv zeta.
    destruct (String.eqb role UserRole_Client); simpl;
      rewrite lookup_alter; case_decide; subst; rewrite Hws; auto. }
  split.
  { rewrite Hevicted. cbv zeta. by destruct (String.eqb role UserRole_Client). }
  split.
  { rewrite Hevicted. cbv zeta. unfold is_open.
    destruct (String.eqb role UserRole_Client); simpl;
      rewrite lookup_alter_eq; destruct (sockets b !! old); simpl;
      try done; apply start_closing_not_open. }
  split.
  { rewrite Hevicted. cbv zeta.
    destruct (String.eqb role UserRole_Client); simpl; apply lookup_delete_eq. }
  split.
  { rewrite Hevicted. cbv zeta.
    destruct (String.eqb role UserRole_Client) eqn:E; simpl.
    - apply lookup_delete_eq.
    - destruct (onlineCouriers b !! id) as [c0|] eqn:Hc0; [| done].
      apply Hsound in Hc0. apply String.eqb_neq in E. congruence. }
  rewrite Hb'. subst registered. unfold register. cbv zeta.
  rewrite (Hpath evicted Hsock).
  destruct (String.eqb role UserRole_Client) eqn:E; simpl.
  - split; [apply lookup_insert_eq | intros _; apply lookup_insert_eq].
  - split; [apply lookup_insert_eq |].
    intros ->. discriminate.
Qed.

End Roles.

Lemma sample_verify_role token id role email :
  Samples.sample_verify token = Verified id role email ->
  role = Samples.sample_role id.
Proof.
  destruct token as [| | | |s | |]; simpl; try discriminate.
  destruct (String.eqb s "expired"); [discriminate |]. by intros [= <- <- _].
Qed.

Lemma authenticate_evicts_entry_on_same_path_witness :
  let b := Samples.client_and_newcomer in
  let b' := on_message Samples.sample_verify 1
              (Some (Samples.authenticate_request "client-1")) b in
  onlineUsers b !! "client-1" = Some (0, "/chat")
  /\ onlineUsers b' !! "client-1" = Some (1, "/chat")
  /\ onlineCouriers b' !! "client-1" = Some 1.
Proof.
  intros b b'. split; [vm_compute; reflexivity |].
  destruct (authenticate_evicts_entry_on_same_path
              Samples.sample_verify Samples.sample_role sample_verify_role
              b 1 (fresh_socket "/chat")
              (Samples.authenticate_request "client-1")
              "client-1" UserRole_Client "client-1" 0)
    as (_ & _ & _ & _ & _ & _ & _ & Hnew & Hrole).
  - eexists. reflexivity.
  - vm_compute; reflexivity.
  - reflexivity.
  - reflexivity.
  - reflexivity.
  - vm_compute; reflexivity.
  - split; [exact Hnew | by apply Hrole].
Defined.

(** C2, at the failing input: the role-index entry is removed by the role
    of the new credential, not by the role of the connection that is
    evicted.  When the identity is registered as a client and authenticates
    on the same path with a credential of another role, the prior
    connection is closed and its registry entry is replaced, and its
    role-index entry stays, naming the socket that was closed. *)
Theorem eviction_keeps_role_index_entry_of_prior_client
    verifyToken b c ws parsedData id role email old :
  sockets b !! c = Some ws ->
  get_prop parsedData "event" = Some (JStr "authenticate") ->
  truthy (prop parsedData "token") = true ->
  verifyToken (prop parsedData "token") = Verified id role email ->
  onlineUsers b !! id = Some (old, path ws) ->
  onlineCouriers b !! id = Some old ->
  role <> UserRole_Client ->
  let b' := on_message verifyToken c (Some parsedData) b in
  effects b'
  = effects b
    ++ [Close old;
        Send c (JObj [("event", JStr "authenticated");
                      ("data", JObj [("userId", JStr id); ("role", JStr role);
                                     ("success", JBool true)])])]
  /\ is_open b' old = false
  /\ onlineUsers b' !! id = Some (c, path ws)
  /\ onlineCouriers b' !! id = Some old.
Proof.
  intros Hws Hev Htok Hver Hold Hcourier Hrole b'.
  apply String.eqb_neq in Hrole.
  set (b0 := console_log "Received event:"
               [JStr "authenticate"; JStr "on path:"; JStr (path ws)] b).
  assert (Hb' : b' = ws_send c (authenticated id role)
                       (register c id role email (evict_existing c id role b0))).
  { subst b'. rewrite (on_message_parsed _ _ _ _ _ _ Hws Hev). simpl.
    rewrite andb_false_r. unfold authenticate. rewrite Htok, Hver. reflexivity. }
  assert (Hevicted : evict_existing c id role b0
            = set_onlineUsers (delete id (onlineUsers (ws_close old b0)))
                (ws_close old b0)).
  { subst b0. unfold evict_existing.
    cbn [onlineUsers sockets console_log set_console]. rewrite Hold, Hws.
    by rewrite String.eqb_refl, Hrole. }
  rewrite Hb', Hevicted. unfold register. cbv zeta. rewrite Hrole.
  subst b0.
  cbn [effects ws_send emit set_effects set_onlineUsers set_onlineCouriers
       update_socket set_sockets ws_close set_console console_log
       onlineUsers onlineCouriers sockets].
  assert (Hc : exists ws',
             alter (bind_identity id role email) c
               (alter start_closing old (sockets b)) !! c = Some ws'
             /\ path ws' = path ws).
  { rewrite lookup_alter_eq. destruct (decide (old = c)) as [-> | Hne].
    - rewrite lookup_alter_eq, Hws. simpl. eexists. split; [reflexivity |].
      unfold start_closing. by destruct (readyState ws).
    - rewrite lookup_alter_ne, Hws by done. simpl. by eexists. }
  destruct Hc as (ws' & Hc & Hpath).
  split; [by rewrite <- app_assoc |].
  split.
  { assert (Hclosing : forall w,
              alter (bind_identity id role email) c
                (alter start_closing old (sockets b)) !! old = Some w ->
              is_OPEN (readyState w) = false).
    { intros w. destruct (decide (old = c)) as [-> | Hne].
      - rewrite !lookup_alter_eq, Hws. simpl. intros [= <-].
        apply start_closing_not_open.
      - rewrite lookup_alter_ne, lookup_alter_eq by done.
        destruct (sockets b !! old); simpl; intros [= <-].
        apply start_closing_not_open. }
    unfold is_open. cbn [sockets].
    match goal with
    | |- match ?x with _ => _ end = _ => destruct x as [w|] eqn:E
    end; [by apply Hclosing | done]. }
  split; [by rewrite Hc, lookup_insert_eq, Hpath |].
  exact Hcourier.
Qed.

Lemma eviction_keeps_role_index_entry_of_prior_client_witness :
  let b := Samples.client_before_promotion in
  let b' := on_message Samples.promoting_verify 1
              (Some (Samples.authenticate_request "u1-host")) b in
  onlineUsers b !! "u1" = Some (0, "/chat")
  /\ onlineCouriers b !! "u1" = Some 0
  /\ In (Close 0) (effects b')
  /\ is_open b' 0 = false
  /\ onlineUsers b' !! "u1" = Some (1, "/chat")
  /\ onlineCouriers b' !! "u1" = Some 0.
Proof.
  intros b b'.
  assert (Hu : onlineUsers b !! "u1" = Some (0, "/chat"))
    by (vm_compute; reflexivity).
  assert (Hc : onlineCouriers b !! "u1" = Some 0) by (vm_compute; reflexivity).
  destruct (eviction_keeps_role_index_entry_of_prior_client
              Samples.promoting_verify b 1 (fresh_socket "/chat")
              (Samples.authenticate_request "u1-host")
              "u1" UserRole_Host "u1" 0)
    as (Heff & Hopen & Husers & Hcouriers).
  - vm_compute; reflexivity.
  - reflexivity.
  - reflexivity.
  - reflexivity.
  - exact Hu.
  - exact Hc.
  - discriminate.
  - split; [exact Hu |]. split; [exact Hc |].
    split; [unfold b'; rewrite Heff; apply in_app_iff; right; by left |].
    split; [exact Hopen |]. split; [exact Husers | exact Hcouriers].
Defined.

(** The call-signalling broker answers every failed authentication, a
    missing credential as well as a failed verification, with an error
    envelope, and leaves the connection as it is. *)
Lemma call_authentication_failure_is_answered verifyToken b c ws parsedData :
  sockets b !! c = Some ws ->
  get_prop parsedData "event" = Some (JStr "authenticate") ->
  truthy (prop parsedData "token") = false
  \/ (forall id role email,
        verifyToken (prop parsedData "token") <> Verified id role email) ->
  let b' := on_message verifyToken c (Some parsedData) b in
  sockets b' = sockets b
  /\ onlineUsers b' = onlineUsers b /\ onlineCouriers b' = onlineCouriers b
  /\ exists text, effects b' = effects b ++ [Send c (error_envelope text)].
Proof.
  intros Hws Hev Hfail b'. subst b'.
  rewrite (on_message_parsed _ _ _ _ _ _ Hws Hev). simpl.
  rewrite andb_false_r. unfold authenticate.
  destruct (truthy (prop parsedData "token")) eqn:Htok; simpl.
  - destruct Hfail as [? | Hfail]; [discriminate |].
    destruct (verifyToken (prop parsedData "token")) as [id role email| |] eqn:E.
    + by destruct (Hfail id role email).
    + repeat split; try done. by eexists.
    + repeat split; try done. by eexists.
  - repeat split; try done. by eexists.
Qed.

End CallFacts.

(** * Properties of the chat and location broker *)

Module ChatFacts.
Import ChatBroker ChatInvariants.

(** ** Sending to the open sockets of a list *)

Lemma set_effects_id b : set_effects (effects b) b = b.
Proof. by destruct b. Qed.

(** Both [broadcastToAll] and the fan-out of a location are this loop: the
    message goes, in order, to the sockets of the list that are open. *)
Lemma send_each message l : forall b,
  foldl (send_if_open message) b l =
  set_effects
    (effects b ++ List.map (fun c => Send c message) (List.filter (is_open b) l)) b.
Proof.
  induction l as [|c l IH]; intros b; simpl.
  - by rewrite app_nil_r, set_effects_id.
  - rewrite IH. unfold send_if_open.
    destruct (is_open b c) eqn:E; [| reflexivity].
    change (is_open (ws_send c message b)) with (is_open b).
    unfold set_effects, ws_send, emit. simpl. by rewrite <- app_assoc.
Qed.

Lemma broadcastToAll_spec message b :
  broadcastToAll message b =
  set_effects
    (effects b ++ List.map (fun c => Send c message)
                    (List.filter (is_open b) (clients b))) b.
Proof. apply (send_each message (clients b) b). Qed.

(** ** The listener *)

Lemma chat_on_message_parsed verifyToken f b c parsedData event :
  get_prop parsedData "event" = Some event ->
  on_message verifyToken f c (Some parsedData) b =
  match dispatch verifyToken f c parsedData event b with
  | Done b' => b'
  | Raised b' => console_log "WebSocket message handling error:" [] b'
  end.
Proof. intros Hev. unfold on_message. simpl. by rewrite Hev. Qed.

Lemma has_identity_Some uid : uid <> "" -> has_identity (Some uid) = true.
Proof. intros H. apply CallFacts.has_identity_true. eauto. Qed.

Lemma truthy_JStr s : s <> "" -> truthy (JStr s) = true.
Proof. intros H. simpl. by apply negb_true_iff, String.eqb_neq. Qed.

(** ** A message without a receiver or without a text *)

(** C9, as stated, fails: an authenticated sender whose [message] event has
    no [receiverId] is sent nothing at all; the text "Invalid message
    payload" only goes to the console of the broker. *)
Lemma invalid_message_gets_no_envelope :
  let b := run Samples.sample_verify init
             [Connection;
              Message 0 (Some (Samples.authenticate_request "alice")) healthy] in
  let request := JObj [("event", JStr "message"); ("message", JStr "hi")] in
  let b' := step Samples.sample_verify b (Message 0 (Some request) healthy) in
  id_of_conn b 0 = Some "alice"
  /\ prop request "receiverId" = JUndefined
  /\ effects b' = effects b
  /\ sent_to 0 (effects b') = [userStatus (JStr "alice") true].
Proof. vm_compute. repeat split; reflexivity. Qed.

(** C9, amended: for a [message] event from an authenticated connection
    that lacks [receiverId] or [message], no envelope is sent to anyone: the
    broker writes "Invalid message payload" on its console; the connection
    stays open and no room or chat is created. *)
Theorem invalid_message_is_only_logged verifyToken f b c uid parsedData :
  id_of_conn b c = Some uid -> uid <> "" ->
  get_prop parsedData "event" = Some (JStr "message") ->
  truthy (prop parsedData "receiverId") = false
  \/ truthy (prop parsedData "message") = false ->
  let b' := on_message verifyToken f c (Some parsedData) b in
  effects b' = effects b
  /\ console b' = console b ++ [("Invalid message payload", [])]
  /\ sockets b' = sockets b /\ clients b' = clients b
  /\ store b' = store b.
Proof.
  intros Hid Hne Hev Hmissing b'. subst b'.
  rewrite (chat_on_message_parsed _ _ _ _ _ _ Hev). unfold dispatch. simpl.
  unfold message. rewrite Hid, (has_identity_Some _ Hne). simpl.
  destruct Hmissing as [-> | ->]; simpl; rewrite ?orb_true_r; done.
Qed.

Lemma invalid_message_is_only_logged_witness :
  let b := run Samples.sample_verify init
             [Connection;
              Message 0 (Some (Samples.authenticate_request "alice")) healthy] in
  let request := JObj [("event", JStr "message"); ("receiverId", JStr "bob")] in
  effects (on_message Samples.sample_verify healthy 0 (Some request) b)
  = effects b.
Proof.
  intros b request.
  apply (invalid_message_is_only_logged Samples.sample_verify healthy b 0
           "alice" request).
  - vm_compute; reflexivity.
  - discriminate.
  - reflexivity.
  - right. reflexivity.
Defined.

(** ** A first message between two identities *)

Lemma is_open_true b c :
  is_open b c = true <-> exists ws, sockets b !! c = Some ws /\ readyState ws = OPEN.
Proof.
  unfold is_open. destruct (sockets b !! c) as [ws|].
  - split.
    + intros H. exists ws. by destruct (readyState ws).
    + by intros (? & [= <-] & ->).
  - split; [discriminate | intros (? & [=] & _)].
Qed.

Lemma find_none_joins A B l :
  (forall room, In room l -> room_joins A B room = false) ->
  List.find (room_joins A B) l = None.
Proof.
  induction l as [|room l IH]; intros H; simpl; [done |].
  rewrite (H room (or_introl eq_refl)). apply IH. intros r Hr. apply H. by right.
Qed.

(** C3, as stated, fails: when the store creates the room and then fails
    to create the chat, or refuses images that are not a list of strings,
    one room and no chat are stored and nothing is sent, neither to the
    open receiver nor back to the sender. *)
Lemma message_without_chat_is_not_echoed :
  let b := run Samples.sample_verify init
             [Connection;
              Message 0 (Some (Samples.authenticate_request "alice")) healthy;
              Connection;
              Message 1 (Some (Samples.authenticate_request "bob")) healthy] in
  let chat_fails : Faults :=
    fun call => match call with ChatCreate => true | _ => false end in
  let with_image :=
    JObj [("event", JStr "message"); ("receiverId", JStr "bob");
          ("message", JStr "hi"); ("images", JStr "x.png")] in
  let b1 := step Samples.sample_verify b
              (Message 0 (Some (Samples.message_request "bob" "hi")) chat_fails) in
  let b2 := step Samples.sample_verify b (Message 0 (Some with_image) healthy) in
  id_of_conn b 0 = Some "alice"
  /\ userSockets b !! "bob" = Some 1 /\ is_open b 1 = true
  /\ rooms (store b) = []
  /\ length (rooms (store b1)) = 1 /\ chats (store b1) = []
  /\ effects b1 = effects b
  /\ length (rooms (store b2)) = 1 /\ chats (store b2) = []
  /\ effects b2 = effects b.
Proof. vm_compute. repeat split; reflexivity. Qed.

(** C3, amended: a [message] event with a string receiver [B], a non-empty
    text and images that are absent or a list of strings, from the
    connection of an authenticated sender [A], when the store holds no room
    for the pair and serves its calls: one room and one chat are created,
    the [message] envelope, whose data are the chat that was created, goes
    to the socket of [B] exactly when [B] is registered with an open
    socket, and it goes back to [A] in either case. *)
Theorem first_message_creates_room_and_chat
    verifyToken f b c A B text images parsedData :
  id_of_conn b c = Some A -> A <> "" ->
  get_prop parsedData "event" = Some (JStr "message") ->
  prop parsedData "receiverId" = JStr B -> B <> "" ->
  prop parsedData "message" = JStr text -> text <> "" ->
  images_of (prop parsedData "images") = Some images ->
  (forall call, f call = false) ->
  (forall room, In room (rooms (store b)) -> room_joins A B room = false) ->
  let room := {| room_id := length (rooms (store b));
                 room_senderId := A; room_receiverId := B |} in
  let chat := {| chat_id := length (chats (store b));
                 chat_senderId := A; chat_receiverId := B;
                 chat_roomId := room_id room; chat_message := text;
                 chat_images := images; chat_isRead := false;
                 chat_createdAt := length (chats (store b)) |} in
  let envelope :=
    JObj [("event", JStr "message");
          ("data",
           JObj [("id", JNum (Z.of_nat (length (chats (store b)))));
                 ("senderId", JStr A);
                 ("receiverId", JStr B);
                 ("roomId", JNum (Z.of_nat (length (rooms (store b)))));
                 ("message", JStr text);
                 ("images", JArr (List.map JStr images));
                 ("isRead", JBool false);
                 ("createdAt", JNum (Z.of_nat (length (chats (store b)))))])] in
  let b' := on_message verifyToken f c (Some parsedData) b in
  rooms (store b') = rooms (store b) ++ [room]
  /\ chats (store b') = chats (store b) ++ [chat]
  /\ users (store b') = users (store b)
  /\ sockets b' = sockets b
  /\ (forall socket, receiver_open b B socket ->
        effects b' = effects b ++ [Send socket envelope; Send c envelope])
  /\ ((forall socket, ~ receiver_open b B socket) ->
        effects b' = effects b ++ [Send c envelope]).
Proof.
  intros Hid HA Hev HB HBne Htext Htextne Himages Hf Hnoroom room chat envelope b'.
  assert (Henvelope : envelope = message_envelope "message" (chat_json chat))
    by reflexivity.
  clearbody envelope. subst envelope.
  set (envelope := message_envelope "message" (chat_json chat)).
  subst b'. rewrite (chat_on_message_parsed _ _ _ _ _ _ Hev). unfold dispatch. simpl.
  unfold message. rewrite Hid, (has_identity_Some _ HA), HB, Htext.
  rewrite (truthy_JStr _ HBne), (truthy_JStr _ Htextne). simpl.
  unfold room_findFirst. rewrite Hf. simpl.
  rewrite (find_none_joins _ _ _ Hnoroom).
  unfold room_create. rewrite Hf. simpl.
  unfold chat_create. rewrite Hf. simpl. rewrite Himages. simpl.
  fold room. fold chat. fold envelope.
  destruct (userSockets b !! B) as [socket|] eqn:Hsocket.
  - destruct (is_open _ socket) eqn:Hopen; simpl.
    + repeat split; try done.
      * intros socket' [Hs' _]. assert (socket' = socket) as -> by congruence.
        by rewrite <- app_assoc.
      * intros Hnone. exfalso. apply (Hnone socket).
        split; [done |]. by apply is_open_true in Hopen.
    + repeat split; try done.
      intros socket' [Hs' Hopen']. assert (socket' = socket) as -> by congruence.
      apply is_open_true in Hopen'. unfold is_open in *. simpl in Hopen.
      congruence.
  - simpl. repeat split; try done. intros socket' [Hs' _]. congruence.
Qed.

Lemma first_message_creates_room_and_chat_witness :
  let b := run Samples.sample_verify init
             [Connection;
              Message 0 (Some (Samples.authenticate_request "alice")) healthy;
              Connection;
              Message 1 (Some (Samples.authenticate_request "bob")) healthy] in
  let b' := on_message Samples.sample_verify healthy 0
              (Some (Samples.message_request "bob" "hi")) b in
  let envelope :=
    JObj [("event", JStr "message");
          ("data", JObj [("id", JNum 0);
                         ("senderId", JStr "alice");
                         ("receiverId", JStr "bob");
                         ("roomId", JNum 0);
                         ("message", JStr "hi");
                         ("images", JArr []);
                         ("isRead", JBool false);
                         ("createdAt", JNum 0)])] in
  length (rooms (store b')) = 1 /\ length (chats (store b')) = 1
  /\ effects b' = effects b ++ [Send 1 envelope; Send 0 envelope].
Proof.
  intros b b' envelope.
  destruct (first_message_creates_room_and_chat Samples.sample_verify healthy
              b 0 "alice" "bob" "hi" [] (Samples.message_request "bob" "hi"))
    as (Hrooms & Hchats & _ & _ & Hopen & _).
  - vm_compute; reflexivity.
  - discriminate.
  - reflexivity.
  - reflexivity.
  - discriminate.
  - reflexivity.
  - discriminate.
  - reflexivity.
  - reflexivity.
  - intros room [].
  - unfold b'. split; [rewrite Hrooms; vm_compute; reflexivity |].
    split; [rewrite Hchats; vm_compute; reflexivity |].
    rewrite (Hopen 1).
    + reflexivity.
    + split; [vm_compute; reflexivity |]. eexists. split; [vm_compute |]; reflexivity.
Defined.

(** ** Failed authentication *)

(** A missing credential, and a verifier that returns nothing: the socket
    is closed and nothing is sent. *)
Lemma authenticate_without_identity_closes verifyToken f b c parsedData :
  get_prop parsedData "event" = Some (JStr "authenticate") ->
  truthy (prop parsedData "token") = false
  \/ verifyToken (prop parsedData "token") = VerifyNull ->
  on_message verifyToken f c (Some parsedData) b = ws_close c b.
Proof.
  intros Hev H. rewrite (chat_on_message_parsed _ _ _ _ _ _ Hev).
  unfold dispatch, authenticate. simpl.
  destruct (truthy (prop parsedData "token")); simpl; [| done].
  destruct H as [H | ->]; [discriminate | reflexivity].
Qed.

(** A verifier that raises: the [catch] of the listener logs the error;
    the socket is not closed and nothing is sent. *)
Lemma authenticate_raising_is_only_logged verifyToken f b c parsedData :
  get_prop parsedData "event" = Some (JStr "authenticate") ->
  truthy (prop parsedData "token") = true ->
  verifyToken (prop parsedData "token") = VerifyThrows ->
  on_message verifyToken f c (Some parsedData) b
  = console_log "WebSocket message handling error:" [] b.
Proof.
  intros Hev Htok Hver. rewrite (chat_on_message_parsed _ _ _ _ _ _ Hev).
  unfold dispatch, authenticate. simpl. by rewrite Htok, Hver.
Qed.

(** C8, at the failing input: in the chat and location broker a missing
    credential closes the connection, and a credential whose verification
    raises leaves it open without any envelope. *)
Theorem chat_authentication_failures_diverge :
  let b := run Samples.sample_verify init [Connection] in
  let missing := JObj [("event", JStr "authenticate")] in
  let rejected := Samples.authenticate_request "expired" in
  let b1 := step Samples.sample_verify b (Message 0 (Some missing) healthy) in
  let b2 := step Samples.sample_verify b (Message 0 (Some rejected) healthy) in
  Samples.sample_verify (prop rejected "token") = VerifyThrows
  /\ effects b1 = [Close 0] /\ is_open b1 0 = false
  /\ effects b2 = [] /\ is_open b2 0 = true
  /\ console b2 = console b ++ [("WebSocket message handling error:", [])].
Proof. vm_compute. repeat split; reflexivity. Qed.

(** ** What the handlers leave alone *)

Lemma listening_alter_userId b c id c' :
  match alter (with_userId id) c (sockets b) !! c' with
  | Some ws => match readyState ws with CLOSED => false | _ => true end
  | None => false
  end = listening b c'.
Proof.
  unfold listening. rewrite lookup_alter. case_decide; [subst c' | done].
  by destruct (sockets b !! c).
Qed.

Lemma listening_alter_closing b c c' :
  match alter start_closing c (sockets b) !! c' with
  | Some ws => match readyState ws with CLOSED => false | _ => true end
  | None => false
  end = listening b c'.
Proof.
  unfold listening. rewrite lookup_alter. case_decide; [subst c' | done].
  destruct (sockets b !! c) as [ws|]; simpl; [| done].
  unfold start_closing. by destruct (readyState ws) eqn:E; simpl; rewrite ?E.
Qed.

(** Case analysis on the tests of a handler; the loops are replaced by
    their effect and the state that results is read off. *)
Ltac chat_frame :=
  cbv zeta;
  repeat match goal with
    | |- context [if ?x then _ else _] => destruct x
    | |- context [match ?x with _ => _ end] => destruct x
    end;
  unfold broadcastToAll;
  repeat match goal with
    | |- context [foldl (fun b c => if is_open b c then ws_send c ?m b else b)
                    ?b0 ?l] =>
        change (foldl (fun b c => if is_open b c then ws_send c m b else b) b0 l)
          with (foldl (send_if_open m) b0 l);
        rewrite send_each
    end;
  (split;
   [ reflexivity
   | intros ?; unfold listening; simpl;
     first [ reflexivity
           | apply listening_alter_userId
           | apply listening_alter_closing ]
   | simpl; first [ left; reflexivity | right; eexists _, _; reflexivity ] ]).

Section Frames.

Variable verifyToken : json -> VerifyResult.

Lemma chat_frame_authenticate c parsedData b :
  frame b (state_of (authenticate verifyToken c parsedData b)).
Proof. unfold authenticate. chat_frame. Qed.

Lemma frame_locationUpdate f c parsedData b :
  frame b (state_of (locationUpdate f c parsedData b)).
Proof. unfold locationUpdate. chat_frame. Qed.

Lemma frame_subscribeToLocation c parsedData b :
  frame b (state_of (subscribeToLocation c parsedData b)).
Proof. unfold subscribeToLocation. chat_frame. Qed.

Lemma frame_message f c parsedData b :
  frame b (state_of (message f c parsedData b)).
Proof. unfold message. chat_frame. Qed.

Lemma frame_fetchChats f c parsedData b :
  frame b (state_of (fetchChats f c parsedData b)).
Proof. unfold fetchChats. chat_frame. Qed.

Lemma frame_unReadMessages f c parsedData b :
  frame b (state_of (unReadMessages f c parsedData b)).
Proof. unfold unReadMessages. chat_frame. Qed.

Lemma frame_messageList f c b :
  frame b (state_of (messageList f c b)).
Proof. unfold messageList. chat_frame. Qed.

Lemma frame_dispatch f c parsedData event b :
  frame b (state_of (dispatch verifyToken f c parsedData event b)).
Proof.
  unfold dispatch.
  repeat match goal with
    | |- context [if ?x then _ else _] => destruct x
    end;
  auto using chat_frame_authenticate, frame_locationUpdate,
    frame_subscribeToLocation, frame_message, frame_fetchChats,
    frame_unReadMessages, frame_messageList.
  by split; [| | left].
Qed.

Lemma chat_frame_on_message f c data b :
  frame b (on_message verifyToken f c data b).
Proof.
  unfold on_message.
  destruct (data ≫= _) as [[parsedData event]|].
  - pose proof (frame_dispatch f c parsedData event b) as [H1 H2 H3].
    destruct (dispatch verifyToken f c parsedData event b); by split.
  - by split; [| | left].
Qed.

End Frames.

(** ** The representation invariant *)

Lemma existsb_eqb_In c l : existsb (Nat.eqb c) l = true <-> In c l.
Proof.
  rewrite existsb_exists. split.
  - by intros (x & Hx & ->%Nat.eqb_eq).
  - intros H. exists c. split; [done | apply Nat.eqb_refl].
Qed.

Lemma set_add_In c l : In c (set_add c l).
Proof.
  unfold set_add. destruct (existsb (Nat.eqb c) l) eqn:E.
  - by apply existsb_eqb_In.
  - apply in_app_iff. right. by left.
Qed.

Lemma set_add_NoDup c l : List.NoDup l -> List.NoDup (set_add c l).
Proof.
  intros Hl. unfold set_add. destruct (existsb (Nat.eqb c) l) eqn:E; [done |].
  apply List.NoDup_app; [done | repeat constructor; by intros [] |].
  intros x Hx [<- | []]. apply existsb_eqb_In in Hx. congruence.
Qed.

Lemma set_delete_In c c' l : In c' (set_delete c l) <-> In c' l /\ c' <> c.
Proof.
  unfold set_delete. rewrite filter_In, negb_true_iff, Nat.eqb_neq. tauto.
Qed.

Lemma subscribe_sets key c index :
  (forall k l, In (k, l) index -> List.NoDup l) ->
  forall k l, In (k, l) (subscribe key c index) -> List.NoDup l.
Proof.
  induction index as [|[k0 l0] index IH]; intros H k l; simpl.
  - intros [[= <- <-] | []]. repeat constructor. by intros [].
  - destruct (same_key k0 key).
    + intros [[= <- <-] | Hin].
      * apply set_add_NoDup, (H k0). by left.
      * apply (H k). by right.
    + intros [[= <- <-] | Hin].
      * apply (H k0). by left.
      * apply IH with k; [| done]. intros k' l' Hin'. apply (H k'). by right.
Qed.

Lemma unsubscribe_all_sets c index :
  (forall k l, In (k, l) index -> List.NoDup l) ->
  forall k l, In (k, l) (unsubscribe_all c index) -> List.NoDup l.
Proof.
  intros H k l. unfold unsubscribe_all. rewrite in_map_iff.
  intros ([k0 l0] & [= <- <-] & Hin). apply List.NoDup_filter, (H k0 l0 Hin).
Qed.

Lemma chat_wf_frame b b' : wf b -> frame b b' -> wf b'.
Proof.
  intros [H1 H2] [Hc Hl Hi]. split.
  - intros c. rewrite Hl, Hc. apply H1.
  - destruct Hi as [-> | (k & c & ->)]; [done | by apply subscribe_sets].
Qed.

Lemma wf_boot s : wf (boot s).
Proof.
  split; simpl.
  - intros c. unfold listening. simpl. by rewrite lookup_empty.
  - intros k l [].
Qed.

Lemma chat_wf_on_connection b : wf b -> wf (on_connection b).
Proof.
  intros [H1 H2]. unfold on_connection. split; simpl; [| done].
  intros c. unfold listening. simpl. rewrite in_app_iff, lookup_insert.
  case_decide as Hc.
  - intros _. right. by left.
  - intros H. left. by apply H1.
Qed.

Lemma wf_closed c b : wf b -> wf (on_close c (transport_closed c b)).
Proof.
  intros [H1 H2].
  assert (wf (transport_closed c b)) as [H1' H2'].
  { split; simpl; [| done]. intros c'. unfold listening. simpl.
    rewrite lookup_alter, filter_In. case_decide as Hc.
    - subst c'. by destruct (sockets b !! c).
    - intros H. split; [by apply H1 |].
      apply negb_true_iff, Nat.eqb_neq. congruence. }
  set (b1 := transport_closed c b) in *. unfold on_close.
  destruct (id_of_conn b1 c) as [uid|]; [| by split].
  destruct (has_identity (Some uid)); [| by split].
  rewrite broadcastToAll_spec. split; simpl; [done |].
  by apply unsubscribe_all_sets.
Qed.

Lemma chat_wf_step verifyToken b ev : wf b -> wf (step verifyToken b ev).
Proof.
  intros Hwf. destruct ev as [| c data f | c]; simpl.
  - by apply chat_wf_on_connection.
  - destruct (listening b c); [| done].
    eapply chat_wf_frame; [exact Hwf | apply chat_frame_on_message].
  - destruct (listening b c); [| done]. by apply wf_closed.
Qed.

Lemma chat_reachable_wf verifyToken b : reachable verifyToken b -> wf b.
Proof.
  intros (s & evs & ->). unfold run.
  pose proof (wf_boot s) as Hwf. revert Hwf. generalize (boot s).
  induction evs as [|ev evs IH]; intros b Hb; simpl; [done |].
  by apply IH, chat_wf_step.
Qed.

(** ** Presence *)

Lemma is_open_update_userId b c id c' :
  is_open (update_socket c (with_userId id) b) c' = is_open b c'.
Proof.
  unfold is_open. simpl. rewrite lookup_alter. case_decide; [subst c' | done].
  by destruct (sockets b !! c).
Qed.

Lemma is_open_transport_closed b c c' :
  c' <> c -> is_open (transport_closed c b) c' = is_open b c'.
Proof. intros Hne. unfold is_open. simpl. by rewrite lookup_alter_ne. Qed.

Lemma id_of_conn_transport_closed b c c' :
  id_of_conn (transport_closed c b) c' = id_of_conn b c'.
Proof.
  unfold id_of_conn. simpl. rewrite lookup_alter. case_decide; [subst c' | done].
  by destruct (sockets b !! c).
Qed.

(** A successful [authenticate]. *)
Lemma authenticate_success verifyToken f b c parsedData id role email :
  get_prop parsedData "event" = Some (JStr "authenticate") ->
  truthy (prop parsedData "token") = true ->
  verifyToken (prop parsedData "token") = Verified id role email ->
  on_message verifyToken f c (Some parsedData) b =
  set_effects
    (effects b ++ List.map (fun c' => Send c' (userStatus (JStr id) true))
                    (List.filter (is_open b) (clients b)))
    (set_userSockets (<[id := c]> (userSockets b))
       (set_onlineUsers ({[ id ]} ∪ onlineUsers b)
          (update_socket c (with_userId id) b))).
Proof.
  intros Hev Htok Hver. rewrite (chat_on_message_parsed _ _ _ _ _ _ Hev).
  unfold dispatch, authenticate. simpl. rewrite Htok, Hver. simpl.
  rewrite broadcastToAll_spec. simpl. do 3 f_equal.
  apply List.filter_ext. intros c'. apply is_open_update_userId.
Qed.

(** The [close] of a connection that carries an identity. *)
Lemma close_with_identity verifyToken b c uid :
  listening b c = true -> id_of_conn b c = Some uid -> uid <> "" ->
  step verifyToken b (Closed c) =
  console_log "User disconnected" []
    (set_locationSubscribers (unsubscribe_all c (locationSubscribers b))
       (set_effects
          (effects b ++ List.map (fun c' => Send c' (userStatus (JStr uid) false))
                          (List.filter (is_open b)
                             (List.filter (fun c' => negb (Nat.eqb c' c))
                                (clients b))))
          (set_userSockets (delete uid (userSockets b))
             (set_onlineUsers (onlineUsers b ∖ {[ uid ]})
                (transport_closed c b))))).
Proof.
  intros Hl Hid Hne. simpl. rewrite Hl. unfold on_close.
  rewrite id_of_conn_transport_closed, Hid, (has_identity_Some _ Hne).
  rewrite broadcastToAll_spec. simpl. do 5 f_equal.
  apply List.filter_ext_in. intros c' [_ Hc']%filter_In.
  apply negb_true_iff, Nat.eqb_neq in Hc'.
  by apply (is_open_transport_closed b c c').
Qed.

(** C5, as stated, fails: a connection that authenticates is itself among
    the open connections and is sent its own [userStatus] envelope. *)
Lemma authenticating_connection_is_notified_too :
  let b := run Samples.sample_verify init [Connection] in
  let b' := step Samples.sample_verify b
              (Message 0 (Some (Samples.authenticate_request "alice")) healthy) in
  id_of_conn b' 0 = Some "alice"
  /\ sent_to 0 (effects b')
     = [JObj [("event", JStr "userStatus");
              ("data", JObj [("userId", JStr "alice");
                             ("isOnline", JBool true)])]].
Proof. vm_compute. split; reflexivity. Qed.

(** C5, amended: in the chat and location broker, a successful
    [authenticate] sends the [userStatus] envelope with the identity as
    [userId] and with [isOnline] true to every open connection, the
    authenticating one included; the close of a connection that carries an
    identity sends the [userStatus] envelope with that identity and with
    [isOnline] false to every other connection that is open; a connection
    that is not open is skipped. *)
Theorem presence_is_broadcast_to_open_connections verifyToken f b c ws :
  sockets b !! c = Some ws ->
  (forall parsedData id role email,
      get_prop parsedData "event" = Some (JStr "authenticate") ->
      truthy (prop parsedData "token") = true ->
      verifyToken (prop parsedData "token") = Verified id role email ->
      let b' := on_message verifyToken f c (Some parsedData) b in
      let online :=
        JObj [("event", JStr "userStatus");
              ("data", JObj [("userId", JStr id); ("isOnline", JBool true)])] in
      effects b'
      = effects b ++ List.map (fun c' => Send c' online)
                       (List.filter (is_open b) (clients b))
      /\ (readyState ws = OPEN -> In c (clients b) ->
          In (Send c online) (drop (length (effects b)) (effects b'))))
  /\ (forall uid,
        readyState ws <> CLOSED -> userId ws = Some uid -> uid <> "" ->
        let offline :=
          JObj [("event", JStr "userStatus");
                ("data", JObj [("userId", JStr uid);
                               ("isOnline", JBool false)])] in
        effects (step verifyToken b (Closed c))
        = effects b ++ List.map (fun c' => Send c' offline)
                         (List.filter (is_open b)
                            (List.filter (fun c' => negb (Nat.eqb c' c))
                               (clients b)))).
Proof.
  intros Hws. split.
  - intros parsedData id role email Hev Htok Hver b' online.
    assert (Honline : online = userStatus (JStr id) true) by reflexivity.
    clearbody online. subst b' online.
    rewrite (authenticate_success _ _ _ _ _ _ _ _ Hev Htok Hver). simpl.
    split; [done |]. intros Hopen Hc.
    rewrite drop_app_length. apply in_map_iff. exists c.
    split; [done |]. apply filter_In. split; [done |].
    unfold is_open. by rewrite Hws, Hopen.
  - intros uid Hopen Hid Hne offline.
    assert (Hoffline : offline = userStatus (JStr uid) false) by reflexivity.
    clearbody offline. subst offline.
    rewrite (close_with_identity verifyToken b c uid); [done | | | done].
    + unfold listening. rewrite Hws. by destruct (readyState ws).
    + unfold id_of_conn. by rewrite Hws.
Qed.

Lemma presence_is_broadcast_to_open_connections_witness :
  let b := run Samples.sample_verify init
             [Connection;
              Message 0 (Some (Samples.authenticate_request "alice")) healthy;
              Connection] in
  effects (on_message Samples.sample_verify healthy 1
             (Some (Samples.authenticate_request "bob")) b)
  = effects b
    ++ [Send 0 (JObj [("event", JStr "userStatus");
                      ("data", JObj [("userId", JStr "bob");
                                     ("isOnline", JBool true)])]);
        Send 1 (JObj [("event", JStr "userStatus");
                      ("data", JObj [("userId", JStr "bob");
                                     ("isOnline", JBool true)])])]
  /\ effects (step Samples.sample_verify b (Closed 0))
     = effects b
       ++ [Send 1 (JObj [("event", JStr "userStatus");
                         ("data", JObj [("userId", JStr "alice");
                                        ("isOnline", JBool false)])])].
Proof.
  intros b. split.
  - destruct (presence_is_broadcast_to_open_connections Samples.sample_verify
                healthy b 1 {| userId := None; readyState := OPEN |})
      as (Hauth & _); [vm_compute; reflexivity |].
    destruct (Hauth (Samples.authenticate_request "bob")
                "bob" UserRole_Client "bob") as (Heq & _);
      [reflexivity | reflexivity | reflexivity |].
    rewrite Heq. vm_compute. reflexivity.
  - destruct (presence_is_broadcast_to_open_connections Samples.sample_verify
                healthy b 0 {| userId := Some "alice"; readyState := OPEN |})
      as (_ & Hclose); [vm_compute; reflexivity |].
    rewrite (Hclose "alice"); [| discriminate | reflexivity | discriminate].
    vm_compute. reflexivity.
Defined.

(** ** Two connections of one identity *)

(** C10: in the chat and location broker an [authenticate] closes no
    connection and evicts none, and the cleanup on close goes by the
    identity alone: when [c1] carries identity [U] and [c2] authenticates
    as [U] after it, the close of [c1] removes [U] from the registry and
    from the socket table, where the entry of [U] was the open [c2], and
    broadcasts the [userStatus] envelope with [userId] [U] and [isOnline]
    false, to [c2] as well, which stays connected. *)
Theorem close_of_older_connection_unregisters_newer
    verifyToken f b c1 c2 ws1 ws2 U parsedData role email :
  reachable verifyToken b ->
  c1 <> c2 ->
  sockets b !! c1 = Some ws1 -> readyState ws1 = OPEN -> userId ws1 = Some U ->
  U <> "" ->
  sockets b !! c2 = Some ws2 -> readyState ws2 = OPEN ->
  get_prop parsedData "event" = Some (JStr "authenticate") ->
  truthy (prop parsedData "token") = true ->
  verifyToken (prop parsedData "token") = Verified U role email ->
  let b1 := step verifyToken b (Message c2 (Some parsedData) f) in
  let b2 := step verifyToken b1 (Closed c1) in
  (* the second authentication closes and evicts nothing *)
  (forall c, c <> c2 -> sockets b1 !! c = sockets b !! c)
  /\ clients b1 = clients b
  /\ (forall c, ~ In (Close c) (drop (length (effects b)) (effects b1))
              /\ ~ In (Terminate c) (drop (length (effects b)) (effects b1)))
  /\ (U ∈ onlineUsers b1) /\ userSockets b1 !! U = Some c2
  (* the close of the first connection takes the identity offline *)
  /\ (U ∉ onlineUsers b2) /\ userSockets b2 !! U = None
  /\ In (Send c2 (JObj [("event", JStr "userStatus");
                        ("data", JObj [("userId", JStr U);
                                       ("isOnline", JBool false)])]))
        (drop (length (effects b1)) (effects b2))
  (* while the second connection is still there, open, as [U] *)
  /\ sockets b2 !! c2 = Some (with_userId U ws2)
  /\ is_open b2 c2 = true
  /\ In c2 (clients b2).
Proof.
  intros Hreach Hne Hws1 Hopen1 Hid1 HU Hws2 Hopen2 Hev Htok Hver b1 b2.
  apply chat_reachable_wf in Hreach as [Hlisten _].
  assert (In c2 (clients b)) as Hc2.
  { apply Hlisten. unfold listening. by rewrite Hws2, Hopen2. }
  assert (Hb1 : b1 = on_message verifyToken f c2 (Some parsedData) b).
  { subst b1. simpl. unfold listening. by rewrite Hws2, Hopen2. }
  rewrite (authenticate_success _ _ _ _ _ _ _ _ Hev Htok Hver) in Hb1.
  assert (Hs1 : sockets b1 !! c1 = Some ws1).
  { rewrite Hb1. simpl. by rewrite lookup_alter_ne. }
  assert (Hs2 : sockets b1 !! c2 = Some (with_userId U ws2)).
  { rewrite Hb1. simpl. by rewrite lookup_alter_eq, Hws2. }
  assert (Hb2 : b2 = _) by
    (subst b2; apply (close_with_identity verifyToken b1 c1 U);
     [unfold listening; by rewrite Hs1, Hopen1
     | unfold id_of_conn; by rewrite Hs1, Hid1 | done]).
  split; [intros c Hc; rewrite Hb1; simpl; by rewrite lookup_alter_ne |].
  split; [by rewrite Hb1 |].
  split.
  { intros c. rewrite Hb1. simpl. rewrite drop_app_length.
    split; intros (c' & [=] & _)%in_map_iff. }
  split; [rewrite Hb1; simpl; set_solver |].
  split; [rewrite Hb1; simpl; apply lookup_insert_eq |].
  split; [rewrite Hb2; simpl; rewrite elem_of_difference, elem_of_singleton; tauto |].
  split; [rewrite Hb2; simpl; apply lookup_delete_eq |].
  split.
  { rewrite Hb2. simpl. rewrite drop_app_length. apply in_map_iff. exists c2.
    split; [done |]. apply filter_In. split.
    - apply filter_In. split; [by rewrite Hb1 |].
      apply negb_true_iff, Nat.eqb_neq. congruence.
    - unfold is_open. rewrite Hs2. simpl. by rewrite Hopen2. }
  assert (Hs2' : sockets b2 !! c2 = Some (with_userId U ws2)).
  { rewrite Hb2. simpl. by rewrite lookup_alter_ne. }
  split; [done |]. split.
  - unfold is_open. rewrite Hs2'. simpl. by rewrite Hopen2.
  - rewrite Hb2. simpl. apply filter_In. split; [by rewrite Hb1 |].
    apply negb_true_iff, Nat.eqb_neq. congruence.
Qed.

Lemma close_of_older_connection_unregisters_newer_witness :
  let b := run Samples.sample_verify (boot {| rooms := []; chats := []; users := [] |})
             [Connection;
              Message 0 (Some (Samples.authenticate_request "alice")) healthy;
              Connection] in
  let b1 := step Samples.sample_verify b
              (Message 1 (Some (Samples.authenticate_request "alice")) healthy) in
  let b2 := step Samples.sample_verify b1 (Closed 0) in
  userSockets b1 !! "alice" = Some 1
  /\ userSockets b2 !! "alice" = None
  /\ In (Send 1 (JObj [("event", JStr "userStatus");
                       ("data", JObj [("userId", JStr "alice");
                                      ("isOnline", JBool false)])]))
        (drop (length (effects b1)) (effects b2))
  /\ is_open b2 1 = true.
Proof.
  intros b b1 b2.
  destruct (close_of_older_connection_unregisters_newer Samples.sample_verify
              healthy b 0 1
              {| userId := Some "alice"; readyState := OPEN |}
              {| userId := None; readyState := OPEN |}
              "alice" (Samples.authenticate_request "alice")
              UserRole_Client "alice")
    as (_ & _ & _ & _ & H1 & _ & H2 & Hsent & _ & H3 & _).
  - eexists _, _. reflexivity.
  - discriminate.
  - vm_compute; reflexivity.
  - reflexivity.
  - reflexivity.
  - discriminate.
  - vm_compute; reflexivity.
  - reflexivity.
  - reflexivity.
  - reflexivity.
  - reflexivity.
  - split; [exact H1 |]. split; [exact H2 |]. split; [exact Hsent | exact H3].
Defined.

(** ** Live location *)

Lemma subscribers_of_subscribe key c index :
  same_key key key = true ->
  subscribers_of key (subscribe key c index)
  = Some (set_add c (default [] (subscribers_of key index))).
Proof.
  intros Hkey. induction index as [|[k l] index IH]; simpl.
  - by rewrite Hkey.
  - destruct (same_key k key) eqn:E; simpl; by rewrite E.
Qed.

Lemma subscribers_of_unsubscribe_all key c index :
  subscribers_of key (unsubscribe_all c index)
  = set_delete c <$> subscribers_of key index.
Proof.
  induction index as [|[k l] index IH]; simpl; [done |].
  by destruct (same_key k key).
Qed.

Lemma subscribers_of_In key index l :
  subscribers_of key index = Some l -> exists k, In (k, l) index.
Proof.
  induction index as [|[k0 l0] index IH]; simpl; [done |].
  destruct (same_key k0 key).
  - intros [= <-]. exists k0. by left.
  - intros (k & Hk)%IH. exists k. by right.
Qed.

Lemma sent_to_app c es1 es2 : sent_to c (es1 ++ es2) = sent_to c es1 ++ sent_to c es2.
Proof. apply omap_app. Qed.

Lemma sent_to_absent c message l :
  ~ In c l -> sent_to c (List.map (fun s => Send s message) l) = [].
Proof.
  induction l as [|x l IH]; intros Hc; [done |].
  unfold sent_to in *. simpl. destruct (Nat.eqb x c) eqn:E.
  - apply Nat.eqb_eq in E. subst x. destruct Hc. by left.
  - apply IH. intros H. apply Hc. by right.
Qed.

Lemma sent_to_once c message l :
  List.NoDup l -> In c l ->
  sent_to c (List.map (fun s => Send s message) l) = [message].
Proof.
  induction l as [|x l IH]; intros Hnd Hc; [destruct Hc |].
  apply List.NoDup_cons_iff in Hnd as [Hx Hnd].
  change (sent_to c (List.map (fun s => Send s message) (x :: l)))
    with (sent_to c ([Send x message] ++ List.map (fun s => Send s message) l)).
  rewrite sent_to_app. destruct Hc as [-> | Hc].
  - rewrite (sent_to_absent c message l Hx). unfold sent_to. simpl.
    by rewrite Nat.eqb_refl.
  - rewrite (IH Hnd Hc). unfold sent_to. simpl.
    destruct (Nat.eqb x c) eqn:E; [| done].
    apply Nat.eqb_eq in E. subst x. contradiction.
Qed.

(** A [subscribeToLocation] event from an authenticated connection. *)
Lemma subscribe_event verifyToken f b c U T parsedData :
  id_of_conn b c = Some U -> U <> "" ->
  get_prop parsedData "event" = Some (JStr "subscribeToLocation") ->
  prop parsedData "targetUserId" = JStr T -> T <> "" ->
  on_message verifyToken f c (Some parsedData) b =
  console_log "subscribed to location of" [JStr U; JStr T]
    (set_locationSubscribers
       (subscribe (JStr T) c (locationSubscribers b)) b).
Proof.
  intros Hid HU Hev Htarget HT. rewrite (chat_on_message_parsed _ _ _ _ _ _ Hev).
  unfold dispatch. simpl. unfold subscribeToLocation.
  rewrite Hid, (has_identity_Some _ HU), Htarget, (truthy_JStr _ HT). reflexivity.
Qed.

(** A [locationUpdate] event from an authenticated connection: the report
    goes to the subscribers of its identity that are open, whether the
    store takes the position or not. *)
Lemma locationUpdate_event verifyToken f b c T parsedData :
  id_of_conn b c = Some T -> T <> "" ->
  get_prop parsedData "event" = Some (JStr "locationUpdate") ->
  nullish (prop parsedData "lat") = false ->
  nullish (prop parsedData "lng") = false ->
  let b' := on_message verifyToken f c (Some parsedData) b in
  effects b' =
    effects b
    ++ List.map (fun s => Send s (locationUpdate_envelope T
                                    (prop parsedData "lat") (prop parsedData "lng")))
         (List.filter (is_open b)
            (default [] (subscribers_of (JStr T) (locationSubscribers b))))
  /\ sockets b' = sockets b /\ clients b' = clients b
  /\ locationSubscribers b' = locationSubscribers b
  /\ userLocations b'
     = <[T := (prop parsedData "lat", prop parsedData "lng")]> (userLocations b).
Proof.
  intros Hid HT Hev Hlat Hlng b'. subst b'.
  rewrite (chat_on_message_parsed _ _ _ _ _ _ Hev). unfold dispatch. simpl.
  unfold locationUpdate. rewrite Hid, (has_identity_Some _ HT), Hlat, Hlng. simpl.
  destruct (user_update_location _ _ _ _ _); simpl;
    (destruct (subscribers_of (JStr T) (locationSubscribers b)) as [l|];
     simpl; [| by rewrite app_nil_r]);
    match goal with
    | |- context [foldl ?g ?b0 l] =>
        change (foldl g b0 l)
          with (foldl (send_if_open
                         (locationUpdate_envelope T (prop parsedData "lat")
                            (prop parsedData "lng"))) b0 l)
    end;
    rewrite send_each; done.
Qed.

(** C4: once the connection of [U] has subscribed to [T], a location
    report of [T] sends exactly one [locationUpdate] envelope, whose data
    are [T] as [userId] and the [lat] and [lng] of the report, to the
    connection of [U]; after that
    connection has closed, a report of [T] sends it nothing, and sends
    nothing at all when [U] was the only subscriber. *)
Theorem location_reaches_subscriber_until_close
    verifyToken f1 f2 f3 b cu ct wsu wst U T subscription report :
  reachable verifyToken b ->
  sockets b !! cu = Some wsu -> readyState wsu = OPEN ->
  userId wsu = Some U -> U <> "" ->
  sockets b !! ct = Some wst -> readyState wst <> CLOSED ->
  userId wst = Some T -> T <> "" ->
  get_prop subscription "event" = Some (JStr "subscribeToLocation") ->
  prop subscription "targetUserId" = JStr T ->
  get_prop report "event" = Some (JStr "locationUpdate") ->
  nullish (prop report "lat") = false ->
  nullish (prop report "lng") = false ->
  let envelope :=
    JObj [("event", JStr "locationUpdate");
          ("data", JObj [("userId", JStr T);
                         ("lat", prop report "lat");
                         ("lng", prop report "lng")])] in
  let b1 := step verifyToken b (Message cu (Some subscription) f1) in
  let b2 := step verifyToken b1 (Message ct (Some report) f2) in
  let b3 := step verifyToken b2 (Closed cu) in
  let b4 := step verifyToken b3 (Message ct (Some report) f3) in
  sent_to cu (drop (length (effects b1)) (effects b2)) = [envelope]
  /\ sent_to cu (drop (length (effects b3)) (effects b4)) = []
  /\ (subscribers_of (JStr T) (locationSubscribers b) = None ->
      effects b2 = effects b1 ++ [Send cu envelope]
      /\ effects b4 = effects b3).
Proof.
  intros Hreach Hwsu Hopenu Hidu HU Hwst Hopent Hidt HT Hsub Htarget Hrep
    Hlat Hlng envelope b1 b2 b3 b4.
  assert (Henvelope : envelope
            = locationUpdate_envelope T (prop report "lat") (prop report "lng"))
    by reflexivity.
  clearbody envelope. subst envelope.
  set (envelope :=
         locationUpdate_envelope T (prop report "lat") (prop report "lng")).
  apply chat_reachable_wf in Hreach as [_ Hsets].
  assert (Hlu : listening b cu = true)
    by (unfold listening; by rewrite Hwsu, Hopenu).
  assert (Hlt : listening b ct = true)
    by (unfold listening; rewrite Hwst; by destruct (readyState wst)).
  set (others := default [] (subscribers_of (JStr T) (locationSubscribers b))).
  assert (Hothers : List.NoDup others).
  { subst others.
    destruct (subscribers_of (JStr T) (locationSubscribers b)) as [l|] eqn:E;
      simpl; [| constructor].
    destruct (subscribers_of_In _ _ _ E) as (k & Hk). by apply (Hsets k). }
  (* the subscription *)
  assert (Hb1 : b1 = console_log "subscribed to location of" [JStr U; JStr T]
                       (set_locationSubscribers
                          (subscribe (JStr T) cu (locationSubscribers b)) b)).
  { subst b1. simpl. rewrite Hlu.
    apply subscribe_event; try done. unfold id_of_conn. by rewrite Hwsu. }
  assert (Hs1 : sockets b1 = sockets b) by (by rewrite Hb1).
  assert (Hi1 : subscribers_of (JStr T) (locationSubscribers b1)
                = Some (set_add cu others)).
  { rewrite Hb1. simpl. apply subscribers_of_subscribe. simpl.
    apply String.eqb_refl. }
  (* the first report *)
  assert (Hb2 : b2 = on_message verifyToken f2 ct (Some report) b1).
  { subst b2. simpl. unfold listening in *. by rewrite Hs1, Hlt. }
  assert (Hidt1 : id_of_conn b1 ct = Some T)
    by (unfold id_of_conn; by rewrite Hs1, Hwst).
  destruct (locationUpdate_event verifyToken f2 b1 ct T report
              Hidt1 HT Hrep Hlat Hlng) as (He2 & Hs2 & Hc2 & Hi2 & _).
  rewrite <- Hb2 in He2, Hs2, Hc2, Hi2. rewrite Hi1 in He2. simpl in He2.
  fold envelope in He2.
  assert (Hopen1 : is_open b1 cu = true)
    by (unfold is_open; by rewrite Hs1, Hwsu, Hopenu).
  (* the close of the subscriber *)
  assert (Hb3 : b3 = _) by
    (subst b3; apply (close_with_identity verifyToken b2 cu U);
     [unfold listening in *; by rewrite Hs2, Hs1
     | unfold id_of_conn; by rewrite Hs2, Hs1, Hwsu | done]).
  assert (Hi3 : subscribers_of (JStr T) (locationSubscribers b3)
                = Some (set_delete cu (set_add cu others))).
  { rewrite Hb3. simpl. by rewrite subscribers_of_unsubscribe_all, Hi2, Hi1. }
  assert (Hs3 : sockets b3 = alter (with_readyState CLOSED) cu (sockets b))
    by (rewrite Hb3; simpl; by rewrite Hs2, Hs1).
  (* the second report *)
  assert (He4 : exists l,
             effects b4 = effects b3 ++ List.map (fun s => Send s envelope) l
             /\ (forall s, In s l -> In s (set_delete cu (set_add cu others)))).
  { destruct (decide (ct = cu)) as [-> | Hne].
    - exists []. split; [| intros s []]. rewrite app_nil_r. subst b4. simpl.
      unfold listening. rewrite Hs3, lookup_alter_eq, Hwsu. reflexivity.
    - assert (Hb4 : b4 = on_message verifyToken f3 ct (Some report) b3).
      { subst b4. simpl. unfold listening in *.
        rewrite Hs3, lookup_alter_ne by done. by rewrite Hlt. }
      assert (Hidt3 : id_of_conn b3 ct = Some T).
      { unfold id_of_conn. rewrite Hs3, lookup_alter_ne by done. by rewrite Hwst. }
      destruct (locationUpdate_event verifyToken f3 b3 ct T report
                  Hidt3 HT Hrep Hlat Hlng) as (He4 & _).
      rewrite <- Hb4 in He4. rewrite Hi3 in He4. simpl in He4.
      eexists. split; [exact He4 |]. by intros s [Hs _]%filter_In. }
  destruct He4 as (l4 & He4 & Hl4).
  split; [| split].
  - rewrite He2, drop_app_length. apply sent_to_once.
    + by apply List.NoDup_filter, set_add_NoDup.
    + apply filter_In. split; [apply set_add_In | done].
  - rewrite He4, drop_app_length. apply sent_to_absent.
    intros [_ Hcu]%Hl4%set_delete_In. done.
  - intros Hnone. subst others. rewrite Hnone in *. simpl in *.
    split.
    + rewrite He2. unfold set_add. simpl. by rewrite Hopen1.
    + rewrite He4. destruct l4 as [|s l4]; [by rewrite app_nil_r |].
      specialize (Hl4 s (or_introl eq_refl)).
      unfold set_add, set_delete in Hl4. simpl in Hl4.
      rewrite Nat.eqb_refl in Hl4. destruct Hl4.
Qed.

Lemma location_reaches_subscriber_until_close_witness :
  let b := run Samples.sample_verify (boot {| rooms := []; chats := []; users := [] |})
             [Connection;
              Message 0 (Some (Samples.authenticate_request "uma")) healthy;
              Connection;
              Message 1 (Some (Samples.authenticate_request "tom")) healthy] in
  let b1 := step Samples.sample_verify b
              (Message 0 (Some (Samples.subscribe_request "tom")) healthy) in
  let b2 := step Samples.sample_verify b1
              (Message 1 (Some (Samples.location_report 10 20)) healthy) in
  let b3 := step Samples.sample_verify b2 (Closed 0) in
  let b4 := step Samples.sample_verify b3
              (Message 1 (Some (Samples.location_report 10 20)) healthy) in
  sent_to 0 (drop (length (effects b1)) (effects b2))
  = [JObj [("event", JStr "locationUpdate");
           ("data", JObj [("userId", JStr "tom");
                          ("lat", JNum 10); ("lng", JNum 20)])]]
  /\ effects b4 = effects b3.
Proof.
  intros b b1 b2 b3 b4.
  destruct (location_reaches_subscriber_until_close Samples.sample_verify
              healthy healthy healthy b 0 1
              {| userId := Some "uma"; readyState := OPEN |}
              {| userId := Some "tom"; readyState := OPEN |}
              "uma" "tom" (Samples.subscribe_request "tom")
              (Samples.location_report 10 20))
    as (Hone & _ & Hzero).
  - eexists _, _. reflexivity.
  - vm_compute; reflexivity.
  - reflexivity.
  - reflexivity.
  - discriminate.
  - vm_compute; reflexivity.
  - discriminate.
  - reflexivity.
  - discriminate.
  - reflexivity.
  - reflexivity.
  - reflexivity.
  - reflexivity.
  - reflexivity.
  - split; [exact Hone |]. apply Hzero. vm_compute. reflexivity.
Defined.

(** ** Events of a connection without an identity *)

(** Every case of the listener but [authenticate] tests the identity of
    the connection first and returns when there is none; an unknown event is
    logged.  No envelope is sent and no shared state changes. *)
Lemma unauthenticated_event_is_ignored verifyToken f b c parsedData event :
  has_identity (id_of_conn b c) = false ->
  get_prop parsedData "event" = Some event ->
  event <> JStr "authenticate" ->
  let b' := on_message verifyToken f c (Some parsedData) b in
  effects b' = effects b
  /\ sockets b' = sockets b /\ clients b' = clients b
  /\ onlineUsers b' = onlineUsers b /\ userSockets b' = userSockets b
  /\ userLocations b' = userLocations b
  /\ locationSubscribers b' = locationSubscribers b
  /\ store b' = store b.
Proof.
  intros Hid Hev Hne b'. subst b'.
  rewrite (chat_on_message_parsed _ _ _ _ _ _ Hev). unfold dispatch.
  destruct (str_is event "authenticate") eqn:E.
  { apply CallFacts.str_is_true in E. contradiction. }
  unfold locationUpdate, subscribeToLocation, message, fetchChats,
    unReadMessages, messageList.
  rewrite Hid. destruct (id_of_conn b c) as [uid|]; rewrite ?Hid; simpl;
    repeat match goal with
      | |- context [if ?x then _ else _] => destruct x
      end; done.
Qed.

End ChatFacts.

(** * The authentication gate, in both brokers *)

Module GateFacts.

(** C1, as stated, fails in the chat and location broker: a connection
    without an identity that sends [subscribeToLocation] is sent no error
    envelope, and nothing else. *)
Lemma unauthenticated_subscribe_gets_no_error :
  let b := ChatBroker.run Samples.sample_verify ChatBroker.init
             [ChatBroker.Connection] in
  let b' := ChatBroker.step Samples.sample_verify b
              (ChatBroker.Message 0 (Some (Samples.subscribe_request "tom"))
                 ChatBroker.healthy) in
  ChatBroker.id_of_conn b 0 = None
  /\ ChatBroker.effects b' = []
  /\ ~ In (error_envelope "Please authenticate first")
          (sent_to 0 (ChatBroker.effects b')).
Proof. vm_compute. repeat split. intros []. Qed.

(** C1, amended: for a connection without an identity and an envelope
    whose tag is not [authenticate], the call-signalling broker answers
    with the error envelope "Please authenticate first", the chat and
    location broker sends nothing at all, and neither changes any shared
    state: registry, role index, socket table, location map, subscription
    index and store stay as they are. *)
Theorem unauthenticated_envelope_changes_nothing verifyToken parsedData event :
  get_prop parsedData "event" = Some event ->
  event <> JStr "authenticate" ->
  (forall (b : CallBroker.Broker) c ws,
      CallBroker.sockets b !! c = Some ws ->
      has_identity (CallBroker.userId ws) = false ->
      let b' := CallBroker.on_message verifyToken c (Some parsedData) b in
      CallBroker.effects b'
      = CallBroker.effects b
        ++ [Send c (error_envelope "Please authenticate first")]
      /\ CallBroker.sockets b' = CallBroker.sockets b
      /\ CallBroker.clients b' = CallBroker.clients b
      /\ CallBroker.onlineUsers b' = CallBroker.onlineUsers b
      /\ CallBroker.onlineCouriers b' = CallBroker.onlineCouriers b)
  /\ (forall f (h : ChatBroker.Broker) c,
        has_identity (ChatBroker.id_of_conn h c) = false ->
        let h' := ChatBroker.on_message verifyToken f c (Some parsedData) h in
        ChatBroker.effects h' = ChatBroker.effects h
        /\ ChatBroker.sockets h' = ChatBroker.sockets h
        /\ ChatBroker.clients h' = ChatBroker.clients h
        /\ ChatBroker.onlineUsers h' = ChatBroker.onlineUsers h
        /\ ChatBroker.userSockets h' = ChatBroker.userSockets h
        /\ ChatBroker.userLocations h' = ChatBroker.userLocations h
        /\ ChatBroker.locationSubscribers h' = ChatBroker.locationSubscribers h
        /\ ChatBroker.store h' = ChatBroker.store h).
Proof.
  intros Hev Hne. split.
  - intros b c ws Hws Hid. by apply CallFacts.gate_rejects with ws event.
  - intros f h c Hid.
    by apply ChatFacts.unauthenticated_event_is_ignored with event.
Qed.

Lemma unauthenticated_envelope_changes_nothing_witness :
  let b := CallBroker.run Samples.sample_verify CallBroker.init
             [CallBroker.Connection "/chat"] in
  let h := ChatBroker.run Samples.sample_verify ChatBroker.init
             [ChatBroker.Connection] in
  let request := Samples.callUser_request "host-1" "audio" in
  CallBroker.effects (CallBroker.on_message Samples.sample_verify 0 (Some request) b)
  = CallBroker.effects b ++ [Send 0 (error_envelope "Please authenticate first")]
  /\ ChatBroker.effects
       (ChatBroker.on_message Samples.sample_verify ChatBroker.healthy 0
          (Some request) h)
     = ChatBroker.effects h.
Proof.
  intros b h request.
  destruct (unauthenticated_envelope_changes_nothing Samples.sample_verify
              request (JStr "callUser"))
    as (Hcall & Hchat); [reflexivity | discriminate |].
  split.
  - apply (Hcall b 0 (CallBroker.fresh_socket "/chat"));
      [vm_compute; reflexivity | reflexivity].
  - apply (Hchat ChatBroker.healthy h 0). vm_compute; reflexivity.
Defined.

End GateFacts.

(** * Further properties of the call-signalling broker *)

Module CallExtras.
Import CallBroker CallInvariants CallShapes CallFacts.

(** ** Messages that do not parse *)

(** X1: a message whose text does not parse, or parses to [null], is
    answered with the error envelope "Invalid message format", whether the
    connection is authenticated or not, and changes neither the sockets
    nor the registries. *)
Theorem malformed_message_is_answered verifyToken b c ws data :
  sockets b !! c = Some ws ->
  data = None \/ data = Some JNull ->
  let b' := on_message verifyToken c data b in
  effects b' = effects b ++ [Send c (error_envelope "Invalid message format")]
  /\ console b' = console b
  /\ sockets b' = sockets b /\ clients b' = clients b
  /\ onlineUsers b' = onlineUsers b /\ onlineCouriers b' = onlineCouriers b.
Proof.
  intros Hws [-> | ->] b'; subst b'; unfold on_message; rewrite Hws; done.
Qed.

Lemma malformed_message_is_answered_witness :
  effects (on_message Samples.sample_verify 1 (Some JNull) Samples.host_and_client)
  = effects Samples.host_and_client
    ++ [Send 1 (error_envelope "Invalid message format")].
Proof.
  apply (malformed_message_is_answered Samples.sample_verify
           Samples.host_and_client 1
           {| userId := Some "client-1"; userRole := Some UserRole_Client;
              userName := Some "client-1"; isAlive := true;
              path := "/chat"; readyState := OPEN |} (Some JNull)).
  - vm_compute; reflexivity.
  - right. reflexivity.
Defined.

(** ** Authentication *)

(** X2: a failed [authenticate] is answered with one error envelope, "Token
    is required for authentication" when the token is missing or falsy
    (the verifier is not consulted) and "Invalid token" when the verifier
    returns nothing or raises; the socket is not closed and keeps the
    identity it had, and the registries are untouched. *)
Theorem failed_authenticate_names_the_failure verifyToken b c ws parsedData :
  sockets b !! c = Some ws ->
  get_prop parsedData "event" = Some (JStr "authenticate") ->
  truthy (prop parsedData "token") = false
  \/ verifyToken (prop parsedData "token") = VerifyNull
  \/ verifyToken (prop parsedData "token") = VerifyThrows ->
  let b' := on_message verifyToken c (Some parsedData) b in
  effects b'
  = effects b
    ++ [Send c (error_envelope
                  (if truthy (prop parsedData "token")
                   then "Invalid token"
                   else "Token is required for authentication"))]
  /\ sockets b' = sockets b /\ clients b' = clients b
  /\ onlineUsers b' = onlineUsers b /\ onlineCouriers b' = onlineCouriers b.
Proof.
  intros Hws Hev Hfail b'. subst b'.
  rewrite (on_message_parsed _ _ _ _ _ _ Hws Hev). simpl.
  rewrite andb_false_r. unfold authenticate.
  destruct (truthy (prop parsedData "token")) eqn:Htok; simpl; [| done].
  destruct Hfail as [? | [-> | ->]]; [discriminate | done | done].
Qed.

Lemma failed_authenticate_names_the_failure_witness :
  effects (on_message Samples.sample_verify 1
             (Some (Samples.authenticate_request "expired"))
             Samples.client_and_newcomer)
  = effects Samples.client_and_newcomer ++ [Send 1 (error_envelope "Invalid token")].
Proof.
  apply (failed_authenticate_names_the_failure Samples.sample_verify
           Samples.client_and_newcomer 1 (fresh_socket "/chat")
           (Samples.authenticate_request "expired")).
  - vm_compute; reflexivity.
  - reflexivity.
  - right. right. reflexivity.
Defined.

(** The path of a socket is never rewritten by the eviction. *)
Lemma evict_existing_socket b c id role ws :
  sockets b !! c = Some ws ->
  exists ws', sockets (evict_existing c id role b) !! c = Some ws'
              /\ userId ws' = userId ws /\ userRole ws' = userRole ws
              /\ userName ws' = userName ws /\ isAlive ws' = isAlive ws
              /\ path ws' = path ws
              /\ (ws' = ws \/ ws' = start_closing ws).
Proof.
  intros Hws. unfold evict_existing. rewrite Hws.
  destruct (onlineUsers b !! id) as [[old p]|]; [| by exists ws; auto 10].
  destruct (String.eqb p (path ws)); [| by exists ws; auto 10].
  assert (exists ws', sockets (ws_close old b) !! c = Some ws'
            /\ userId ws' = userId ws /\ userRole ws' = userRole ws
            /\ userName ws' = userName ws /\ isAlive ws' = isAlive ws
            /\ path ws' = path ws
            /\ (ws' = ws \/ ws' = start_closing ws)) as H.
  { simpl. rewrite lookup_alter. case_decide; subst; rewrite Hws; simpl.
    - exists (start_closing ws). unfold start_closing.
      destruct (readyState ws); auto 10.
    - exists ws. auto 10. }
  by destruct (String.eqb role UserRole_Client).
Qed.

(** X3: a successful [authenticate] binds identity, role and name to the
    socket, enters the socket in the registry under the identity with the
    path of the socket, and answers with [authenticated]; the role index
    gets the socket when the role is [Client] and is left as it was for any
    other role; the entries of every other identity are untouched. *)
Theorem successful_authenticate_registers verifyToken b c ws parsedData id role email :
  sockets b !! c = Some ws ->
  get_prop parsedData "event" = Some (JStr "authenticate") ->
  truthy (prop parsedData "token") = true ->
  verifyToken (prop parsedData "token") = Verified id role email ->
  let b' := on_message verifyToken c (Some parsedData) b in
  (exists ws',
      sockets b' !! c = Some ws'
      /\ userId ws' = Some id /\ userRole ws' = Some role
      /\ userName ws' = Some email
      /\ path ws' = path ws /\ isAlive ws' = isAlive ws)
  /\ last (effects b') = Some (Send c (authenticated id role))
  /\ onlineUsers b' !! id = Some (c, path ws)
  /\ (role = UserRole_Client -> onlineCouriers b' !! id = Some c)
  /\ (role <> UserRole_Client ->
      onlineCouriers b' !! id = onlineCouriers b !! id)
  /\ (forall u, u <> id ->
        onlineUsers b' !! u = onlineUsers b !! u
        /\ onlineCouriers b' !! u = onlineCouriers b !! u).
Proof.
  intros Hws Hev Htok Hver b'. subst b'.
  rewrite (on_message_parsed _ _ _ _ _ _ Hws Hev). simpl.
  rewrite andb_false_r. unfold authenticate. rewrite Htok, Hver. simpl.
  set (b0 := console_log _ _ b).
  destruct (evict_existing_socket b0 c id role ws Hws)
    as (ws1 & Hws1 & Hi1 & Hr1 & Hn1 & Ha1 & Hp1 & _).
  assert (Hreg : forall u,
    onlineUsers (evict_existing c id role b0) !! u
      = (if decide (u = id)
         then onlineUsers (evict_existing c id role b0) !! id
         else onlineUsers b !! u)
    /\ onlineCouriers (evict_existing c id role b0) !! u
      = (if decide (u = id)
         then (if String.eqb role UserRole_Client
               then (if decide (onlineUsers (evict_existing c id role b0) !! id
                                = onlineUsers b !! id)
                     then onlineCouriers b !! id else None)
               else onlineCouriers b !! id)
         else onlineCouriers b !! u)).
  { intros u. unfold evict_existing. cbn [onlineUsers sockets b0 console_log set_console].
    rewrite Hws.
    destruct (onlineUsers b !! id) as [[old p]|] eqn:Hold.
    - destruct (String.eqb p (path ws)).
      + destruct (String.eqb role UserRole_Client); simpl;
          rewrite ?lookup_delete; repeat case_decide; subst; try done;
          rewrite ?lookup_delete_eq in *; try done;
          rewrite ?lookup_delete_ne by done; done.
      + simpl. rewrite Hold. repeat case_decide; subst; try done.
        by destruct (String.eqb role UserRole_Client).
    - simpl. rewrite Hold. repeat case_decide; subst; try done.
      by destruct (String.eqb role UserRole_Client). }
  unfold register. cbv zeta.
  assert (Hsock : sockets (update_socket c (bind_identity id role email)
                             (evict_existing c id role b0)) !! c
                  = Some (bind_identity id role email ws1)).
  { simpl. by rewrite lookup_alter_eq, Hws1. }
  rewrite Hsock. simpl path. rewrite Hp1.
  destruct (String.eqb role UserRole_Client) eqn:Erole.
  - apply String.eqb_eq in Erole. split.
    { exists (bind_identity id role email ws1). by rewrite <- Hp1. }
    split; [simpl; by rewrite last_snoc |].
    split; [simpl; apply lookup_insert_eq |].
    split; [intros _; simpl; apply lookup_insert_eq |].
    split; [intros Hne; contradiction |].
    intros u Hu. simpl. rewrite !lookup_insert_ne by done.
    destruct (Hreg u) as [H1 H2]. rewrite H1, H2.
    by rewrite !decide_False by done.
  - apply String.eqb_neq in Erole. split.
    { exists (bind_identity id role email ws1). by rewrite <- Hp1. }
    split; [simpl; by rewrite last_snoc |].
    split; [simpl; apply lookup_insert_eq |].
    split; [intros ?; contradiction |].
    split.
    { intros _. simpl. destruct (Hreg id) as [_ H2]. rewrite H2.
      by rewrite decide_True by done. }
    intros u Hu. simpl. rewrite lookup_insert_ne by done.
    destruct (Hreg u) as [H1 H2]. rewrite H1, H2.
    by rewrite !decide_False by done.
Qed.

Lemma successful_authenticate_registers_witness :
  let b' := on_message Samples.sample_verify 0
              (Some (Samples.authenticate_request "host-1"))
              (run Samples.sample_verify init [Connection "/chat"]) in
  onlineUsers b' !! "host-1" = Some (0, "/chat")
  /\ onlineCouriers b' !! "host-1" = None.
Proof.
  intros b'.
  destruct (successful_authenticate_registers Samples.sample_verify
              (run Samples.sample_verify init [Connection "/chat"]) 0
              (fresh_socket "/chat") (Samples.authenticate_request "host-1")
              "host-1" UserRole_Host "host-1")
    as (_ & _ & Hreg & _ & Hrole & _).
  - vm_compute; reflexivity.
  - reflexivity.
  - reflexivity.
  - reflexivity.
  - split; [exact Hreg |]. unfold b'. rewrite Hrole; [| discriminate].
    vm_compute; reflexivity.
Defined.

(** What the listener does on a successful [authenticate]. *)
Lemma authenticate_accepted verifyToken b c ws parsedData id role email :
  sockets b !! c = Some ws ->
  get_prop parsedData "event" = Some (JStr "authenticate") ->
  truthy (prop parsedData "token") = true ->
  verifyToken (prop parsedData "token") = Verified id role email ->
  on_message verifyToken c (Some parsedData) b
  = ws_send c (authenticated id role)
      (register c id role email
         (evict_existing c id role
            (console_log "Received event:"
               [JStr "authenticate"; JStr "on path:"; JStr (path ws)] b))).
Proof.
  intros Hws Hev Htok Hver.
  rewrite (on_message_parsed _ _ _ _ _ _ Hws Hev). simpl.
  rewrite andb_false_r. unfold authenticate. by rewrite Htok, Hver.
Qed.

(** X4: when the registry has no entry of the identity on the path of the
    authenticating connection (no entry at all, or one on another path),
    nothing is closed: the only new call on the transport is the
    acknowledgement, every other socket is as before, and the entry of the
    identity is overwritten with the new connection. *)
Theorem authenticate_on_other_path_closes_nothing
    verifyToken b c ws parsedData id role email :
  sockets b !! c = Some ws ->
  get_prop parsedData "event" = Some (JStr "authenticate") ->
  truthy (prop parsedData "token") = true ->
  verifyToken (prop parsedData "token") = Verified id role email ->
  (forall old, onlineUsers b !! id <> Some (old, path ws)) ->
  let b' := on_message verifyToken c (Some parsedData) b in
  effects b' = effects b ++ [Send c (authenticated id role)]
  /\ (forall c', c' <> c -> sockets b' !! c' = sockets b !! c')
  /\ sockets b' !! c = Some (bind_identity id role email ws)
  /\ onlineUsers b' !! id = Some (c, path ws).
Proof.
  intros Hws Hev Htok Hver Hnone b'. subst b'.
  rewrite (authenticate_accepted _ _ _ _ _ _ _ _ Hws Hev Htok Hver).
  set (b0 := console_log _ _ b).
  assert (Hev0 : evict_existing c id role b0 = b0).
  { unfold evict_existing. cbn [onlineUsers sockets b0 console_log set_console].
    rewrite Hws. destruct (onlineUsers b !! id) as [[old p]|] eqn:Hold; [| done].
    destruct (String.eqb p (path ws)) eqn:E; [| done].
    apply String.eqb_eq in E. subst p. by destruct (Hnone old). }
  rewrite Hev0. unfold register. cbv zeta.
  assert (Hsock : sockets (update_socket c (bind_identity id role email) b0) !! c
                  = Some (bind_identity id role email ws)).
  { simpl. by rewrite lookup_alter_eq, Hws. }
  rewrite Hsock.
  destruct (String.eqb role UserRole_Client); simpl;
    (split; [done |]); (split; [intros c' Hc'; by rewrite lookup_alter_ne |]);
    (split; [by rewrite lookup_alter_eq, Hws |]); apply lookup_insert_eq.
Qed.

Lemma authenticate_on_other_path_closes_nothing_witness :
  let b := run Samples.sample_verify init
             [Connection "/chat";
              Message 0 (Some (Samples.authenticate_request "client-1"));
              Connection "/driver-location"] in
  let b' := on_message Samples.sample_verify 1
              (Some (Samples.authenticate_request "client-1")) b in
  onlineUsers b !! "client-1" = Some (0, "/chat")
  /\ onlineUsers b' !! "client-1" = Some (1, "/driver-location")
  /\ sockets b' !! 0 = sockets b !! 0.
Proof.
  intros b b'. split; [vm_compute; reflexivity |].
  destruct (authenticate_on_other_path_closes_nothing Samples.sample_verify
              b 1 (fresh_socket "/driver-location")
              (Samples.authenticate_request "client-1")
              "client-1" UserRole_Client "client-1")
    as (_ & Hother & _ & Hreg).
  - vm_compute; reflexivity.
  - reflexivity.
  - reflexivity.
  - reflexivity.
  - intros old. vm_compute. discriminate.
  - split; [exact Hreg | apply Hother; discriminate].
Defined.

(** X5: the [close] of a socket that an [authenticate] evicted arrives
    after the new entry was inserted, and its cleanup goes by the
    identity: it deletes the registry entry of the connection that took
    over, which stays open and authenticated but can no longer be found. *)
Theorem close_of_evicted_socket_unregisters_successor
    verifyToken b c old ws wold parsedData id role email :
  sockets b !! c = Some ws -> readyState ws = OPEN ->
  sockets b !! old = Some wold -> readyState wold <> CLOSED ->
  old <> c ->
  userId wold = Some id -> id <> "" ->
  onlineUsers b !! id = Some (old, path ws) ->
  get_prop parsedData "event" = Some (JStr "authenticate") ->
  truthy (prop parsedData "token") = true ->
  verifyToken (prop parsedData "token") = Verified id role email ->
  let b1 := step verifyToken b (Message c (Some parsedData)) in
  let b2 := step verifyToken b1 (Closed old) in
  onlineUsers b1 !! id = Some (c, path ws)
  /\ onlineUsers b2 !! id = None
  /\ sockets b2 !! c = Some (bind_identity id role email ws)
  /\ is_open b2 c = true
  /\ registry_get b2 (JStr id) = None.
Proof.
  intros Hws Hopen Hwold Hnotclosed Hne Hid Hidne Hold Hev Htok Hver b1 b2.
  assert (Hb1 : b1 = on_message verifyToken c (Some parsedData) b).
  { subst b1. simpl. unfold listening. by rewrite Hws, Hopen. }
  rewrite (authenticate_accepted _ _ _ _ _ _ _ _ Hws Hev Htok Hver) in Hb1.
  set (b0 := console_log _ _ b) in Hb1.
  assert (Hev1 : sockets (evict_existing c id role b0)
                 = alter start_closing old (sockets b)).
  { unfold evict_existing. cbn [onlineUsers sockets b0 console_log set_console].
    rewrite Hold, Hws, String.eqb_refl.
    by destruct (String.eqb role UserRole_Client). }
  assert (Hs1 : sockets b1
                = alter (bind_identity id role email) c
                    (alter start_closing old (sockets b))).
  { rewrite Hb1. unfold register. cbv zeta.
    destruct (String.eqb role UserRole_Client); simpl; by rewrite Hev1. }
  assert (Hreg1 : onlineUsers b1 !! id = Some (c, path ws)).
  { rewrite Hb1. unfold register. cbv zeta.
    assert (sockets (update_socket c (bind_identity id role email)
                       (evict_existing c id role b0)) !! c
            = Some (bind_identity id role email ws)) as ->.
    { simpl. rewrite Hev1, lookup_alter_eq, lookup_alter_ne by done.
      by rewrite Hws. }
    destruct (String.eqb role UserRole_Client); simpl; apply lookup_insert_eq. }
  assert (Hold1 : sockets b1 !! old = Some (start_closing wold)).
  { rewrite Hs1, lookup_alter_ne, lookup_alter_eq by done. by rewrite Hwold. }
  assert (Hc1 : sockets b1 !! c = Some (bind_identity id role email ws)).
  { rewrite Hs1, lookup_alter_eq, lookup_alter_ne by done. by rewrite Hws. }
  assert (Hl1 : listening b1 old = true).
  { unfold listening. rewrite Hold1. unfold start_closing.
    by destruct (readyState wold) eqn:E; simpl; rewrite ?E. }
  assert (Hb2 : b2 = on_close old (transport_closed old b1)).
  { subst b2. simpl. by rewrite Hl1. }
  assert (Hs2 : sockets b2 = alter (with_readyState CLOSED) old (sockets b1)).
  { rewrite Hb2. by destruct (on_close_registries (transport_closed old b1) old)
      as (-> & _). }
  assert (Hreg2 : onlineUsers b2 !! id = None).
  { rewrite Hb2.
    apply (on_close_removes (transport_closed old b1) old
             (with_readyState CLOSED (start_closing wold)) id).
    - simpl. by rewrite lookup_alter_eq, Hold1.
    - simpl. unfold start_closing. by destruct (readyState wold).
    - done. }
  assert (Hc2 : sockets b2 !! c = Some (bind_identity id role email ws)).
  { rewrite Hs2, lookup_alter_ne by done. exact Hc1. }
  split; [done |]. split; [done |]. split; [done |]. split; [| done].
  unfold is_open. rewrite Hc2. simpl. by rewrite Hopen.
Qed.

Lemma close_of_evicted_socket_unregisters_successor_witness :
  let b := Samples.client_and_newcomer in
  let b1 := step Samples.sample_verify b
              (Message 1 (Some (Samples.authenticate_request "client-1"))) in
  let b2 := step Samples.sample_verify b1 (Closed 0) in
  onlineUsers b1 !! "client-1" = Some (1, "/chat")
  /\ onlineUsers b2 !! "client-1" = None
  /\ is_open b2 1 = true.
Proof.
  intros b b1 b2.
  destruct (close_of_evicted_socket_unregisters_successor
              Samples.sample_verify b 1 0 (fresh_socket "/chat")
              {| userId := Some "client-1"; userRole := Some UserRole_Client;
                 userName := Some "client-1"; isAlive := true;
                 path := "/chat"; readyState := OPEN |}
              (Samples.authenticate_request "client-1")
              "client-1" UserRole_Client "client-1")
    as (H1 & H2 & _ & H3 & _).
  - vm_compute; reflexivity.
  - reflexivity.
  - vm_compute; reflexivity.
  - discriminate.
  - discriminate.
  - reflexivity.
  - discriminate.
  - vm_compute; reflexivity.
  - reflexivity.
  - reflexivity.
  - reflexivity.
  - split; [exact H1 |]. split; [exact H2 | exact H3].
Defined.

(** ** Call signalling *)

(** Case analysis on the tests of [handleParcelChatMessage]. *)
Ltac signalling_cases :=
  unfold handleParcelChatMessage, callUser, answerCall, iceCandidate,
    disconnectCall, relay_to_open_peer;
  cbv zeta;
  repeat match goal with
    | |- context [if ?x then _ else _] => destruct x
    | |- context [match ?x with _ => _ end] => destruct x
    end.

Lemma signalling_keeps_registries c parsedData b :
  let b' := handleParcelChatMessage c parsedData b in
  sockets b' = sockets b
  /\ onlineUsers b' = onlineUsers b /\ onlineCouriers b' = onlineCouriers b.
Proof. intros b'. subst b'. signalling_cases; simpl; done. Qed.

(** X6: [handleParcelChatMessage] keeps no state: whatever the event, the
    sockets, the clients and both registries are as before, and it makes at
    most one call on the transport, which is a [send]. *)
Theorem signalling_changes_no_state c parsedData b :
  let b' := handleParcelChatMessage c parsedData b in
  sockets b' = sockets b /\ clients b' = clients b
  /\ onlineUsers b' = onlineUsers b /\ onlineCouriers b' = onlineCouriers b
  /\ exists es,
       effects b' = effects b ++ es
       /\ length es <= 1
       /\ forall e, In e es -> exists target payload, e = Send target payload.
Proof.
  intros b'. subst b'. signalling_cases; simpl;
    (split; [done |]); (split; [done |]); (split; [done |]); (split; [done |]);
    first
      [ exists []; rewrite app_nil_r; split; [done |]; split; [simpl; lia |];
        intros e []
      | eexists [_]; split; [reflexivity |]; split; [simpl; lia |];
        intros e [<- | []]; eauto ].
Qed.




(** X8: an event of an authenticated connection (off [/driver-location])
    whose tag is none of the five the broker knows, or is missing, is
    answered with the error envelope "Unknown event type" and changes
    nothing. *)
Theorem unknown_event_is_answered verifyToken b c ws parsedData event :
  sockets b !! c = Some ws ->
  has_identity (userId ws) = true ->
  path ws <> "/driver-location" ->
  get_prop parsedData "event" = Some event ->
  (forall name,
      In name ["authenticate"; "callUser"; "answerCall"; "iceCandidate";
               "disconnectCall"] -> event <> JStr name) ->
  let b' := on_message verifyToken c (Some parsedData) b in
  effects b' = effects b ++ [Send c (error_envelope "Unknown event type")]
  /\ sockets b' = sockets b /\ clients b' = clients b
  /\ onlineUsers b' = onlineUsers b /\ onlineCouriers b' = onlineCouriers b.
Proof.
  intros Hws Hid Hpath Hev Hunknown b'. subst b'.
  rewrite (on_message_parsed _ _ _ _ _ _ Hws Hev). simpl. rewrite Hid. simpl.
  apply String.eqb_neq in Hpath. rewrite Hpath.
  assert (Hno : forall name,
    In name ["authenticate"; "callUser"; "answerCall"; "iceCandidate";
             "disconnectCall"] -> str_is event name = false).
  { intros name Hin. destruct (str_is event name) eqn:E; [| done].
    apply str_is_true in E. by destruct (Hunknown name Hin). }
  unfold handleParcelChatMessage. rewrite (prop_of_get _ _ _ Hev).
  rewrite !Hno by (simpl; tauto). done.
Qed.

Lemma unknown_event_is_answered_witness :
  effects (on_message Samples.sample_verify 1
             (Some (JObj [("event", JStr "hangUp")])) Samples.host_and_client)
  = effects Samples.host_and_client
    ++ [Send 1 (error_envelope "Unknown event type")].
Proof.
  apply (unknown_event_is_answered Samples.sample_verify
           Samples.host_and_client 1
           {| userId := Some "client-1"; userRole := Some UserRole_Client;
              userName := Some "client-1"; isAlive := true;
              path := "/chat"; readyState := OPEN |}
           (JObj [("event", JStr "hangUp")]) (JStr "hangUp")).
  - vm_compute; reflexivity.
  - reflexivity.
  - discriminate.
  - reflexivity.
  - intros name Hin. simpl in Hin.
    destruct Hin as [<- | [<- | [<- | [<- | [<- | []]]]]]; discriminate.
Defined.

(** X9: on the path [/driver-location] every event of an authenticated
    connection other than [authenticate] is only logged: nothing is sent to
    anyone and neither the sockets nor the registries change. *)
Theorem driver_location_events_are_only_logged verifyToken b c ws parsedData event :
  sockets b !! c = Some ws ->
  has_identity (userId ws) = true ->
  path ws = "/driver-location" ->
  get_prop parsedData "event" = Some event ->
  event <> JStr "authenticate" ->
  let b' := on_message verifyToken c (Some parsedData) b in
  effects b' = effects b
  /\ console b'
     = console b ++ [("Received event:",
                      [event; JStr "on path:"; JStr "/driver-location"]);
                     ("Handling driver location update", [])]
  /\ sockets b' = sockets b /\ clients b' = clients b
  /\ onlineUsers b' = onlineUsers b /\ onlineCouriers b' = onlineCouriers b.
Proof.
  intros Hws Hid Hpath Hev Hne b'. subst b'.
  rewrite (on_message_parsed _ _ _ _ _ _ Hws Hev). simpl. rewrite Hid, Hpath.
  destruct (str_is event "authenticate") eqn:E.
  { apply str_is_true in E. contradiction. }
  simpl. by rewrite <- app_assoc.
Qed.

Lemma driver_location_events_are_only_logged_witness :
  effects (on_message Samples.sample_verify 1
             (Some (JObj [("event", JStr "locationUpdate");
                          ("lat", JNum 10); ("lng", JNum 20)]))
             Samples.host_and_driver)
  = effects Samples.host_and_driver.
Proof.
  apply (driver_location_events_are_only_logged Samples.sample_verify
           Samples.host_and_driver 1
           {| userId := Some "client-1"; userRole := Some UserRole_Client;
              userName := Some "client-1"; isAlive := true;
              path := "/driver-location"; readyState := OPEN |}
           (JObj [("event", JStr "locationUpdate");
                  ("lat", JNum 10); ("lng", JNum 20)])
           (JStr "locationUpdate")).
  - vm_compute; reflexivity.
  - reflexivity.
  - reflexivity.
  - reflexivity.
  - discriminate.
Defined.

(** ** The liveness monitor over several runs *)

(** X10: an open connection that answers no probe is terminated, and
    loses its registry entry, at the second run of the interval callback
    after its last sign of life; a [pong] between the two runs keeps it
    open, and the second run probes it again. *)
Theorem silent_connection_is_evicted_at_second_tick verifyToken b c ws :
  reachable verifyToken b ->
  sockets b !! c = Some ws -> readyState ws = OPEN -> isAlive ws = true ->
  let b1 := step verifyToken b Interval in
  let silent := step verifyToken b1 Interval in
  let answered := step verifyToken (step verifyToken b1 (Pong c)) Interval in
  is_open b1 c = true
  /\ (In (Terminate c) (drop (length (effects b1)) (effects silent))
      /\ is_open silent c = false
      /\ forall uid, userId ws = Some uid -> uid <> "" ->
                     onlineUsers silent !! uid = None)
  /\ (In (Ping c) (drop (length (effects b1)) (effects answered))
      /\ ~ In (Terminate c) (drop (length (effects b1)) (effects answered))
      /\ is_open answered c = true).
Proof.
  intros Hreach Hws Hopen Halive b1 silent answered.
  pose proof (reachable_wf _ _ Hreach) as Hwf.
  assert (Hwf1 : wf b1) by (by apply wf_step).
  assert (Hc : In c (clients b)).
  { apply (wf_listening _ Hwf). unfold listening. by rewrite Hws, Hopen. }
  destruct (frame_interval b) as (Hcl & _).
  destruct (interval_fold (clients b) b (wf_nodup _ Hwf))
    as (es1 & _ & _ & _ & _ & _ & Hall1).
  specialize (Hall1 c ws Hc Hws). rewrite Halive in Hall1.
  destruct Hall1 as (Hs1 & _).
  change (foldl check_alive b (clients b)) with b1 in Hs1.
  change (interval b) with b1 in Hcl.
  assert (Hc1 : In c (clients b1)) by (by rewrite Hcl).
  assert (Ho1 : is_open b1 c = true).
  { unfold is_open. rewrite Hs1. simpl. by rewrite Hopen. }
  split; [done |]. split.
  - destruct (interval_fold (clients b1) b1 (wf_nodup _ Hwf1))
      as (es2 & He2 & _ & _ & _ & _ & Hall2).
    specialize (Hall2 c _ Hc1 Hs1). simpl in Hall2.
    destruct Hall2 as (Hs2 & Hterm & _ & Hu & _).
    change (foldl check_alive b1 (clients b1)) with silent in *.
    rewrite He2, drop_app_length. split; [done |]. split.
    + unfold is_open. rewrite Hs2. apply start_closing_not_open.
    + intros uid Huid Hne. apply Hu.
      by apply (on_close_removes b1 c (with_isAlive false ws) uid).
  - set (b1p := step verifyToken b1 (Pong c)) in *.
    assert (Hb1p : b1p = heartbeat c b1).
    { subst b1p. simpl. unfold listening. rewrite Hs1. simpl. by rewrite Hopen. }
    assert (Hwfp : wf b1p) by (by apply wf_step).
    assert (Hsp : sockets b1p !! c
                  = Some (with_isAlive true (with_isAlive false ws))).
    { rewrite Hb1p. unfold heartbeat. simpl. by rewrite lookup_alter_eq, Hs1. }
    assert (Hcp : In c (clients b1p)) by (by rewrite Hb1p).
    assert (Hep : effects b1p = effects b1) by (by rewrite Hb1p).
    destruct (interval_fold (clients b1p) b1p (wf_nodup _ Hwfp))
      as (es2 & He2 & _ & _ & _ & _ & Hall2).
    specialize (Hall2 c _ Hcp Hsp). simpl in Hall2.
    destruct Hall2 as (Hs2 & Hping & Hnot).
    change (foldl check_alive b1p (clients b1p)) with answered in *.
    rewrite He2, Hep, drop_app_length. split; [done |]. split; [done |].
    unfold is_open. rewrite Hs2. simpl. by rewrite Hopen.
Qed.

Lemma silent_connection_is_evicted_at_second_tick_witness :
  let b := Samples.client_and_newcomer in
  let silent := run Samples.sample_verify b [Interval; Interval] in
  let answered := run Samples.sample_verify b [Interval; Pong 0; Interval] in
  onlineUsers b !! "client-1" = Some (0, "/chat")
  /\ onlineUsers silent !! "client-1" = None
  /\ is_open answered 0 = true.
Proof.
  intros b silent answered. split; [vm_compute; reflexivity |].
  destruct (silent_connection_is_evicted_at_second_tick Samples.sample_verify
              b 0
              {| userId := Some "client-1"; userRole := Some UserRole_Client;
                 userName := Some "client-1"; isAlive := true;
                 path := "/chat"; readyState := OPEN |})
    as (_ & (_ & _ & Hgone) & (_ & _ & Hopen)).
  - eexists. reflexivity.
  - vm_compute; reflexivity.
  - reflexivity.
  - reflexivity.
  - split; [| exact Hopen]. apply Hgone; [reflexivity | discriminate].
Defined.

(** *** What stays cleaned up *)

Lemma cleaned_same c ws b b' :
  sockets b' = sockets b -> onlineUsers b' = onlineUsers b ->
  onlineCouriers b' = onlineCouriers b ->
  cleaned_up c ws b -> cleaned_up c ws b'.
Proof. intros Hs Hu Hc [H1 H2]. split; rewrite ?Hs, ?Hu, ?Hc; done. Qed.

Lemma cleaned_emit c ws b e : cleaned_up c ws b -> cleaned_up c ws (emit e b).
Proof. by apply cleaned_same. Qed.

Lemma cleaned_ws_send c ws b c' v :
  cleaned_up c ws b -> cleaned_up c ws (ws_send c' v b).
Proof. by apply cleaned_same. Qed.

Lemma cleaned_ws_ping c ws b c' : cleaned_up c ws b -> cleaned_up c ws (ws_ping c' b).
Proof. by apply cleaned_same. Qed.

Lemma cleaned_console_log c ws b text args :
  cleaned_up c ws b -> cleaned_up c ws (console_log text args b).
Proof. by apply cleaned_same. Qed.

Lemma cleaned_update_socket c ws b c' f :
  keeps_owner f -> cleaned_up c ws b -> cleaned_up c ws (update_socket c' f b).
Proof.
  intros Hf [(ws' & Hws' & Hid & Hrole) H2]. split; [| exact H2]. simpl.
  rewrite lookup_alter. case_decide; [subst c' |]; rewrite Hws'; simpl; [| eauto].
  destruct (Hf ws') as [Hfi Hfr]. exists (f ws'). by rewrite Hfi, Hfr.
Qed.

Lemma cleaned_update_other c ws b c' f :
  c' <> c -> cleaned_up c ws b -> cleaned_up c ws (update_socket c' f b).
Proof.
  intros Hne [H1 H2]. split; [| exact H2]. simpl. by rewrite lookup_alter_ne.
Qed.

Lemma keeps_owner_start_closing : keeps_owner start_closing.
Proof. intros ws. unfold start_closing. by destruct (readyState ws). Qed.

Lemma keeps_owner_isAlive v : keeps_owner (with_isAlive v).
Proof. by intros ws. Qed.

Lemma keeps_owner_readyState v : keeps_owner (with_readyState v).
Proof. by intros ws. Qed.

Lemma cleaned_ws_close c ws b c' :
  cleaned_up c ws b -> cleaned_up c ws (ws_close c' b).
Proof.
  intros Hb. apply cleaned_emit, cleaned_update_socket;
    [apply keeps_owner_start_closing | done].
Qed.

Lemma cleaned_ws_terminate c ws b c' :
  cleaned_up c ws b -> cleaned_up c ws (ws_terminate c' b).
Proof.
  intros Hb. apply cleaned_emit, cleaned_update_socket;
    [apply keeps_owner_start_closing | done].
Qed.

Lemma cleaned_delete_users c ws b id :
  cleaned_up c ws b ->
  cleaned_up c ws (set_onlineUsers (delete id (onlineUsers b)) b).
Proof.
  intros [H1 H2]. split; [exact H1 |]. simpl. intros uid Hid Hne.
  destruct (H2 uid Hid Hne) as [Hu Hc]. split; [| exact Hc].
  rewrite lookup_delete. by case_decide.
Qed.

Lemma cleaned_delete_couriers c ws b id :
  cleaned_up c ws b ->
  cleaned_up c ws (set_onlineCouriers (delete id (onlineCouriers b)) b).
Proof.
  intros [H1 H2]. split; [exact H1 |]. simpl. intros uid Hid Hne.
  destruct (H2 uid Hid Hne) as [Hu Hc]. split; [exact Hu |].
  intros Hrole. rewrite lookup_delete. case_decide; [done | by apply Hc].
Qed.

Create HintDb cleaned.
#[local] Hint Resolve cleaned_emit cleaned_ws_send cleaned_ws_ping
  cleaned_console_log cleaned_ws_close cleaned_ws_terminate
  cleaned_delete_users cleaned_delete_couriers : cleaned.

Ltac cleaned_cases :=
  cbv zeta;
  repeat match goal with
    | |- context [if ?x then _ else _] => destruct x
    | |- context [match ?x with _ => _ end] => destruct x
    end;
  eauto 10 with cleaned.

Lemma cleaned_on_close c ws b c' :
  cleaned_up c ws b -> cleaned_up c ws (on_close c' b).
Proof. intros Hb. unfold on_close. cleaned_cases. Qed.

Lemma cleaned_check_alive c ws b c' :
  cleaned_up c ws b -> cleaned_up c ws (check_alive b c').
Proof.
  intros Hb. unfold check_alive.
  destruct (sockets b !! c') as [ws'|]; [| done].
  destruct (negb (isAlive ws')).
  - apply cleaned_ws_terminate. cleaned_cases.
  - apply cleaned_ws_ping, cleaned_update_socket; [apply keeps_owner_isAlive | done].
Qed.

Lemma cleaned_interval c ws b : cleaned_up c ws b -> cleaned_up c ws (interval b).
Proof.
  unfold interval. generalize (clients b). intros l. revert b.
  induction l as [|c' l IH]; intros b Hb; simpl; [done |].
  by apply IH, cleaned_check_alive.
Qed.

Lemma cleaned_handleParcelChatMessage c ws b c' parsedData :
  cleaned_up c ws b -> cleaned_up c ws (handleParcelChatMessage c' parsedData b).
Proof.
  intros Hb. destruct (signalling_keeps_registries c' parsedData b)
    as (Hs & Hu & Hc).
  by apply (cleaned_same c ws b).
Qed.

Lemma cleaned_evict_existing c ws b c' id role :
  cleaned_up c ws b -> cleaned_up c ws (evict_existing c' id role b).
Proof. intros Hb. unfold evict_existing. cleaned_cases. Qed.

Lemma cleaned_register c ws b c' id role email :
  c' <> c -> userId ws <> Some id ->
  cleaned_up c ws b -> cleaned_up c ws (register c' id role email b).
Proof.
  intros Hc Hid Hb. unfold register. cbv zeta.
  pose proof (cleaned_update_other c ws b c' (bind_identity id role email) Hc Hb)
    as [H1 H2].
  set (b1 := update_socket c' (bind_identity id role email) b) in *.
  assert (Husers : forall v uid, userId ws = Some uid -> uid <> "" ->
            <[id := v]> (onlineUsers b1) !! uid = None
            /\ (role_is (userRole ws) UserRole_Client = true ->
                onlineCouriers b1 !! uid = None)).
  { intros v uid Hu Hne. destruct (H2 uid Hu Hne) as [H3 H4].
    split; [| exact H4]. rewrite lookup_insert_ne; [done | congruence]. }
  destruct (String.eqb role UserRole_Client); split; try exact H1;
    try apply Husers.
  cbn [onlineCouriers onlineUsers set_onlineCouriers set_onlineUsers].
  intros uid Hu Hne. destruct (Husers (c', match sockets b1 !! c' with
                                           | Some ws0 => path ws0
                                           | None => ""
                                           end) uid Hu Hne) as [H3 H4].
  split; [exact H3 |]. intros Hrole.
  rewrite lookup_insert_ne; [by apply H4 | congruence].
Qed.

Lemma cleaned_on_message verifyToken c ws b c' data :
  binds_elsewhere verifyToken c (userId ws) (Message c' data) ->
  cleaned_up c ws b -> cleaned_up c ws (on_message verifyToken c' data b).
Proof.
  intros Hev Hb. unfold on_message.
  destruct (sockets b !! c') as [ws'|] eqn:Hws; [| done].
  destruct data as [parsedData|]; simpl; [| eauto with cleaned].
  destruct (get_prop parsedData "event") as [event|] eqn:Hevent; simpl;
    [| eauto with cleaned].
  destruct (negb (has_identity (userId ws')) && negb (str_is event "authenticate"));
    [eauto with cleaned |].
  destruct (str_is event "authenticate") eqn:Hauth.
  - apply str_is_true in Hauth. subst event. unfold authenticate.
    destruct (truthy (prop parsedData "token")) eqn:Htok; simpl;
      [| eauto with cleaned].
    destruct (verifyToken (prop parsedData "token")) as [id role email| |] eqn:Hver;
      eauto with cleaned.
    destruct (Hev c' parsedData id role email eq_refl Hevent Htok Hver)
      as [Hc Hid].
    apply cleaned_ws_send, cleaned_register; [done | done |].
    apply cleaned_evict_existing. eauto with cleaned.
  - destruct (String.eqb (path ws') "/driver-location"); [eauto with cleaned |].
    apply cleaned_handleParcelChatMessage. eauto with cleaned.
Qed.

Lemma cleaned_on_connection c ws url b :
  wf b -> cleaned_up c ws b -> cleaned_up c ws (on_connection url b).
Proof.
  intros Hwf [(ws' & Hws' & Hid & Hrole) H2]. unfold on_connection.
  apply cleaned_ws_send, cleaned_console_log. split; [| exact H2]. simpl.
  exists ws'. split; [| done]. rewrite lookup_insert_ne; [done |].
  intros <-. assert (nextConn b < nextConn b); [| lia].
  apply (wf_sockets _ Hwf). eauto.
Qed.

Lemma cleaned_step verifyToken c ws b ev :
  binds_elsewhere verifyToken c (userId ws) ev ->
  wf b -> cleaned_up c ws b -> cleaned_up c ws (step verifyToken b ev).
Proof.
  intros Hev Hwf Hb. destruct ev as [url | c' data | c' | | c']; simpl.
  - by apply cleaned_on_connection.
  - destruct (listening b c'); [by apply cleaned_on_message | done].
  - destruct (listening b c'); [| done].
    apply cleaned_update_socket; [apply keeps_owner_isAlive | done].
  - by apply cleaned_interval.
  - destruct (listening b c'); [| done].
    apply cleaned_on_close. unfold transport_closed.
    apply (cleaned_same c ws (update_socket c' (with_readyState CLOSED) b));
      try done.
    apply cleaned_update_socket; [apply keeps_owner_readyState | done].
Qed.

Lemma cleaned_run verifyToken c ws evs : forall b,
  Forall (binds_elsewhere verifyToken c (userId ws)) evs ->
  wf b -> cleaned_up c ws b -> cleaned_up c ws (run verifyToken b evs).
Proof.
  induction evs as [|ev evs IH]; intros b Hevs Hwf Hb; simpl; [done |].
  apply Forall_cons in Hevs as [Hev Hevs].
  apply IH; [done | by apply wf_step | by apply cleaned_step].
Qed.

(** What the interval callback leaves of a connection it evicts. *)
Lemma eviction_cleans_up verifyToken b c ws :
  reachable verifyToken b ->
  sockets b !! c = Some ws -> readyState ws = OPEN -> isAlive ws = false ->
  cleaned_up c ws (step verifyToken b Interval).
Proof.
  intros Hreach Hws Hopen Hdead.
  pose proof (reachable_wf _ _ Hreach) as Hwf.
  assert (Hc : In c (clients b)).
  { apply (wf_listening _ Hwf). unfold listening. by rewrite Hws, Hopen. }
  destruct (interval_fold (clients b) b (wf_nodup _ Hwf))
    as (es1 & _ & _ & _ & _ & _ & Hall1).
  specialize (Hall1 c ws Hc Hws). rewrite Hdead in Hall1.
  destruct Hall1 as (Hs1 & _ & _ & Hu & Hco).
  change (foldl check_alive b (clients b)) with (step verifyToken b Interval) in *.
  split.
  - exists (start_closing ws). split; [exact Hs1 |].
    apply keeps_owner_start_closing.
  - intros uid Hid Hne. destruct (on_close_removes b c ws uid Hws Hid Hne) as [Hr1 Hr2].
    split; [by apply Hu |]. intros Hrole%role_is_true. by apply Hco, Hr2.
Qed.

(** The [close] of a connection whose entries are gone. *)
Lemma close_of_cleaned_up verifyToken c ws b :
  cleaned_up c ws b ->
  let b' := step verifyToken b (Closed c) in
  onlineUsers b' = onlineUsers b
  /\ onlineCouriers b' = onlineCouriers b
  /\ effects b' = effects b
  /\ listening b' c = false.
Proof.
  intros [(ws' & Hws' & Hid & Hrole) Hreg] b'. subst b'. simpl.
  destruct (listening b c) eqn:Hl; [| done].
  assert (Hs : sockets (transport_closed c b) !! c
               = Some (with_readyState CLOSED ws'))
    by (simpl; by rewrite lookup_alter_eq, Hws').
  assert (Hlast : listening (on_close c (transport_closed c b)) c = false).
  { unfold listening.
    destruct (on_close_registries (transport_closed c b) c) as (-> & _).
    by rewrite Hs. }
  unfold on_close at 1 2 3. rewrite Hs.
  cbn [userId userRole with_readyState]. rewrite Hid, Hrole.
  destruct (userId ws) as [uid|] eqn:Hu; [| done].
  destruct (has_identity (Some uid)) eqn:Hhas; [| done].
  apply CallFacts.has_identity_true in Hhas as (uid' & [= <-] & Hne).
  destruct (Hreg uid eq_refl Hne) as [Hr1 Hr2].
  destruct (role_is (userRole ws) UserRole_Client) eqn:Erole; simpl.
  - specialize (Hr2 eq_refl). by rewrite !delete_id.
  - by rewrite delete_id.
Qed.

(** X11: the cleanup is safe to run twice: when the interval callback has
    evicted a connection, its [close] event finds nothing left to remove,
    whatever events come in between, as long as none of them is a
    successful [authenticate] on the evicted connection or as its identity;
    both registries and the transport are as they were before the
    [close]. *)
Theorem close_after_eviction_changes_nothing verifyToken b c ws evs :
  reachable verifyToken b ->
  sockets b !! c = Some ws -> readyState ws = OPEN -> isAlive ws = false ->
  Forall (binds_elsewhere verifyToken c (userId ws)) evs ->
  let b1 := step verifyToken b Interval in
  let b2 := run verifyToken b1 evs in
  let b3 := step verifyToken b2 (Closed c) in
  onlineUsers b3 = onlineUsers b2
  /\ onlineCouriers b3 = onlineCouriers b2
  /\ effects b3 = effects b2
  /\ listening b3 c = false.
Proof.
  intros Hreach Hws Hopen Hdead Hevs b1 b2 b3.
  apply (close_of_cleaned_up verifyToken c ws b2).
  apply cleaned_run; [exact Hevs | |].
  - apply wf_step. by apply (reachable_wf verifyToken).
  - by apply eviction_cleans_up.
Qed.

Lemma close_after_eviction_changes_nothing_witness :
  let b1 := step Samples.sample_verify Samples.silent_and_fresh Interval in
  let b2 := run Samples.sample_verify b1
              [Message 1 (Some (Samples.authenticate_request "host-1")); Pong 1] in
  let b3 := step Samples.sample_verify b2 (Closed 0) in
  onlineUsers b2 !! "host-1" = Some (1, "/chat")
  /\ onlineUsers b3 = onlineUsers b2 /\ effects b3 = effects b2.
Proof.
  intros b1 b2 b3. split; [vm_compute; reflexivity |].
  destruct (close_after_eviction_changes_nothing Samples.sample_verify
              Samples.silent_and_fresh 0
              {| userId := Some "client-1"; userRole := Some UserRole_Client;
                 userName := Some "client-1"; isAlive := false;
                 path := "/chat"; readyState := OPEN |}
              [Message 1 (Some (Samples.authenticate_request "host-1")); Pong 1])
    as (H1 & _ & H2 & _).
  - eexists. reflexivity.
  - vm_compute; reflexivity.
  - reflexivity.
  - reflexivity.
  - apply Forall_cons. split.
    + intros c' parsedData id role email [= <- <-] _ _ Hver.
      vm_compute in Hver. injection Hver as <- _ _. split; discriminate.
    + apply Forall_cons. split; [| by apply Forall_nil].
      intros c' parsedData id role email [=].
  - split; [exact H1 | exact H2].
Defined.

(** ** The registries refer to sockets of the server *)

Lemma sound_same b b' :
  sockets b' = sockets b -> onlineUsers b' = onlineUsers b ->
  onlineCouriers b' = onlineCouriers b ->
  registry_sound b -> registry_sound b'.
Proof. intros Hs Hu Hc [H1 H2]. split; intros *; rewrite ?Hs, ?Hu, ?Hc; eauto. Qed.

Lemma sound_emit b e : registry_sound b -> registry_sound (emit e b).
Proof. by apply sound_same. Qed.

Lemma sound_ws_send b c v : registry_sound b -> registry_sound (ws_send c v b).
Proof. by apply sound_same. Qed.

Lemma sound_ws_ping b c : registry_sound b -> registry_sound (ws_ping c b).
Proof. by apply sound_same. Qed.

Lemma sound_console_log b text args :
  registry_sound b -> registry_sound (console_log text args b).
Proof. by apply sound_same. Qed.

Lemma sound_update_socket b c f :
  keeps_path f -> registry_sound b -> registry_sound (update_socket c f b).
Proof.
  intros Hf [H1 H2]. split; simpl.
  - intros id c' p Hreg. destruct (H1 id c' p Hreg) as (ws & Hws & Hp).
    rewrite lookup_alter. case_decide; subst; rewrite Hws; simpl; eauto.
  - intros id c' Hreg. apply lookup_alter_is_Some. eauto.
Qed.

Lemma keeps_path_start_closing : keeps_path start_closing.
Proof. intros ws. unfold start_closing. by destruct (readyState ws). Qed.

Lemma keeps_path_isAlive v : keeps_path (with_isAlive v).
Proof. by intros ws. Qed.

Lemma keeps_path_bind id role email : keeps_path (bind_identity id role email).
Proof. by intros ws. Qed.

Lemma keeps_path_readyState v : keeps_path (with_readyState v).
Proof. by intros ws. Qed.

Lemma sound_ws_close b c : registry_sound b -> registry_sound (ws_close c b).
Proof.
  intros Hb. apply sound_emit, sound_update_socket;
    [apply keeps_path_start_closing | done].
Qed.

Lemma sound_ws_terminate b c : registry_sound b -> registry_sound (ws_terminate c b).
Proof.
  intros Hb. apply sound_emit, sound_update_socket;
    [apply keeps_path_start_closing | done].
Qed.

Lemma sound_delete_users b id :
  registry_sound b ->
  registry_sound (set_onlineUsers (delete id (onlineUsers b)) b).
Proof.
  intros [H1 H2]. split; simpl; [| done].
  intros id' c p. rewrite lookup_delete. case_decide; [done | apply H1].
Qed.

Lemma sound_delete_couriers b id :
  registry_sound b ->
  registry_sound (set_onlineCouriers (delete id (onlineCouriers b)) b).
Proof.
  intros [H1 H2]. split; simpl; [done |].
  intros id' c. rewrite lookup_delete. case_decide; [done | apply H2].
Qed.

Create HintDb sound.
#[local] Hint Resolve sound_emit sound_ws_send sound_ws_ping sound_console_log
  sound_ws_close sound_ws_terminate sound_delete_users sound_delete_couriers
  : sound.

Ltac sound_cases :=
  cbv zeta;
  repeat match goal with
    | |- context [if ?x then _ else _] => destruct x
    | |- context [match ?x with _ => _ end] => destruct x
    end;
  eauto 10 with sound.

Lemma sound_on_close b c : registry_sound b -> registry_sound (on_close c b).
Proof. intros Hb. unfold on_close. sound_cases. Qed.

Lemma sound_check_alive b c : registry_sound b -> registry_sound (check_alive b c).
Proof.
  intros Hb. unfold check_alive.
  destruct (sockets b !! c) as [ws|]; [| done].
  destruct (negb (isAlive ws)).
  - apply sound_ws_terminate. sound_cases.
  - apply sound_ws_ping, sound_update_socket; [apply keeps_path_isAlive | done].
Qed.

Lemma sound_interval b : registry_sound b -> registry_sound (interval b).
Proof.
  unfold interval. generalize (clients b). intros l. revert b.
  induction l as [|c l IH]; intros b Hb; simpl; [done |].
  by apply IH, sound_check_alive.
Qed.

Lemma sound_handleParcelChatMessage b c parsedData :
  registry_sound b -> registry_sound (handleParcelChatMessage c parsedData b).
Proof.
  intros Hb. destruct (signalling_keeps_registries c parsedData b)
    as (Hs & Hu & Hc).
  by apply (sound_same b).
Qed.

Lemma sound_evict_existing b c id role :
  registry_sound b -> registry_sound (evict_existing c id role b).
Proof. intros Hb. unfold evict_existing. sound_cases. Qed.

Lemma sound_register b c id role email :
  is_Some (sockets b !! c) ->
  registry_sound b -> registry_sound (register c id role email b).
Proof.
  intros [ws Hws] Hb. unfold register. cbv zeta.
  assert (Hs1 : sockets (update_socket c (bind_identity id role email) b) !! c
                = Some (bind_identity id role email ws))
    by (simpl; by rewrite lookup_alter_eq, Hws).
  rewrite Hs1.
  pose proof (sound_update_socket b c (bind_identity id role email)
                (keeps_path_bind id role email) Hb) as [H1 H2].
  assert (Husers : forall id' c' p,
            <[id := (c, path (bind_identity id role email ws))]>
              (onlineUsers (update_socket c (bind_identity id role email) b))
              !! id' = Some (c', p) ->
            exists ws',
              sockets (update_socket c (bind_identity id role email) b) !! c'
              = Some ws' /\ path ws' = p).
  { intros id' c' p. rewrite lookup_insert. case_decide; [| apply H1].
    intros [= <- <-]. eauto. }
  destruct (String.eqb role UserRole_Client); split; try exact Husers;
    try exact H2.
  intros id' c'. cbn [onlineCouriers set_onlineCouriers set_onlineUsers sockets].
  rewrite lookup_insert. case_decide; [| apply H2].
  intros [= <-]. by rewrite Hs1.
Qed.

Lemma evict_existing_keeps_sockets b c id role c' :
  is_Some (sockets b !! c') -> is_Some (sockets (evict_existing c id role b) !! c').
Proof.
  intros H. unfold evict_existing.
  repeat match goal with
    | |- context [if ?x then _ else _] => destruct x
    | |- context [match ?x with _ => _ end] => destruct x
    end; simpl; try done; by apply lookup_alter_is_Some.
Qed.

Lemma sound_on_message verifyToken b c data :
  registry_sound b -> registry_sound (on_message verifyToken c data b).
Proof.
  intros Hb. unfold on_message.
  destruct (sockets b !! c) as [ws|] eqn:Hws; [| done].
  destruct (data ≫= _) as [[parsedData event]|]; [| eauto with sound].
  destruct (negb (has_identity (userId ws)) && negb (str_is event "authenticate"));
    [eauto with sound |].
  destruct (str_is event "authenticate").
  - unfold authenticate.
    destruct (negb (truthy (prop parsedData "token"))); [eauto with sound |].
    destruct (verifyToken (prop parsedData "token")); eauto with sound.
    apply sound_ws_send, sound_register.
    + apply evict_existing_keeps_sockets. simpl. by rewrite Hws.
    + apply sound_evict_existing. eauto with sound.
  - destruct (String.eqb (path ws) "/driver-location"); [eauto with sound |].
    apply sound_handleParcelChatMessage. eauto with sound.
Qed.

Lemma sound_on_connection url b : wf b -> registry_sound b ->
  registry_sound (on_connection url b).
Proof.
  intros Hwf [H1 H2]. unfold on_connection.
  apply sound_ws_send, sound_console_log. split; simpl.
  - intros id c p Hreg. destruct (H1 id c p Hreg) as (ws & Hws & Hp).
    exists ws. split; [| done]. rewrite lookup_insert_ne; [done |].
    intros <-. assert (nextConn b < nextConn b); [| lia].
    apply (wf_sockets _ Hwf). eauto.
  - intros id c Hreg. rewrite lookup_insert. case_decide; [done | eauto].
Qed.

Lemma sound_step verifyToken b ev :
  wf b -> registry_sound b -> registry_sound (step verifyToken b ev).
Proof.
  intros Hwf Hb. destruct ev as [url | c data | c | | c]; simpl.
  - by apply sound_on_connection.
  - destruct (listening b c); [by apply sound_on_message | done].
  - destruct (listening b c); [| done].
    apply sound_update_socket; [apply keeps_path_isAlive | done].
  - by apply sound_interval.
  - destruct (listening b c); [| done].
    apply sound_on_close. unfold transport_closed.
    apply (sound_same (update_socket c (with_readyState CLOSED) b)); try done.
    apply sound_update_socket; [apply keeps_path_readyState | done].
Qed.

(** X12: in every state the broker can reach, each registry entry names a
    socket of the server and records the path that socket connected on,
    and each role-index entry names a socket of the server: a lookup for a
    relay never yields a socket the server does not know. *)
Theorem registry_entries_name_known_sockets verifyToken b :
  reachable verifyToken b ->
  (forall id c p, onlineUsers b !! id = Some (c, p) ->
     exists ws, sockets b !! c = Some ws /\ path ws = p)
  /\ (forall id c, onlineCouriers b !! id = Some c -> is_Some (sockets b !! c)).
Proof.
  intros [evs ->]. unfold run.
  assert (wf init /\ registry_sound init) as Hinit.
  { split; [apply wf_init |].
    split; intros *; simpl; by rewrite lookup_empty. }
  revert Hinit. generalize init.
  induction evs as [|ev evs IH]; intros b [Hwf Hb]; simpl; [exact Hb |].
  apply IH. split; [by apply wf_step | by apply sound_step].
Qed.

Lemma registry_entries_name_known_sockets_witness :
  exists ws, sockets Samples.host_and_driver !! 1 = Some ws
             /\ path ws = "/driver-location".
Proof.
  destruct (registry_entries_name_known_sockets Samples.sample_verify
              Samples.host_and_driver) as [Husers _].
  - eexists. reflexivity.
  - apply (Husers "client-1"). vm_compute. reflexivity.
Defined.

End CallExtras.

(** * Further properties of the chat and location broker *)

Module ChatExtras.
Import ChatBroker ChatInvariants ChatShapes ChatFacts.

(** ** Messages that do not parse *)

(** X13: in the chat and location broker a message whose text does not
    parse, or parses to [null], is only written to the console: nothing is
    sent back and the state is otherwise as before. *)
Theorem chat_malformed_message_is_only_logged verifyToken f b c data :
  data = None \/ data = Some JNull ->
  on_message verifyToken f c data b
  = console_log "WebSocket message handling error:" [] b.
Proof. by intros [-> | ->]. Qed.

Lemma chat_malformed_message_is_only_logged_witness :
  effects (on_message Samples.sample_verify healthy 0 None
             (run Samples.sample_verify init [Connection]))
  = [].
Proof.
  rewrite (chat_malformed_message_is_only_logged Samples.sample_verify healthy
             (run Samples.sample_verify init [Connection]) 0 None);
    [reflexivity | by left].
Defined.

(** ** Chat history *)

Lemma room_joins_sym A B room : room_joins A B room = room_joins B A room.
Proof. unfold room_joins. apply orb_comm. Qed.

(** X14: [fetchChats] for a pair without a room answers [noRoomFound] and
    does nothing else: the state is the state before with that one
    envelope added, whatever the store would have done on further calls. *)
Theorem fetchChats_without_room verifyToken f b c A B parsedData :
  id_of_conn b c = Some A -> A <> "" ->
  get_prop parsedData "event" = Some (JStr "fetchChats") ->
  prop parsedData "receiverId" = JStr B -> B <> "" ->
  f RoomFindFirst = false ->
  (forall room, In room (rooms (store b)) -> room_joins A B room = false) ->
  on_message verifyToken f c (Some parsedData) b
  = ws_send c (JObj [("event", JStr "noRoomFound")]) b.
Proof.
  intros Hid HA Hev HB HBne Hf Hnone.
  rewrite (chat_on_message_parsed _ _ _ _ _ _ Hev). unfold dispatch. simpl.
  unfold fetchChats. rewrite Hid, (has_identity_Some _ HA), HB.
  rewrite (truthy_JStr _ HBne). simpl.
  unfold room_findFirst. rewrite Hf. simpl.
  by rewrite (find_none_joins _ _ _ Hnone).
Qed.

Lemma fetchChats_without_room_witness :
  let b := run Samples.sample_verify init
             [Connection;
              Message 0 (Some (Samples.authenticate_request "alice")) healthy] in
  let request := JObj [("event", JStr "fetchChats"); ("receiverId", JStr "bob")] in
  on_message Samples.sample_verify
    (fun call => match call with RoomFindFirst => false | _ => true end)
    0 (Some request) b
  = ws_send 0 (JObj [("event", JStr "noRoomFound")]) b.
Proof.
  intros b request.
  apply (fetchChats_without_room Samples.sample_verify _ b 0 "alice" "bob" request).
  - vm_compute; reflexivity.
  - discriminate.
  - reflexivity.
  - reflexivity.
  - discriminate.
  - reflexivity.
  - intros room [].
Defined.

(** [fetchChats] for a pair with a room, on a store that serves the calls. *)
Lemma fetchChats_event verifyToken f b c A B parsedData room :
  id_of_conn b c = Some A -> A <> "" ->
  get_prop parsedData "event" = Some (JStr "fetchChats") ->
  prop parsedData "receiverId" = JStr B -> B <> "" ->
  (forall call, f call = false) ->
  List.find (room_joins A B) (rooms (store b)) = Some room ->
  on_message verifyToken f c (Some parsedData) b
  = ws_send c
      (message_envelope "fetchChats"
         (JArr (List.map chat_json
                  (List.filter (fun ch => Nat.eqb (chat_roomId ch) (room_id room))
                     (chats (store b))))))
      (set_store
         {| rooms := rooms (store b);
            chats := List.map (read_by (room_id room) A) (chats (store b));
            users := users (store b) |} b).
Proof.
  intros Hid HA Hev HB HBne Hf Hroom.
  rewrite (chat_on_message_parsed _ _ _ _ _ _ Hev). unfold dispatch. simpl.
  unfold fetchChats. rewrite Hid, (has_identity_Some _ HA), HB.
  rewrite (truthy_JStr _ HBne). simpl.
  unfold room_findFirst, chat_findMany_room, chat_updateMany_read.
  rewrite !Hf. simpl. by rewrite Hroom.
Qed.

(** X15: [fetchChats] for a pair with a room sends the caller one
    [fetchChats] envelope whose data are the chats of that room in the
    order of their creation, each with its eight fields as they were before
    the call (the read marks it sets are not in the answer), and marks as
    read exactly the chats of the room that are addressed to the caller;
    rooms, users, the number of chats and the seven other fields of every
    chat are untouched. *)
Theorem fetchChats_returns_history_and_marks_read
    verifyToken f b c A B parsedData room :
  id_of_conn b c = Some A -> A <> "" ->
  get_prop parsedData "event" = Some (JStr "fetchChats") ->
  prop parsedData "receiverId" = JStr B -> B <> "" ->
  (forall call, f call = false) ->
  List.find (room_joins A B) (rooms (store b)) = Some room ->
  let b' := on_message verifyToken f c (Some parsedData) b in
  let history := List.filter (fun ch => Nat.eqb (chat_roomId ch) (room_id room))
                   (chats (store b)) in
  let row := fun ch =>
    JObj [("id", JNum (Z.of_nat (chat_id ch)));
          ("senderId", JStr (chat_senderId ch));
          ("receiverId", JStr (chat_receiverId ch));
          ("roomId", JNum (Z.of_nat (chat_roomId ch)));
          ("message", JStr (chat_message ch));
          ("images", JArr (List.map JStr (chat_images ch)));
          ("isRead", JBool (chat_isRead ch));
          ("createdAt", JNum (Z.of_nat (chat_createdAt ch)))] in
  effects b'
  = effects b ++ [Send c (JObj [("event", JStr "fetchChats");
                                ("data", JArr (List.map row history))])]
  /\ rooms (store b') = rooms (store b)
  /\ users (store b') = users (store b)
  /\ length (chats (store b')) = length (chats (store b))
  /\ forall i ch, chats (store b) !! i = Some ch ->
       exists ch', chats (store b') !! i = Some ch'
         /\ chat_id ch' = chat_id ch /\ chat_message ch' = chat_message ch
         /\ chat_senderId ch' = chat_senderId ch
         /\ chat_receiverId ch' = chat_receiverId ch
         /\ chat_roomId ch' = chat_roomId ch
         /\ chat_images ch' = chat_images ch
         /\ chat_createdAt ch' = chat_createdAt ch
         /\ chat_isRead ch'
            = (chat_isRead ch
               || (Nat.eqb (chat_roomId ch) (room_id room)
                   && String.eqb (chat_receiverId ch) A)).
Proof.
  intros Hid HA Hev HB HBne Hf Hroom b' history row.
  assert (Hrow : row = chat_json) by reflexivity.
  clearbody row. subst b' row.
  rewrite (fetchChats_event _ _ _ _ _ _ _ _ Hid HA Hev HB HBne Hf Hroom). simpl.
  split; [done |]. split; [done |]. split; [done |].
  split; [apply length_map |].
  intros i ch Hi. exists (read_by (room_id room) A ch).
  split; [by rewrite list_lookup_fmap, Hi |].
  unfold read_by.
  destruct (Nat.eqb (chat_roomId ch) (room_id room)
            && String.eqb (chat_receiverId ch) A); simpl;
    rewrite ?orb_true_r, ?orb_false_r; done.
Qed.

Lemma fetchChats_returns_history_and_marks_read_witness :
  let request := JObj [("event", JStr "fetchChats"); ("receiverId", JStr "alice")] in
  let b' := on_message Samples.sample_verify healthy 1 (Some request)
              Samples.alice_wrote_bob in
  List.map chat_isRead (chats (store Samples.alice_wrote_bob)) = [false]
  /\ effects b'
     = effects Samples.alice_wrote_bob
       ++ [Send 1
             (JObj [("event", JStr "fetchChats");
                    ("data",
                     JArr [JObj [("id", JNum 0);
                                 ("senderId", JStr "alice");
                                 ("receiverId", JStr "bob");
                                 ("roomId", JNum 0);
                                 ("message", JStr "hi");
                                 ("images", JArr []);
                                 ("isRead", JBool false);
                                 ("createdAt", JNum 0)]])])]
  /\ exists ch', chats (store b') !! 0 = Some ch' /\ chat_isRead ch' = true.
Proof.
  intros request b'. split; [vm_compute; reflexivity |].
  destruct (fetchChats_returns_history_and_marks_read Samples.sample_verify
              healthy Samples.alice_wrote_bob 1 "bob" "alice" request
              {| room_id := 0; room_senderId := "alice"; room_receiverId := "bob" |})
    as (Hsent & _ & _ & _ & Hchats).
  - vm_compute; reflexivity.
  - discriminate.
  - reflexivity.
  - reflexivity.
  - discriminate.
  - reflexivity.
  - vm_compute; reflexivity.
  - destruct (Hchats 0
                {| chat_id := 0; chat_senderId := "alice"; chat_receiverId := "bob";
                   chat_roomId := 0; chat_message := "hi"; chat_images := [];
                   chat_isRead := false; chat_createdAt := 0 |})
      as (ch' & Hch' & _ & _ & _ & _ & _ & _ & _ & Hread).
    + vm_compute; reflexivity.
    + split; [exact Hsent |]. exists ch'. split; [exact Hch' | exact Hread].
Defined.

Lemma nothing_unread_after_read roomId reader l :
  List.filter (fun ch => Nat.eqb (chat_roomId ch) roomId
                         && negb (chat_isRead ch)
                         && String.eqb (chat_receiverId ch) reader)
    (List.map (read_by roomId reader) l) = [].
Proof.
  induction l as [|ch l IH]; simpl; [done |].
  unfold read_by at 1 2 3.
  destruct (Nat.eqb (chat_roomId ch) roomId) eqn:E1; simpl; [| by rewrite E1].
  destruct (String.eqb (chat_receiverId ch) reader) eqn:E2; simpl.
  - by rewrite E1.
  - by rewrite E1, E2, andb_false_r.
Qed.

(** X16: after a [fetchChats] for a pair, an [unReadMessages] of the same
    caller for the same pair reports nothing unread: an empty list with
    count zero. *)
Theorem nothing_unread_after_fetchChats
    verifyToken f1 f2 b c A B fetch unread room :
  id_of_conn b c = Some A -> A <> "" ->
  get_prop fetch "event" = Some (JStr "fetchChats") ->
  prop fetch "receiverId" = JStr B -> B <> "" ->
  get_prop unread "event" = Some (JStr "unReadMessages") ->
  prop unread "receiverId" = JStr B ->
  (forall call, f1 call = false) -> (forall call, f2 call = false) ->
  List.find (room_joins A B) (rooms (store b)) = Some room ->
  let b1 := on_message verifyToken f1 c (Some fetch) b in
  let b2 := on_message verifyToken f2 c (Some unread) b1 in
  effects b2
  = effects b1
    ++ [Send c (message_envelope "unReadMessages"
                  (JObj [("messages", JArr []); ("count", JNum 0)]))]
  /\ store b2 = store b1.
Proof.
  intros Hid HA Hfetch HB HBne Hunread HB' Hf1 Hf2 Hroom b1 b2.
  subst b2 b1.
  rewrite (fetchChats_event _ _ _ _ _ _ _ _ Hid HA Hfetch HB HBne Hf1 Hroom).
  rewrite (chat_on_message_parsed _ _ _ _ _ _ Hunread). unfold dispatch. simpl.
  unfold unReadMessages.
  change (id_of_conn (ws_send _ _ (set_store _ b)) c) with (id_of_conn b c).
  rewrite Hid, (has_identity_Some _ HA), HB', (truthy_JStr _ HBne). simpl.
  unfold room_findFirst, chat_findMany_unread. rewrite !Hf2. simpl.
  rewrite Hroom, nothing_unread_after_read. done.
Qed.

Lemma nothing_unread_after_fetchChats_witness :
  let fetch := JObj [("event", JStr "fetchChats"); ("receiverId", JStr "alice")] in
  let unread := JObj [("event", JStr "unReadMessages");
                      ("receiverId", JStr "alice")] in
  let before := on_message Samples.sample_verify healthy 1 (Some unread)
                  Samples.alice_wrote_bob in
  let b1 := on_message Samples.sample_verify healthy 1 (Some fetch)
              Samples.alice_wrote_bob in
  let b2 := on_message Samples.sample_verify healthy 1 (Some unread) b1 in
  (exists v, last (effects before) = Some (Send 1 v)
             /\ prop (prop v "data") "count" = JNum 1)
  /\ exists v, last (effects b2) = Some (Send 1 v)
               /\ prop (prop v "data") "count" = JNum 0.
Proof.
  intros fetch unread before b1 b2. split.
  - eexists. split; vm_compute; reflexivity.
  - destruct (nothing_unread_after_fetchChats Samples.sample_verify healthy
                healthy Samples.alice_wrote_bob 1 "bob" "alice" fetch unread
                {| room_id := 0; room_senderId := "alice";
                   room_receiverId := "bob" |}) as (Heff & _).
    + vm_compute; reflexivity.
    + discriminate.
    + reflexivity.
    + reflexivity.
    + discriminate.
    + reflexivity.
    + reflexivity.
    + reflexivity.
    + reflexivity.
    + vm_compute; reflexivity.
    + eexists. unfold b2, b1. rewrite Heff, last_snoc. split; reflexivity.
Defined.

Ltac only_answers_cases :=
  repeat match goal with
    | |- context [if ?x then _ else _] => destruct x
    | |- context [match ?x with _ => _ end] => destruct x
    end; simpl;
  repeat (split; [done |]);
  first
    [ exists []; rewrite app_nil_r; split; [done |]; split; [simpl; lia |];
      intros e []
    | eexists [_]; split; [reflexivity |]; split; [simpl; lia |];
      intros e [<- | []]; eauto ].

Lemma unReadMessages_only_answers f c parsedData b :
  only_answers c b (state_of (unReadMessages f c parsedData b)).
Proof.
  unfold only_answers, unReadMessages, room_findFirst, chat_findMany_unread.
  only_answers_cases.
Qed.

Lemma messageList_only_answers f c b :
  only_answers c b (state_of (messageList f c b)).
Proof.
  unfold only_answers, messageList, room_findMany_of, user_findMany_in.
  only_answers_cases.
Qed.

(** X17: [unReadMessages] and [messageList] only read: whatever the
    payload, the identity of the connection and the answers of the store,
    they leave the store, the sockets, the registries, the locations and
    the subscriptions as they are, and send at most one envelope, to the
    caller. *)
Theorem queries_change_no_state verifyToken f b c parsedData event :
  get_prop parsedData "event" = Some (JStr event) ->
  event = "unReadMessages" \/ event = "messageList" ->
  let b' := on_message verifyToken f c (Some parsedData) b in
  store b' = store b
  /\ sockets b' = sockets b /\ clients b' = clients b
  /\ onlineUsers b' = onlineUsers b /\ userSockets b' = userSockets b
  /\ userLocations b' = userLocations b
  /\ locationSubscribers b' = locationSubscribers b
  /\ exists es,
       effects b' = effects b ++ es
       /\ length es <= 1
       /\ forall e, In e es -> exists payload, e = Send c payload.
Proof.
  intros Hev Hevent b'. subst b'.
  rewrite (chat_on_message_parsed _ _ _ _ _ _ Hev). unfold dispatch.
  destruct Hevent as [-> | ->]; simpl.
  - pose proof (unReadMessages_only_answers f c parsedData b) as H.
    by destruct (unReadMessages f c parsedData b).
  - pose proof (messageList_only_answers f c b) as H.
    by destruct (messageList f c b).
Qed.

Lemma queries_change_no_state_witness :
  store (on_message Samples.sample_verify healthy 1
           (Some (JObj [("event", JStr "messageList")])) Samples.alice_wrote_bob)
  = store Samples.alice_wrote_bob.
Proof.
  apply (queries_change_no_state Samples.sample_verify healthy
           Samples.alice_wrote_bob 1 (JObj [("event", JStr "messageList")])
           "messageList").
  - reflexivity.
  - by right.
Defined.

(** ** Rooms *)

Lemma find_snoc {A} (p : A -> bool) l x :
  List.find p l = None -> List.find p (l ++ [x]) = if p x then Some x else None.
Proof.
  induction l as [|y l IH]; simpl; [done |].
  destruct (p y); [discriminate | exact IH].
Qed.

(** What a [message] event does to the store, when the store serves the
    calls. *)
Lemma message_event verifyToken f b c A B text images parsedData :
  id_of_conn b c = Some A -> A <> "" ->
  get_prop parsedData "event" = Some (JStr "message") ->
  prop parsedData "receiverId" = JStr B -> B <> "" ->
  prop parsedData "message" = JStr text -> text <> "" ->
  images_of (prop parsedData "images") = Some images ->
  (forall call, f call = false) ->
  let found := List.find (room_joins A B) (rooms (store b)) in
  let room := default {| room_id := length (rooms (store b));
                         room_senderId := A; room_receiverId := B |} found in
  let chat := {| chat_id := length (chats (store b));
                 chat_senderId := A; chat_receiverId := B;
                 chat_roomId := room_id room; chat_message := text;
                 chat_images := images; chat_isRead := false;
                 chat_createdAt := length (chats (store b)) |} in
  let b' := on_message verifyToken f c (Some parsedData) b in
  store b'
  = {| rooms := match found with
                 | Some _ => rooms (store b)
                 | None => rooms (store b) ++ [room]
                 end;
       chats := chats (store b) ++ [chat];
       users := users (store b) |}
  /\ sockets b' = sockets b.
Proof.
  intros Hid HA Hev HB HBne Htext Htextne Himages Hf found room chat b'.
  subst b'. rewrite (chat_on_message_parsed _ _ _ _ _ _ Hev). unfold dispatch.
  simpl. unfold message. rewrite Hid, (has_identity_Some _ HA), HB, Htext.
  rewrite (truthy_JStr _ HBne), (truthy_JStr _ Htextne). simpl.
  unfold room_findFirst. rewrite Hf. simpl. fold found.
  subst room chat. destruct found as [r|]; simpl.
  - unfold chat_create. rewrite Hf. simpl. rewrite Himages. simpl.
    by destruct (userSockets b !! B) as [s|]; [destruct (is_open _ s) |].
  - unfold room_create. rewrite Hf. simpl.
    unfold chat_create. rewrite Hf. simpl. rewrite Himages. simpl.
    by destruct (userSockets b !! B) as [s|]; [destruct (is_open _ s) |].
Qed.

(** X18: a room belongs to the unordered pair: when [A] has written to
    [B] and no room existed, the reply of [B] to [A] creates no second
    room; both chats carry the id of the one room. *)
Theorem reply_reuses_the_room
    verifyToken f1 f2 b ca cb A B first reply text1 text2 images1 images2 :
  id_of_conn b ca = Some A -> A <> "" ->
  id_of_conn b cb = Some B -> B <> "" ->
  get_prop first "event" = Some (JStr "message") ->
  prop first "receiverId" = JStr B ->
  prop first "message" = JStr text1 -> text1 <> "" ->
  images_of (prop first "images") = Some images1 ->
  get_prop reply "event" = Some (JStr "message") ->
  prop reply "receiverId" = JStr A ->
  prop reply "message" = JStr text2 -> text2 <> "" ->
  images_of (prop reply "images") = Some images2 ->
  (forall call, f1 call = false) -> (forall call, f2 call = false) ->
  (forall room, In room (rooms (store b)) -> room_joins A B room = false) ->
  let b1 := on_message verifyToken f1 ca (Some first) b in
  let b2 := on_message verifyToken f2 cb (Some reply) b1 in
  exists room chat1 chat2,
    rooms (store b1) = rooms (store b) ++ [room]
    /\ rooms (store b2) = rooms (store b1)
    /\ chats (store b2) = chats (store b) ++ [chat1; chat2]
    /\ chat_roomId chat1 = room_id room /\ chat_roomId chat2 = room_id room
    /\ chat_senderId chat1 = A /\ chat_receiverId chat1 = B
    /\ chat_senderId chat2 = B /\ chat_receiverId chat2 = A.
Proof.
  intros HidA HA HidB HB Hev1 Hr1 Ht1 Ht1ne Hi1 Hev2 Hr2 Ht2 Ht2ne Hi2
    Hf1 Hf2 Hnone b1 b2.
  destruct (message_event verifyToken f1 b ca A B text1 images1 first
              HidA HA Hev1 Hr1 HB Ht1 Ht1ne Hi1 Hf1) as [Hs1 Hsock1].
  fold b1 in Hs1, Hsock1.
  rewrite (find_none_joins _ _ _ Hnone) in Hs1. simpl in Hs1.
  set (room := {| room_id := length (rooms (store b));
                  room_senderId := A; room_receiverId := B |}) in *.
  assert (HidB1 : id_of_conn b1 cb = Some B).
  { unfold id_of_conn in *. by rewrite Hsock1. }
  destruct (message_event verifyToken f2 b1 cb B A text2 images2 reply
              HidB1 HB Hev2 Hr2 HA Ht2 Ht2ne Hi2 Hf2) as [Hs2 _].
  fold b2 in Hs2.
  assert (Hfind : List.find (room_joins B A) (rooms (store b1)) = Some room).
  { rewrite Hs1. simpl. rewrite find_snoc.
    - unfold room_joins. simpl. by rewrite !String.eqb_refl, orb_true_r.
    - apply find_none_joins. intros r Hr. rewrite room_joins_sym. by apply Hnone. }
  rewrite Hfind in Hs2. simpl in Hs2.
  eexists room, _, _. rewrite Hs2, Hs1. simpl.
  split; [done |]. split; [done |]. split; [by rewrite <- app_assoc |]. done.
Qed.

Lemma reply_reuses_the_room_witness :
  let b := run Samples.sample_verify init
             [Connection;
              Message 0 (Some (Samples.authenticate_request "alice")) healthy;
              Connection;
              Message 1 (Some (Samples.authenticate_request "bob")) healthy] in
  let b1 := on_message Samples.sample_verify healthy 0
              (Some (Samples.message_request "bob" "hi")) b in
  let b2 := on_message Samples.sample_verify healthy 1
              (Some (Samples.message_request "alice" "hello")) b1 in
  length (rooms (store b2)) = 1 /\ length (chats (store b2)) = 2.
Proof.
  intros b b1 b2.
  destruct (reply_reuses_the_room Samples.sample_verify healthy healthy
              b 0 1 "alice" "bob"
              (Samples.message_request "bob" "hi")
              (Samples.message_request "alice" "hello") "hi" "hello" [] [])
    as (room & chat1 & chat2 & Hr1 & Hr2 & Hc & _).
  - vm_compute; reflexivity.
  - discriminate.
  - vm_compute; reflexivity.
  - discriminate.
  - reflexivity.
  - reflexivity.
  - reflexivity.
  - discriminate.
  - reflexivity.
  - reflexivity.
  - reflexivity.
  - reflexivity.
  - discriminate.
  - reflexivity.
  - reflexivity.
  - reflexivity.
  - intros room [].
  - unfold b2, b1. split.
    + rewrite Hr2, Hr1, length_app. vm_compute. reflexivity.
    + rewrite Hc, length_app. vm_compute. reflexivity.
Defined.

(** X19: when the store creates the room and then fails to create the
    chat, the room stays behind, no chat is stored and no envelope is sent,
    neither to the receiver nor to the sender; the failure only reaches
    the console. *)
Theorem failed_chat_leaves_the_room_behind verifyToken f b c A B parsedData :
  id_of_conn b c = Some A -> A <> "" ->
  get_prop parsedData "event" = Some (JStr "message") ->
  prop parsedData "receiverId" = JStr B -> B <> "" ->
  truthy (prop parsedData "message") = true ->
  f RoomFindFirst = false -> f RoomCreate = false -> f ChatCreate = true ->
  (forall room, In room (rooms (store b)) -> room_joins A B room = false) ->
  on_message verifyToken f c (Some parsedData) b
  = console_log "WebSocket message handling error:" []
      (set_store
         {| rooms := rooms (store b)
                     ++ [{| room_id := length (rooms (store b));
                            room_senderId := A; room_receiverId := B |}];
            chats := chats (store b);
            users := users (store b) |} b).
Proof.
  intros Hid HA Hev HB HBne Htext Hf1 Hf2 Hf3 Hnone.
  rewrite (chat_on_message_parsed _ _ _ _ _ _ Hev). unfold dispatch. simpl.
  unfold message. rewrite Hid, (has_identity_Some _ HA), HB, Htext.
  rewrite (truthy_JStr _ HBne). simpl.
  unfold room_findFirst. rewrite Hf1. simpl.
  rewrite (find_none_joins _ _ _ Hnone).
  unfold room_create. rewrite Hf2. simpl.
  unfold chat_create. by rewrite Hf3.
Qed.

Lemma failed_chat_leaves_the_room_behind_witness :
  let b := run Samples.sample_verify init
             [Connection;
              Message 0 (Some (Samples.authenticate_request "alice")) healthy] in
  let b' := on_message Samples.sample_verify
              (fun call => match call with ChatCreate => true | _ => false end)
              0 (Some (Samples.message_request "bob" "hi")) b in
  length (rooms (store b')) = 1 /\ chats (store b') = []
  /\ effects b' = effects b.
Proof.
  intros b b'. unfold b'.
  rewrite (failed_chat_leaves_the_room_behind Samples.sample_verify _ b 0
             "alice" "bob" (Samples.message_request "bob" "hi")).
  - vm_compute. repeat split; reflexivity.
  - vm_compute; reflexivity.
  - discriminate.
  - reflexivity.
  - reflexivity.
  - discriminate.
  - reflexivity.
  - reflexivity.
  - reflexivity.
  - reflexivity.
  - intros room [].
Defined.

(** ** Locations and subscriptions *)

(** X20: a [locationUpdate] that lacks [lat] or [lng] (absent or [null])
    is dropped without a trace; one that has both, a zero included, is
    recorded for the identity in the location map, replacing the earlier
    position, whether the store takes the position or fails. *)
Theorem locationUpdate_needs_both_coordinates verifyToken f b c T parsedData :
  id_of_conn b c = Some T -> T <> "" ->
  get_prop parsedData "event" = Some (JStr "locationUpdate") ->
  let lat := prop parsedData "lat" in
  let lng := prop parsedData "lng" in
  let b' := on_message verifyToken f c (Some parsedData) b in
  (nullish lat = true \/ nullish lng = true -> b' = b)
  /\ (nullish lat = false -> nullish lng = false ->
      userLocations b' !! T = Some (lat, lng)
      /\ (forall u, u <> T -> userLocations b' !! u = userLocations b !! u)
      /\ (user_update_location f (store b) T lat lng = None -> store b' = store b)).
Proof.
  intros Hid HT Hev lat lng b'. split.
  - intros Hmissing. subst b'.
    rewrite (chat_on_message_parsed _ _ _ _ _ _ Hev). unfold dispatch. simpl.
    unfold locationUpdate. rewrite Hid, (has_identity_Some _ HT). simpl.
    fold lat lng. by destruct Hmissing as [-> | ->]; rewrite ?orb_true_r.
  - intros Hlat Hlng.
    destruct (locationUpdate_event verifyToken f b c T parsedData
                Hid HT Hev Hlat Hlng) as (_ & _ & _ & _ & Hloc).
    fold b' lat lng in Hloc. rewrite Hloc.
    split; [apply lookup_insert_eq |].
    split; [intros u Hu; by rewrite lookup_insert_ne |].
    intros Hfail. subst b'.
    rewrite (chat_on_message_parsed _ _ _ _ _ _ Hev). unfold dispatch. simpl.
    unfold locationUpdate. rewrite Hid, (has_identity_Some _ HT). simpl.
    fold lat lng. rewrite Hlat, Hlng. simpl. rewrite Hfail. simpl.
    destruct (subscribers_of (JStr T) (locationSubscribers b)) as [l|];
      simpl; [| done].
    match goal with
    | |- context [foldl ?g ?b0 l] =>
        change (foldl g b0 l)
          with (foldl (send_if_open (locationUpdate_envelope T lat lng)) b0 l)
    end.
    by rewrite send_each.
Qed.

Lemma locationUpdate_needs_both_coordinates_witness :
  let b := run Samples.sample_verify init
             [Connection;
              Message 0 (Some (Samples.authenticate_request "tom")) healthy] in
  on_message Samples.sample_verify healthy 0
    (Some (JObj [("event", JStr "locationUpdate"); ("lat", JNum 10)])) b = b
  /\ userLocations
       (on_message Samples.sample_verify healthy 0
          (Some (Samples.location_report 0 0)) b) !! "tom"
     = Some (JNum 0, JNum 0).
Proof.
  intros b. split.
  - destruct (locationUpdate_needs_both_coordinates Samples.sample_verify healthy
                b 0 "tom"
                (JObj [("event", JStr "locationUpdate"); ("lat", JNum 10)]))
      as (Hdrop & _);
      [vm_compute; reflexivity | discriminate | reflexivity |].
    apply Hdrop. right. reflexivity.
  - destruct (locationUpdate_needs_both_coordinates Samples.sample_verify healthy
                b 0 "tom" (Samples.location_report 0 0))
      as (_ & Hkeep);
      [vm_compute; reflexivity | discriminate | reflexivity |].
    destruct Hkeep as (Hloc & _); [reflexivity | reflexivity |]. exact Hloc.
Defined.

Lemma set_add_idem c l : set_add c (set_add c l) = set_add c l.
Proof.
  unfold set_add at 2. destruct (existsb (Nat.eqb c) l) eqn:E.
  - unfold set_add. by rewrite E.
  - unfold set_add. rewrite existsb_app. simpl.
    rewrite Nat.eqb_refl. simpl. by rewrite orb_true_r, E.
Qed.

Lemma subscribe_idem key c index :
  same_key key key = true ->
  subscribe key c (subscribe key c index) = subscribe key c index.
Proof.
  intros Hkey. induction index as [|[k l] index IH]; simpl.
  - rewrite Hkey. unfold set_add. simpl. by rewrite Nat.eqb_refl.
  - destruct (same_key k key) eqn:E; simpl; rewrite E.
    + by rewrite set_add_idem.
    + by rewrite IH.
Qed.

(** X21: the subscribers of a target are a set: a connection that
    subscribes to the same identity a second time leaves the index as it
    was after the first time, and sends nothing. *)
Theorem subscribing_twice_is_subscribing_once verifyToken f1 f2 b c U T parsedData :
  id_of_conn b c = Some U -> U <> "" ->
  get_prop parsedData "event" = Some (JStr "subscribeToLocation") ->
  prop parsedData "targetUserId" = JStr T -> T <> "" ->
  let b1 := on_message verifyToken f1 c (Some parsedData) b in
  let b2 := on_message verifyToken f2 c (Some parsedData) b1 in
  locationSubscribers b2 = locationSubscribers b1
  /\ subscribers_of (JStr T) (locationSubscribers b2)
     = Some (set_add c (default [] (subscribers_of (JStr T)
                                      (locationSubscribers b))))
  /\ effects b2 = effects b.
Proof.
  intros Hid HU Hev Htarget HT b1 b2. subst b2 b1.
  rewrite (subscribe_event verifyToken f1 b c U T parsedData Hid HU Hev Htarget HT).
  rewrite (subscribe_event verifyToken f2 _ c U T parsedData); try done.
  simpl. assert (same_key (JStr T) (JStr T) = true) as Hkey
    by apply String.eqb_refl.
  rewrite (subscribe_idem _ _ _ Hkey). split; [done |].
  split; [by apply subscribers_of_subscribe | done].
Qed.

Lemma subscribing_twice_is_subscribing_once_witness :
  let b := run Samples.sample_verify init
             [Connection;
              Message 0 (Some (Samples.authenticate_request "uma")) healthy] in
  let b2 := run Samples.sample_verify b
              [Message 0 (Some (Samples.subscribe_request "tom")) healthy;
               Message 0 (Some (Samples.subscribe_request "tom")) healthy] in
  subscribers_of (JStr "tom") (locationSubscribers b2) = Some [0].
Proof.
  intros b b2.
  destruct (subscribing_twice_is_subscribing_once Samples.sample_verify healthy
              healthy b 0 "uma" "tom" (Samples.subscribe_request "tom"))
    as (_ & Hset & _).
  - vm_compute; reflexivity.
  - discriminate.
  - reflexivity.
  - reflexivity.
  - discriminate.
  - vm_compute in Hset. vm_compute. exact Hset.
Defined.

(** The [close] listener, whatever the connection carries. *)
Lemma closed_step verifyToken b c :
  listening b c = true ->
  let b' := step verifyToken b (Closed c) in
  sockets b' = alter (with_readyState CLOSED) c (sockets b)
  /\ (locationSubscribers b' = locationSubscribers b
      \/ locationSubscribers b' = unsubscribe_all c (locationSubscribers b)).
Proof.
  intros Hl b'. subst b'. simpl. rewrite Hl. unfold on_close.
  destruct (id_of_conn (transport_closed c b) c) as [uid|]; [| by split; [| left]].
  destruct (has_identity (Some uid)); [| by split; [| left]].
  rewrite broadcastToAll_spec. simpl. split; [done | by right].
Qed.

(** X22: a subscription is tied to the subscriber, not to the connection
    it watches: the close of a connection removes that connection, and no
    other, from the subscribers of a target, so that after the connection
    of the target has closed, a report by any connection that carries the
    target's identity still reaches the subscriber. *)
Theorem subscription_outlives_target_connection
    verifyToken f b cu ct c3 wsu ws3 T report :
  listening b ct = true -> ct <> cu -> ct <> c3 ->
  sockets b !! cu = Some wsu -> readyState wsu = OPEN ->
  In cu (default [] (subscribers_of (JStr T) (locationSubscribers b))) ->
  sockets b !! c3 = Some ws3 -> readyState ws3 <> CLOSED ->
  userId ws3 = Some T -> T <> "" ->
  get_prop report "event" = Some (JStr "locationUpdate") ->
  nullish (prop report "lat") = false ->
  nullish (prop report "lng") = false ->
  let b1 := step verifyToken b (Closed ct) in
  let b2 := step verifyToken b1 (Message c3 (Some report) f) in
  (forall c, c <> ct ->
     In c (default [] (subscribers_of (JStr T) (locationSubscribers b))) ->
     In c (default [] (subscribers_of (JStr T) (locationSubscribers b1))))
  /\ In (Send cu (locationUpdate_envelope T (prop report "lat")
                    (prop report "lng")))
        (drop (length (effects b1)) (effects b2)).
Proof.
  intros Hl Hcu Hc3 Hwsu Hopenu Hsub Hws3 Hopen3 Hid3 HT Hev Hlat Hlng b1 b2.
  destruct (closed_step verifyToken b ct Hl) as [Hs1 Hi1]. fold b1 in Hs1, Hi1.
  assert (Hkeep : forall c, c <> ct ->
    In c (default [] (subscribers_of (JStr T) (locationSubscribers b))) ->
    In c (default [] (subscribers_of (JStr T) (locationSubscribers b1)))).
  { intros c Hc Hin. destruct Hi1 as [-> | ->]; [done |].
    rewrite subscribers_of_unsubscribe_all.
    destruct (subscribers_of (JStr T) (locationSubscribers b)) as [l|];
      simpl in *; [| done].
    by apply set_delete_In. }
  split; [exact Hkeep |].
  assert (Hb2 : b2 = on_message verifyToken f c3 (Some report) b1).
  { subst b2. simpl. unfold listening. rewrite Hs1, lookup_alter_ne, Hws3 by done.
    by destruct (readyState ws3). }
  assert (Hid1 : id_of_conn b1 c3 = Some T).
  { unfold id_of_conn. by rewrite Hs1, lookup_alter_ne, Hws3 by done. }
  destruct (locationUpdate_event verifyToken f b1 c3 T report
              Hid1 HT Hev Hlat Hlng) as (He2 & _).
  rewrite <- Hb2 in He2. rewrite He2, drop_app_length.
  apply in_map_iff. exists cu. split; [done |].
  apply filter_In. split; [by apply Hkeep |].
  unfold is_open. rewrite Hs1, lookup_alter_ne, Hwsu by done. simpl.
  by rewrite Hopenu.
Qed.

Lemma subscription_outlives_target_connection_witness :
  let b := run Samples.sample_verify init
             [Connection;
              Message 0 (Some (Samples.authenticate_request "uma")) healthy;
              Connection;
              Message 1 (Some (Samples.authenticate_request "tom")) healthy;
              Message 0 (Some (Samples.subscribe_request "tom")) healthy;
              Connection;
              Message 2 (Some (Samples.authenticate_request "tom")) healthy] in
  let b1 := step Samples.sample_verify b (Closed 1) in
  let b2 := step Samples.sample_verify b1
              (Message 2 (Some (Samples.location_report 10 20)) healthy) in
  In (Send 0 (locationUpdate_envelope "tom" (JNum 10) (JNum 20)))
     (drop (length (effects b1)) (effects b2)).
Proof.
  intros b b1 b2.
  destruct (subscription_outlives_target_connection Samples.sample_verify
              healthy b 0 1 2
              {| userId := Some "uma"; readyState := OPEN |}
              {| userId := Some "tom"; readyState := OPEN |}
              "tom" (Samples.location_report 10 20)) as (_ & H).
  - vm_compute; reflexivity.
  - discriminate.
  - discriminate.
  - vm_compute; reflexivity.
  - reflexivity.
  - vm_compute. by left.
  - vm_compute; reflexivity.
  - discriminate.
  - reflexivity.
  - discriminate.
  - reflexivity.
  - reflexivity.
  - reflexivity.
  - exact H.
Defined.

(** ** The list of conversations *)

(** X23: [messageList] answers an authenticated caller with one item per
    room the caller is part of, as sender or as receiver; when the store
    fails on the rooms or on the users, the caller gets the error envelope
    "Failed to fetch message list" instead and the connection goes on. *)
Theorem messageList_lists_the_rooms_of_the_caller verifyToken f b c A parsedData :
  id_of_conn b c = Some A -> A <> "" ->
  get_prop parsedData "event" = Some (JStr "messageList") ->
  let b' := on_message verifyToken f c (Some parsedData) b in
  (f RoomFindMany = true \/ f UserFindMany = true ->
   effects b'
   = effects b ++ [Send c (error_envelope "Failed to fetch message list")])
  /\ (f RoomFindMany = false -> f UserFindMany = false ->
      exists items,
        effects b'
        = effects b ++ [Send c (message_envelope "messageList" (JArr items))]
        /\ length items
           = length (List.filter
                       (fun room => String.eqb (room_senderId room) A
                                    || String.eqb (room_receiverId room) A)
                       (rooms (store b)))).
Proof.
  intros Hid HA Hev b'. subst b'.
  rewrite (chat_on_message_parsed _ _ _ _ _ _ Hev). unfold dispatch. simpl.
  unfold messageList. rewrite Hid, (has_identity_Some _ HA). simpl.
  unfold room_findMany_of, user_findMany_in. split.
  - intros [Hf | Hf]; rewrite Hf; [done |].
    by destruct (f RoomFindMany).
  - intros -> ->. simpl. eexists. split; [reflexivity |].
    by rewrite !length_map.
Qed.

Lemma messageList_lists_the_rooms_of_the_caller_witness :
  exists items,
    effects (on_message Samples.sample_verify healthy 1
               (Some (JObj [("event", JStr "messageList")]))
               Samples.alice_wrote_bob)
    = effects Samples.alice_wrote_bob
      ++ [Send 1 (message_envelope "messageList" (JArr items))]
    /\ length items = 1.
Proof.
  destruct (messageList_lists_the_rooms_of_the_caller Samples.sample_verify
              healthy Samples.alice_wrote_bob 1 "bob"
              (JObj [("event", JStr "messageList")])) as (_ & Hok).
  - vm_compute; reflexivity.
  - discriminate.
  - reflexivity.
  - destruct Hok as (items & Heff & Hlen); [reflexivity | reflexivity |].
    exists items. split; [exact Heff |]. rewrite Hlen. vm_compute. reflexivity.
Defined.

(** ** A connection that authenticates twice *)

(** X24: the cleanup on close goes by the identity the socket carries at
    that moment: when a connection that is registered as [U] authenticates
    again as [V] and then closes, only [V] is taken offline; [U] stays in
    the set of online identities, its socket entry keeps pointing at the
    closed connection, and nobody is told that [U] went offline. *)
Theorem reauthentication_leaves_first_identity_online
    verifyToken f b c ws U V parsedData role email :
  sockets b !! c = Some ws -> readyState ws <> CLOSED ->
  userId ws = Some U -> U <> V -> V <> "" ->
  U ∈ onlineUsers b -> userSockets b !! U = Some c ->
  get_prop parsedData "event" = Some (JStr "authenticate") ->
  truthy (prop parsedData "token") = true ->
  verifyToken (prop parsedData "token") = Verified V role email ->
  let b1 := step verifyToken b (Message c (Some parsedData) f) in
  let b2 := step verifyToken b1 (Closed c) in
  (U ∈ onlineUsers b2) /\ userSockets b2 !! U = Some c
  /\ listening b2 c = false
  /\ (V ∉ onlineUsers b2) /\ userSockets b2 !! V = None
  /\ forall c', ~ In (Send c' (userStatus (JStr U) false))
                     (drop (length (effects b)) (effects b2)).
Proof.
  intros Hws Hopen Hid Hne HV HU HsU Hev Htok Hver b1 b2.
  assert (Hl : listening b c = true)
    by (unfold listening; rewrite Hws; by destruct (readyState ws)).
  assert (Hb1 : b1 = on_message verifyToken f c (Some parsedData) b)
    by (subst b1; simpl; by rewrite Hl).
  rewrite (authenticate_success _ _ _ _ _ _ _ _ Hev Htok Hver) in Hb1.
  assert (Hs1 : sockets b1 !! c = Some (with_userId V ws))
    by (rewrite Hb1; simpl; by rewrite lookup_alter_eq, Hws).
  assert (Hb2 : b2 = _) by
    (subst b2; apply (close_with_identity verifyToken b1 c V);
     [unfold listening; rewrite Hs1; simpl; by destruct (readyState ws)
     | unfold id_of_conn; by rewrite Hs1 | done]).
  rewrite Hb2, Hb1. simpl.
  split; [set_solver |].
  split; [by rewrite lookup_delete_ne, lookup_insert_ne by done |].
  split.
  { unfold listening. simpl. by rewrite lookup_alter_eq, lookup_alter_eq, Hws. }
  split; [apply not_elem_of_difference; right; by apply elem_of_singleton |].
  split; [apply lookup_delete_eq |].
  intros c'. rewrite <- app_assoc, drop_app_length.
  intros [H | H]%in_app_iff; apply in_map_iff in H as (x & [= _ HUV] & _);
    congruence.
Qed.

Lemma reauthentication_leaves_first_identity_online_witness :
  let b := run Samples.sample_verify init
             [Connection;
              Message 0 (Some (Samples.authenticate_request "alice")) healthy] in
  let b2 := run Samples.sample_verify b
              [Message 0 (Some (Samples.authenticate_request "bob")) healthy;
               Closed 0] in
  userSockets b2 !! "alice" = Some 0 /\ listening b2 0 = false.
Proof.
  intros b b2.
  destruct (reauthentication_leaves_first_identity_online Samples.sample_verify
              healthy b 0 {| userId := Some "alice"; readyState := OPEN |}
              "alice" "bob" (Samples.authenticate_request "bob")
              UserRole_Client "bob")
    as (_ & H1 & H2 & _).
  - vm_compute; reflexivity.
  - discriminate.
  - reflexivity.
  - discriminate.
  - discriminate.
  - vm_compute. set_solver.
  - vm_compute; reflexivity.
  - reflexivity.
  - reflexivity.
  - reflexivity.
  - split; [exact H1 | exact H2].
Defined.

(** ** Who is in the subscription index *)

Ltac shape_cases :=
  cbv zeta;
  repeat match goal with
    | |- context [if ?x then _ else _] => destruct x
    | |- context [match ?x with _ => _ end] => destruct x
    end;
  repeat match goal with
    | |- context [foldl (fun b c => if is_open b c then ws_send c ?m b else b)
                    ?b0 ?l] =>
        change (foldl (fun b c => if is_open b c then ws_send c m b else b) b0 l)
          with (foldl (send_if_open m) b0 l);
        rewrite send_each
    end;
  (split; [reflexivity | left; reflexivity | left; reflexivity]).

Lemma keeps_identity_start_closing : keeps_identity start_closing.
Proof.
  intros ws. unfold start_closing.
  destruct (readyState ws) eqn:E; simpl; rewrite ?E; split; done.
Qed.

Lemma shape_refl c b : shape c b b.
Proof. by split; [| left | left]. Qed.

Section Shapes.

Variable verifyToken : json -> VerifyResult.

Hypothesis verified_ids :
  forall token id role email,
    truthy token = true -> verifyToken token = Verified id role email ->
    id <> "".

Lemma shape_authenticate c parsedData b :
  shape c b (state_of (authenticate verifyToken c parsedData b)).
Proof.
  unfold authenticate.
  destruct (truthy (prop parsedData "token")) eqn:Htok; simpl.
  - destruct (verifyToken (prop parsedData "token")) as [id role email| |] eqn:Hv;
      simpl.
    + rewrite broadcastToAll_spec.
      split; [reflexivity | right | left; reflexivity].
      exists (with_userId id). split; [| reflexivity].
      intros ws. split; [done |]. intros _. simpl.
      apply has_identity_Some. eapply verified_ids; eauto.
    + split; [reflexivity | right | left; reflexivity].
      exists start_closing. split; [apply keeps_identity_start_closing | done].
    + apply shape_refl.
  - split; [reflexivity | right | left; reflexivity].
    exists start_closing. split; [apply keeps_identity_start_closing | done].
Qed.

Lemma shape_subscribeToLocation c parsedData b :
  shape c b (state_of (subscribeToLocation c parsedData b)).
Proof.
  unfold subscribeToLocation.
  destruct (has_identity (id_of_conn b c)) eqn:Hid; simpl;
    [| apply shape_refl].
  destruct (truthy (prop parsedData "targetUserId")); simpl;
    [| apply shape_refl].
  split; [reflexivity | left; reflexivity | right].
  by exists (prop parsedData "targetUserId").
Qed.

Lemma shape_locationUpdate f c parsedData b :
  shape c b (state_of (locationUpdate f c parsedData b)).
Proof. unfold locationUpdate. shape_cases. Qed.

Lemma shape_message f c parsedData b :
  shape c b (state_of (message f c parsedData b)).
Proof. unfold message. shape_cases. Qed.

Lemma shape_fetchChats f c parsedData b :
  shape c b (state_of (fetchChats f c parsedData b)).
Proof. unfold fetchChats. shape_cases. Qed.

Lemma shape_unReadMessages f c parsedData b :
  shape c b (state_of (unReadMessages f c parsedData b)).
Proof. unfold unReadMessages. shape_cases. Qed.

Lemma shape_messageList f c b :
  shape c b (state_of (messageList f c b)).
Proof. unfold messageList. shape_cases. Qed.

Lemma shape_dispatch f c parsedData event b :
  shape c b (state_of (dispatch verifyToken f c parsedData event b)).
Proof.
  unfold dispatch.
  repeat match goal with
    | |- context [if ?x then _ else _] => destruct x
    end;
  auto using shape_authenticate, shape_locationUpdate,
    shape_subscribeToLocation, shape_message, shape_fetchChats,
    shape_unReadMessages, shape_messageList.
  by split; [| left | left].
Qed.

Lemma shape_on_message f c data b :
  shape c b (on_message verifyToken f c data b).
Proof.
  unfold on_message.
  destruct (data ≫= _) as [[parsedData event]|].
  - pose proof (shape_dispatch f c parsedData event b) as [H1 H2 H3].
    destruct (dispatch verifyToken f c parsedData event b); by split.
  - by split; [| left | left].
Qed.

Lemma shape_socket c b b' c' :
  shape c b b' ->
  listening b c' = true -> has_identity (id_of_conn b c') = true ->
  listening b' c' = true /\ has_identity (id_of_conn b' c') = true.
Proof.
  intros [_ [Hs | (g & Hg & Hs)] _]; unfold listening, id_of_conn;
    rewrite Hs; [done |].
  rewrite lookup_alter. case_decide as Hc; [subst c' | done].
  destruct (sockets b !! c) as [ws|]; simpl; [| done].
  destruct (Hg ws) as [Hr Hi]. intros Hl Hid. split; [| by apply Hi].
  destruct (readyState (g ws)) eqn:E; try done.
  destruct Hr as [Hr _]. by rewrite Hr in Hl.
Qed.

Lemma set_add_inv c c' l : In c' (set_add c l) -> c' = c \/ In c' l.
Proof.
  unfold set_add. destruct (existsb (Nat.eqb c) l); [by right |].
  intros [H | [<- | []]]%in_app_iff; [by right | by left].
Qed.

Lemma subscribe_inv key c index k l c' :
  In (k, l) (subscribe key c index) -> In c' l ->
  c' = c \/ exists l0, In (k, l0) index /\ In c' l0.
Proof.
  induction index as [|[k0 l0] index IH]; simpl.
  - intros [[= <- <-] | []] [<- | []]. by left.
  - destruct (same_key k0 key).
    + intros [[= <- <-] | Hin] Hc.
      * destruct (set_add_inv _ _ _ Hc) as [-> | Hc']; [by left |].
        right. exists l0. split; [by left | done].
      * right. exists l. split; [by right | done].
    + intros [[= <- <-] | Hin] Hc.
      * right. exists l0. split; [by left | done].
      * destruct (IH Hin Hc) as [-> | (l1 & H1 & H2)]; [by left |].
        right. exists l1. split; [by right | done].
Qed.

Lemma index_sound_shape c b b' :
  index_sound b -> listening b c = true -> shape c b b' -> index_sound b'.
Proof.
  intros [Hb Hl] Hc Hshape. pose proof Hshape as [Hn Hs Hi]. split.
  - intros c'. rewrite Hn.
    destruct Hs as [-> | (g & _ & ->)]; [apply Hb |].
    rewrite lookup_alter. case_decide; [subst c' |]; [| apply Hb].
    rewrite fmap_is_Some. apply Hb.
  - intros k l c' Hin Hc'.
    destruct Hi as [Hi | (key & Hid & Hi)]; rewrite Hi in Hin.
    + destruct (Hl k l c' Hin Hc') as [H1 H2].
      by apply (shape_socket c b b' c').
    + destruct (subscribe_inv _ _ _ _ _ _ Hin Hc') as [-> | (l0 & H1 & H2)].
      * by apply (shape_socket c b b' c).
      * destruct (Hl k l0 c' H1 H2) as [H3 H4].
        by apply (shape_socket c b b' c').
Qed.

Lemma index_sound_boot s : index_sound (boot s).
Proof.
  split; simpl.
  - intros c. rewrite lookup_empty. by intros [? ?].
  - intros k l c [].
Qed.

Lemma index_sound_on_connection b : index_sound b -> index_sound (on_connection b).
Proof.
  intros [Hb Hl]. unfold on_connection. split; simpl.
  - intros c. rewrite lookup_insert. case_decide as Hc; [subst c; lia |].
    intros H. apply Hb in H. lia.
  - intros k l c Hin Hc. destruct (Hl k l c Hin Hc) as [H1 H2].
    assert (c <> nextConn b).
    { intros ->. unfold listening in H1.
      destruct (sockets b !! nextConn b) as [ws|] eqn:E; [| done].
      pose proof (Hb (nextConn b) (mk_is_Some _ _ E)). lia. }
    unfold listening, id_of_conn in *. simpl.
    by rewrite lookup_insert_ne.
Qed.

Lemma index_sound_closed c b :
  index_sound b -> index_sound (on_close c (transport_closed c b)).
Proof.
  intros [Hb Hl].
  assert (Hother : forall c', c' <> c ->
            listening b c' = true /\ has_identity (id_of_conn b c') = true ->
            match alter (with_readyState CLOSED) c (sockets b) !! c' with
            | Some ws => match readyState ws with CLOSED => false | _ => true end
            | None => false
            end = true
            /\ has_identity
                 match alter (with_readyState CLOSED) c (sockets b) !! c' with
                 | Some ws => userId ws
                 | None => None
                 end = true).
  { intros c' Hne. unfold listening, id_of_conn. by rewrite lookup_alter_ne. }
  assert (Hdom : forall c',
            is_Some (alter (with_readyState CLOSED) c (sockets b) !! c') ->
            c' < nextConn b).
  { intros c'. rewrite lookup_alter. case_decide; [subst c' |]; [| apply Hb].
    rewrite fmap_is_Some. apply Hb. }
  unfold on_close. rewrite id_of_conn_transport_closed.
  destruct (id_of_conn b c) as [uid|] eqn:Hid.
  - destruct (has_identity (Some uid)) eqn:Hu.
    + rewrite broadcastToAll_spec. split; simpl; [exact Hdom |].
      intros k l c' Hin Hc'. unfold unsubscribe_all in Hin.
      apply in_map_iff in Hin as ([k0 l0] & [= <- <-] & Hin).
      apply set_delete_In in Hc' as [Hc' Hne].
      unfold listening, id_of_conn. simpl.
      apply Hother; [done | by apply (Hl k0 l0)].
    + split; simpl; [exact Hdom |].
      intros k l c' Hin Hc'. destruct (Hl k l c' Hin Hc') as [H1 H2].
      unfold listening, id_of_conn. simpl. apply Hother; [| done].
      intros ->. by rewrite Hid, Hu in H2.
  - split; simpl; [exact Hdom |].
    intros k l c' Hin Hc'. destruct (Hl k l c' Hin Hc') as [H1 H2].
    unfold listening, id_of_conn. simpl. apply Hother; [| done].
    intros ->. by rewrite Hid in H2.
Qed.

Lemma index_sound_step b ev :
  index_sound b -> index_sound (step verifyToken b ev).
Proof.
  intros Hb. destruct ev as [| c data f | c]; simpl.
  - by apply index_sound_on_connection.
  - destruct (listening b c) eqn:Hl; [| done].
    eapply index_sound_shape; [exact Hb | exact Hl | apply shape_on_message].
  - destruct (listening b c); [| done]. by apply index_sound_closed.
Qed.

Lemma reachable_index_sound b : reachable verifyToken b -> index_sound b.
Proof.
  intros (s & evs & ->). unfold run.
  pose proof (index_sound_boot s) as Hb. revert Hb. generalize (boot s).
  induction evs as [|ev evs IH]; intros b Hb; simpl; [done |].
  by apply IH, index_sound_step.
Qed.

End Shapes.

(** X25: when the verifier never yields an empty identity, then in every
    state the broker can reach each connection in the subscription index is
    a socket that has not closed and that carries an identity: a close takes
    the connection out of every set before the socket is dropped. *)
Theorem subscribers_are_connected_and_identified verifyToken b k l c :
  (forall token id role email,
      truthy token = true -> verifyToken token = Verified id role email ->
      id <> "") ->
  reachable verifyToken b ->
  In (k, l) (locationSubscribers b) -> In c l ->
  exists ws uid,
    sockets b !! c = Some ws /\ readyState ws <> CLOSED
    /\ userId ws = Some uid /\ uid <> "".
Proof.
  intros Hv Hr Hin Hc.
  destruct (reachable_index_sound verifyToken Hv b Hr) as [_ Hl].
  destruct (Hl k l c Hin Hc) as [H1 H2].
  unfold listening, id_of_conn in *.
  destruct (sockets b !! c) as [ws|]; [| done].
  apply CallFacts.has_identity_true in H2 as (uid & H2 & H3).
  exists ws, uid. repeat split; try done.
  intros E. by rewrite E in H1.
Qed.

Lemma subscribers_are_connected_and_identified_witness :
  let b := run Samples.sample_verify init
             [Connection;
              Message 0 (Some (Samples.authenticate_request "alice")) healthy;
              Message 0 (Some (Samples.subscribe_request "bob")) healthy] in
  In (JStr "bob", [0]) (locationSubscribers b)
  /\ exists ws uid,
       sockets b !! 0 = Some ws /\ readyState ws <> CLOSED
       /\ userId ws = Some uid /\ uid <> "".
Proof.
  intros b.
  assert (Hin : In (JStr "bob", [0]) (locationSubscribers b))
    by (vm_compute; by left).
  split; [exact Hin |].
  apply (subscribers_are_connected_and_identified Samples.sample_verify b
           (JStr "bob") [0] 0).
  - intros token id role email Htok Hver. destruct token; try discriminate.
    simpl in Hver. destruct (String.eqb s "expired"); [discriminate |].
    injection Hver as <- _ _. simpl in Htok.
    by apply negb_true_iff, String.eqb_neq in Htok.
  - exists (store init).
    by exists [Connection;
               Message 0 (Some (Samples.authenticate_request "alice")) healthy;
               Message 0 (Some (Samples.subscribe_request "bob")) healthy].
  - exact Hin.
  - by left.
Defined.

End ChatExtras.
